(** * A shallow embedding of [scrape_2up_api_only.py]

    The development follows the module top to bottom:

    - Python values and builtins the module relies on (strings as UTF-8 byte
      strings, binary64 floats, [float()], [int()], [str()], the [.3f]
      format, truthiness, [dict.get]);
    - [format_decimal_str], [compute_match_id],
      [build_item_skeleton_from_api], [extract_markets_from_api];
    - the window and page loop of [scrape_api_only], as a step function over
      an explicit cursor state, driven against an arbitrary upstream.

    Console output ([info], [ok], [warn], [err], [print]) and the final
    [json.dump] to disk are outside the model: they never feed back into the
    values the functions return.

    Where the model stops short of Python:

    - a str is its UTF-8 bytes, so text with a lone surrogate (which a JSON
      escape can produce, and which [key.encode("utf-8")] in
      [compute_match_id] rejects with [UnicodeEncodeError]) has no
      counterpart here;
    - [float()], [int()], [str.isdigit] and [str.lower] are modelled on
      ASCII text; Python also takes Unicode digits and spaces, and folds
      cased letters outside ASCII;
    - floats have a value and no identity: a dict finds a key by identity
      before it tries [==], which matters for a NaN key only;
    - [list.sort] is modelled where [<] orders the keys, that is, without
      NaN among them.

    Statements that depend on one of these say so in their hypotheses. *)

From Stdlib Require Import ZArith String Ascii List Bool Lia.
From Stdlib Require Import Floats.SpecFloat DecimalString DecimalZ Sorted Permutation.
From Stdlib Require DecimalPos.
From stdpp Require Import gmap strings.

Open Scope string_scope.
Open Scope Z_scope.

(* ===================================================================== *)
(** * Exceptions *)
(* ===================================================================== *)

(** The exception classes that can reach the code under study. *)
Inductive exn : Type :=
| AttributeError        (* [.get] on a value that is not a dict *)
| TypeError             (* iteration over a number, [int()] of a container *)
| ValueError            (* [int()] / [float()] of a malformed string *)
| OverflowError         (* [float()] of a huge int, [int()] of an infinity *)
| RequestException      (* [session.post] failed after the transport retries *)
| JSONDecodeError       (* [resp.json()] failed *)
| RuntimeError (msg : string).

Inductive result (A : Type) : Type :=
| Ok (a : A)
| Raise (e : exn).
Arguments Ok {A} a.
Arguments Raise {A} e.

Definition bind {A B : Type} (c : result A) (k : A -> result B) : result B :=
  match c with
  | Ok a => k a
  | Raise e => Raise e
  end.

Notation "x <- c ;; k" := (bind c (fun x => k))
  (at level 100, c at next level, right associativity).

(** [try: ... except Exception: <default>] *)
Definition try_except {A : Type} (c : result A) (default : A) : A :=
  match c with
  | Ok a => a
  | Raise _ => default
  end.

(** The view of a guarded computation as an optional value. *)
Definition to_option {A : Type} (c : result A) : option A :=
  match c with
  | Ok a => Some a
  | Raise _ => None
  end.

(* ===================================================================== *)
(** * Strings

    A Python [str] is modelled by its UTF-8 encoding, a [string] of bytes.
    Substring search and replacement on code points coincide with the same
    operations on the encodings, because UTF-8 is self-synchronising. *)
(* ===================================================================== *)

Module Str.

Definition is_upper (c : ascii) : bool :=
  let n := nat_of_ascii c in ((65 <=? n) && (n <=? 90))%nat.

Definition lower_char (c : ascii) : ascii :=
  if is_upper c then ascii_of_nat (nat_of_ascii c + 32) else c.

(** [s.lower()]. Only ASCII letters are folded. The one code point outside
    ASCII whose lower-case form is an ASCII string is U+212A (KELVIN SIGN, to
    [k]); none of the literals the module compares against contains a [k],
    so every comparison below agrees with Python's on all inputs. The
    [league] slug, which is only output, differs for cased non-ASCII
    letters. *)
Fixpoint lower (s : string) : string :=
  match s with
  | EmptyString => EmptyString
  | String c s' => String (lower_char c) (lower s')
  end.

(** [sub in s] *)
Fixpoint contains (sub s : string) : bool :=
  String.prefix sub s ||
  match s with
  | EmptyString => false
  | String _ s' => contains sub s'
  end.

(** [s.replace(old, new)] for a non-empty [old]: leftmost occurrences, not
    overlapping. [skip] counts the bytes of a matched [old] still to drop. *)
Fixpoint replace_from (old new : string) (skip : nat) (s : string) : string :=
  match s with
  | EmptyString => EmptyString
  | String c s' =>
      match skip with
      | S k => replace_from old new k s'
      | O =>
          if String.prefix old s
          then new ++ replace_from old new (Nat.pred (String.length old)) s'
          else String c (replace_from old new O s')
      end
  end.

(** With an empty [old], Python inserts [new] around every character. *)
Fixpoint interleave (new s : string) : string :=
  match s with
  | EmptyString => new
  | String c s' => new ++ String c (interleave new s')
  end.

Definition replace (old new s : string) : string :=
  match old with
  | EmptyString => interleave new s
  | _ => replace_from old new O s
  end.

(** [s[:n]] *)
Definition take (n : nat) (s : string) : string := String.substring 0 n s.

(** [bool(s)] *)
Definition nonempty (s : string) : bool :=
  match s with
  | EmptyString => false
  | _ => true
  end.

Definition is_digit (c : ascii) : bool :=
  let n := nat_of_ascii c in ((48 <=? n) && (n <=? 57))%nat.

Definition digit_val (c : ascii) : Z := Z.of_nat (nat_of_ascii c) - 48.

(** The ASCII white space that [float()] and [int()] strip. *)
Definition is_space (c : ascii) : bool :=
  let n := nat_of_ascii c in (((9 <=? n) && (n <=? 13)) || (n =? 32))%nat.

Fixpoint lstrip (l : list ascii) : list ascii :=
  match l with
  | c :: l' => if is_space c then lstrip l' else l
  | [] => []
  end.

Definition strip (l : list ascii) : list ascii :=
  rev (lstrip (rev (lstrip l))).

(** [str(n)] for an int. *)
Definition of_Z (z : Z) : string := NilZero.string_of_int (Z.to_int z).

End Str.

(** The unicode minus sign U+2212, as its three UTF-8 bytes. *)
Definition unicode_minus : string := "−".

(* ===================================================================== *)
(** * Floats

    A Python [float] is an IEEE 754 binary64 value, here a [spec_float] with
    [prec = 53] and [emax = 1024]. Conversions from decimal text and from
    [int] round to nearest, ties to even, as CPython's do. *)
(* ===================================================================== *)

Module Float.

Definition prec : Z := 53.
Definition emax : Z := 1024.

Definition float : Type := spec_float.

Definition eqb (x y : float) : bool := SFeqb x y.   (* [x == y] *)
Definition ltb (x y : float) : bool := SFltb x y.   (* [x < y] *)
Definition div (x y : float) : float := SFdiv prec emax x y.

Definition is_nan (x : float) : bool :=
  match x with
  | S754_nan => true
  | _ => false
  end.

(** [bool(x)]: false exactly for the two zeros. *)
Definition truthy (x : float) : bool :=
  match x with
  | S754_zero _ => false
  | _ => true
  end.

(** [float(n)] for an int: the nearest double, [OverflowError] past the
    largest finite one. *)
Definition of_Z (z : Z) : result float :=
  match binary_normalize prec emax z 0 false with
  | S754_infinity _ => Raise OverflowError
  | f => Ok f
  end.

(** The double nearest to [(-1)^neg * n * 10^e10], for [n >= 0]; decimal
    text out of range becomes an infinity or a zero, never an error. *)
Definition of_decimal (neg : bool) (n e10 : Z) : float :=
  match n with
  | Zpos p =>
      if 0 <=? e10
      then binary_normalize prec emax (cond_Zopp neg (n * 10 ^ e10)) 0 neg
      else SFdiv prec emax (S754_finite neg p 0)
                           (S754_finite false (Z.to_pos (10 ^ (- e10))) 0)
  | _ => S754_zero neg
  end.

(** [int(x)]: truncation toward zero. *)
Definition trunc (x : float) : result Z :=
  match x with
  | S754_nan => Raise ValueError
  | S754_infinity _ => Raise OverflowError
  | S754_zero _ => Ok 0
  | S754_finite s m e =>
      Ok (cond_Zopp s (if 0 <=? e then Zpos m * 2 ^ e else Zpos m / 2 ^ (- e)))
  end.

(** ** [float(s)] for a string *)

Fixpoint span_digits (l : list ascii) : list ascii * list ascii :=
  match l with
  | c :: l' =>
      if Str.is_digit c
      then let (d, r) := span_digits l' in (c :: d, r)
      else ([], l)
  | [] => ([], [])
  end.

Definition digits_val (d : list ascii) : Z :=
  fold_left (fun acc c => 10 * acc + Str.digit_val c) d 0.

Definition is_underscore (c : ascii) : bool := Ascii.eqb c "_".

(** Underscores may only stand between two digits; they are dropped. [prev]
    is the previous character, NUL at the start. *)
Fixpoint drop_underscores (prev : ascii) (l : list ascii) : option (list ascii) :=
  match l with
  | [] => if is_underscore prev then None else Some []
  | c :: l' =>
      if is_underscore c
      then (if Str.is_digit prev then drop_underscores c l' else None)
      else if is_underscore prev && negb (Str.is_digit c) then None
      else option_map (cons c) (drop_underscores c l')
  end.

Definition split_sign (l : list ascii) : bool * list ascii :=
  match l with
  | "+"%char :: r => (false, r)
  | "-"%char :: r => (true, r)
  | _ => (false, l)
  end.

(** What may follow the mantissa: nothing, or [e] / [E], an optional sign
    and at least one digit. *)
Definition parse_exponent (l : list ascii) : option Z :=
  match l with
  | [] => Some 0
  | c :: l' =>
      if Ascii.eqb c "e" || Ascii.eqb c "E"
      then
        let (neg, l'') := split_sign l' in
        match span_digits l'' with
        | ((_ :: _) as d, []) => Some (cond_Zopp neg (digits_val d))
        | _ => None
        end
      else None
  end.

Definition parse_number (neg : bool) (l : list ascii) : option float :=
  let (ip, r1) := span_digits l in
  let (fp, r2) :=
    match r1 with
    | "."%char :: r => span_digits r
    | _ => ([], r1)
    end in
  match (ip ++ fp)%list with
  | [] => None
  | ds =>
      match parse_exponent r2 with
      | Some x => Some (of_decimal neg (digits_val ds) (x - Z.of_nat (length fp)))
      | None => None
      end
  end.

(** [float(s)]. Input is read as ASCII: a string with any other byte is
    rejected, which is CPython's answer for every code point except the
    Unicode spaces and the non-ASCII decimal digits (not modelled). *)
Definition of_string (s : string) : result float :=
  match drop_underscores Ascii.zero (list_ascii_of_string s) with
  | None => Raise ValueError
  | Some l =>
      let (neg, body) := split_sign (Str.strip l) in
      let word := Str.lower (string_of_list_ascii body) in
      if String.eqb word "inf" || String.eqb word "infinity"
      then Ok (S754_infinity neg)
      else if String.eqb word "nan" then Ok S754_nan
      else match parse_number neg body with
           | Some f => Ok f
           | None => Raise ValueError
           end
  end.

(** ** The format [f"{x:.3f}"] *)

(** [a / b] rounded to the nearest integer, ties to even ([a >= 0], [b > 0]). *)
Definition div_half_even (a b : Z) : Z :=
  let q := a / b in
  match 2 * (a mod b) ?= b with
  | Lt => q
  | Gt => q + 1
  | Eq => if Z.even q then q else q + 1
  end.

(** [m * 2^e] in thousandths, correctly rounded. *)
Definition thousandths (m : positive) (e : Z) : Z :=
  if 0 <=? e
  then Zpos m * 2 ^ e * 1000
  else div_half_even (Zpos m * 1000) (2 ^ (- e)).

Definition pad3 (n : Z) : string :=
  if n <? 10 then "00" ++ Str.of_Z n
  else if n <? 100 then "0" ++ Str.of_Z n
  else Str.of_Z n.

Definition sign_str (s : bool) : string := if s then "-" else "".

Definition format_3f (x : float) : string :=
  match x with
  | S754_nan => "nan"
  | S754_infinity s => sign_str s ++ "inf"
  | S754_zero s => sign_str s ++ "0.000"
  | S754_finite s m e =>
      let t := thousandths m e in
      sign_str s ++ Str.of_Z (t / 1000) ++ "." ++ pad3 (t mod 1000)
  end.

End Float.

Abbreviation float := Float.float.

(* ===================================================================== *)
(** * SHA-256 ([hashlib.sha256(...).hexdigest()], FIPS 180-4) *)
(* ===================================================================== *)

Module SHA256.

Definition w32 (x : Z) : Z := x mod 2 ^ 32.
Definition add32 (x y : Z) : Z := w32 (x + y).
Definition rotr (n x : Z) : Z := w32 (Z.lor (Z.shiftr x n) (Z.shiftl x (32 - n))).
Definition not32 (x : Z) : Z := Z.lxor x (2 ^ 32 - 1).

Definition Ch (x y z : Z) : Z := Z.lxor (Z.land x y) (Z.land (not32 x) z).
Definition Maj (x y z : Z) : Z :=
  Z.lxor (Z.lxor (Z.land x y) (Z.land x z)) (Z.land y z).
Definition Sigma0 (x : Z) : Z := Z.lxor (Z.lxor (rotr 2 x) (rotr 13 x)) (rotr 22 x).
Definition Sigma1 (x : Z) : Z := Z.lxor (Z.lxor (rotr 6 x) (rotr 11 x)) (rotr 25 x).
Definition sigma0 (x : Z) : Z := Z.lxor (Z.lxor (rotr 7 x) (rotr 18 x)) (Z.shiftr x 3).
Definition sigma1 (x : Z) : Z := Z.lxor (Z.lxor (rotr 17 x) (rotr 19 x)) (Z.shiftr x 10).

(** The constants, as FIPS 180-4 defines them: the first 32 bits of the
    fractional parts of the cube roots of the first 64 primes, and, for the
    initial hash value, of the square roots of the first 8. *)
Definition is_prime (n : Z) : bool :=
  forallb (fun d => negb (n mod Z.of_nat d =? 0)) (seq 2 (Z.to_nat n - 2)).

Definition primes : list Z :=
  List.filter is_prime (map Z.of_nat (seq 2 310)).

(** The integer cube root, bit by bit from the top. *)
Definition icbrt (n : Z) : Z :=
  fold_left (fun r b => let r' := r + 2 ^ Z.of_nat b in
                        if r' * r' * r' <=? n then r' else r)
            (rev (seq 0 40)) 0.

Definition K : list Z :=
  Eval vm_compute in map (fun p => w32 (icbrt (p * 2 ^ 96))) primes.

Definition H0 : list Z :=
  Eval vm_compute in map (fun p => w32 (Z.sqrt (p * 2 ^ 64))) (firstn 8 primes).

(** The message, a [0x80] byte, zero bytes up to 56 modulo 64, and the bit
    length on eight bytes, big-endian. *)
Definition be_bytes (n : nat) (x : Z) : list Z :=
  map (fun i => Z.shiftr x (8 * Z.of_nat i) mod 256) (rev (seq 0 n)).

Definition pad (msg : list Z) : list Z :=
  let len := Z.of_nat (length msg) in
  let zeros := Z.to_nat ((55 - len) mod 64) in
  (msg ++ 128 :: repeat 0 zeros ++ be_bytes 8 (8 * len))%list.

Definition word_of (b : list Z) : Z :=
  fold_left (fun acc x => acc * 256 + x) b 0.

(** Split into groups of [n]. [fuel] bounds the number of groups. *)
Fixpoint chunks {A : Type} (fuel n : nat) (l : list A) : list (list A) :=
  match fuel, l with
  | S f, _ :: _ => firstn n l :: chunks f n (skipn n l)
  | _, _ => []
  end.

Definition words (block : list Z) : list Z :=
  map word_of (chunks 16 4 block).

(** The message schedule: sixteen block words extended to sixty-four. *)
Fixpoint schedule (n : nat) (w : list Z) : list Z :=
  match n with
  | O => w
  | S n' =>
      let t := length w in
      let at_ (k : nat) := nth (t - k) w 0 in
      schedule n'
        (w ++ [add32 (add32 (sigma1 (at_ 2%nat)) (at_ 7%nat))
                     (add32 (sigma0 (at_ 15%nat)) (at_ 16%nat))])%list
  end.

Definition round (st : list Z) (kw : Z * Z) : list Z :=
  match st with
  | [a; b; c; d; e; f; g; h] =>
      let t1 := add32 (add32 (add32 h (Sigma1 e)) (add32 (Ch e f g) (fst kw))) (snd kw) in
      let t2 := add32 (Sigma0 a) (Maj a b c) in
      [add32 t1 t2; a; b; c; add32 d t1; e; f; g]
  | _ => st
  end.

Definition compress (h : list Z) (block : list Z) : list Z :=
  let w := schedule 48 (words block) in
  let st := fold_left round (combine K w) h in
  map (fun p => add32 (fst p) (snd p)) (combine h st).

Definition digest_words (msg : list Z) : list Z :=
  let p := pad msg in
  fold_left compress (chunks (length p) 64 p) H0.

Definition hex_digit (d : Z) : ascii :=
  ascii_of_nat (Z.to_nat (if d <? 10 then 48 + d else 87 + d)).

Definition hex8 (x : Z) : string :=
  string_of_list_ascii
    (map (fun i => hex_digit (Z.shiftr x (4 * Z.of_nat i) mod 16)) (rev (seq 0 8))).

Definition bytes_of (s : string) : list Z :=
  map (fun c => Z.of_nat (nat_of_ascii c)) (list_ascii_of_string s).

(** [hashlib.sha256(s.encode("utf-8")).hexdigest()] *)
Definition hexdigest (s : string) : string :=
  String.concat "" (map hex8 (digest_words (bytes_of s))).

End SHA256.

(** [int(s, 16)] on a string of lower-case hexadecimal digits. *)
Definition hex_val (c : ascii) : Z :=
  if Str.is_digit c then Str.digit_val c else Z.of_nat (nat_of_ascii c) - 87.

Definition int_of_hex (s : string) : Z :=
  fold_left (fun acc c => 16 * acc + hex_val c) (list_ascii_of_string s) 0.

(* ===================================================================== *)
(** * Decoded JSON and the builtins applied to it *)
(* ===================================================================== *)

(** What [resp.json()] returns. A dict is its list of items in order; the
    decoder leaves one binding per key. [JFloat] holds the double a number
    literal decodes to. (The decoder also reads the token [NaN], outside
    JSON proper, as one shared float object; as a dict key that object is
    found again by identity, which a [JFloat] NaN does not model.) *)
#[warnings="-register-all"]
Inductive json : Type :=
| JNull
| JBool (b : bool)
| JInt (n : Z)
| JFloat (x : float)
| JStr (s : string)
| JList (l : list json)
| JDict (kv : list (string * json)).

(** Library functions whose results are fixed by the interpreter and the
    operating system, not by the module; every theorem holds whatever they
    return. *)
Record platform : Type := {
  (** [repr(x)] of a float: the shortest digits that read back as [x] *)
  float_repr : float -> string;
  (** [repr(s)] of a str: quotes and escapes *)
  str_repr : string -> string;
  (** [datetime.fromtimestamp(t, tz=timezone.utc).isoformat()], [None] when
      it raises (a timestamp out of the platform's range) *)
  utc_isoformat : float -> option string
}.

Module Py.

(** [bool(v)] *)
Definition truthy (v : json) : bool :=
  match v with
  | JNull => false
  | JBool b => b
  | JInt n => negb (n =? 0)
  | JFloat x => Float.truthy x
  | JStr s => Str.nonempty s
  | JList l => match l with [] => false | _ => true end
  | JDict kv => match kv with [] => false | _ => true end
  end.

(** [a or b], both already evaluated. Where the right operand can raise,
    the model branches on [truthy] instead. *)
Definition or_ (a b : json) : json := if truthy a then a else b.

Fixpoint assoc (k : string) (kv : list (string * json)) : option json :=
  match kv with
  | [] => None
  | (k', v) :: kv' => if String.eqb k k' then Some v else assoc k kv'
  end.

(** [d.get(k)]: [None] for a missing key, [AttributeError] when [d] is not
    a dict (no other JSON value has a [get]). *)
Definition get (d : json) (k : string) : result json :=
  match d with
  | JDict kv => Ok (match assoc k kv with Some v => v | None => JNull end)
  | _ => Raise AttributeError
  end.

(** [for x in v]: the elements of a list, the keys of a dict, the
    characters of a str (each a str; byte granularity is enough, since
    every loop body starts by calling [.get] on its element);
    [TypeError] on anything else. *)
Definition iter (v : json) : result (list json) :=
  match v with
  | JList l => Ok l
  | JDict kv => Ok (map (fun p => JStr (fst p)) kv)
  | JStr s => Ok (map (fun c => JStr (String c EmptyString)) (list_ascii_of_string s))
  | _ => Raise TypeError
  end.

Section Repr.
Context (P : platform).

(** [repr(v)] *)
Fixpoint repr (v : json) : string :=
  match v with
  | JNull => "None"
  | JBool b => if b then "True" else "False"
  | JInt n => Str.of_Z n
  | JFloat x => float_repr P x
  | JStr s => str_repr P s
  | JList l =>
      "[" ++ (fix go (l : list json) : string :=
                match l with
                | [] => ""
                | [x] => repr x
                | x :: l' => repr x ++ ", " ++ go l'
                end) l ++ "]"
  | JDict kv =>
      "{" ++ (fix go (kv : list (string * json)) : string :=
                match kv with
                | [] => ""
                | [(k, x)] => str_repr P k ++ ": " ++ repr x
                | (k, x) :: kv' => str_repr P k ++ ": " ++ repr x ++ ", " ++ go kv'
                end) kv ++ "}"
  end.

(** [str(v)] *)
Definition str (v : json) : string :=
  match v with
  | JStr s => s
  | _ => repr v
  end.

End Repr.

(** [s.isdigit()] on ASCII text. *)
Definition isdigit (s : string) : bool :=
  Str.nonempty s && forallb Str.is_digit (list_ascii_of_string s).

(** [int(s)] for a str, base 10: white space stripped, an optional sign,
    digits with single underscores between them. (From 3.11 on CPython
    also refuses more than 4300 digits; not modelled.) *)
Definition int_of_string (s : string) : result Z :=
  let (neg, body) := Float.split_sign (Str.strip (list_ascii_of_string s)) in
  match Float.drop_underscores Ascii.zero body with
  | Some ((_ :: _) as d) =>
      if forallb Str.is_digit d
      then Ok (cond_Zopp neg (Float.digits_val d))
      else Raise ValueError
  | _ => Raise ValueError
  end.

(** [int(v)] *)
Definition int (v : json) : result Z :=
  match v with
  | JInt n => Ok n
  | JBool b => Ok (if b then 1 else 0)
  | JFloat x => Float.trunc x
  | JStr s => int_of_string s
  | _ => Raise TypeError
  end.

(** [float(v)] *)
Definition float_of (v : json) : result float :=
  match v with
  | JFloat x => Ok x
  | JInt n => Float.of_Z n
  | JBool b => Float.of_Z (if b then 1 else 0)
  | JStr s => Float.of_string s
  | _ => Raise TypeError
  end.

End Py.

(* ===================================================================== *)
(** * Module constants *)
(* ===================================================================== *)

Definition BOOKMAKER_KEY : string := "2up".

(* ===================================================================== *)
(** * [format_decimal_str] *)
(* ===================================================================== *)

(** Normalize numeric/decimal strings to a simple 3-decimal string or
    [None]. The whole body sits in [try ... except Exception: return None]. *)
Definition format_decimal_str (value : json) : option string :=
  match value with
  | JNull => None
  | _ =>
      let value :=
        match value with
        | JStr s => JStr (Str.replace "," "." s)
        | _ => value
        end in
      match Py.float_of value with
      | Ok val => Some (Float.format_3f val)
      | Raise _ => None
      end
  end.

(** [bool(price)] for the optional string [format_decimal_str] returns:
    the tests [if not price] and [if home_p and ...]. *)
Definition priced (price : option string) : bool :=
  match price with
  | Some s => Str.nonempty s
  | None => false
  end.

(* ===================================================================== *)
(** * [compute_match_id] *)
(* ===================================================================== *)

(** [int(hashlib.sha256(key.encode("utf-8")).hexdigest()[:10], 16)] *)
Definition sha_id (key : string) : Z :=
  int_of_hex (Str.take 10 (SHA256.hexdigest key)).

Definition compute_match_id (home away : string) (date_iso : option string) : Z :=
  let key := home ++ "__" ++ away ++ "__" ++
             (match date_iso with
              | Some d => if Str.nonempty d then d else ""
              | None => ""
              end) in
  sha_id key.

(* ===================================================================== *)
(** * Normalized market blocks and the fixture record *)
(* ===================================================================== *)

(** The one entry of an [ML] block. *)
Record ml_odds : Type := { ml_home : string; ml_draw : string; ml_away : string }.

(** A totals line, as the dict [{"hdp", "over", "under"}]; a leg is [None]
    until a selection prices it. *)
Record totals_line : Type :=
  { t_hdp : float; t_over : option string; t_under : option string }.

(** A handicap line, [{"hdp", "home", "away"}]. *)
Record handicap_line : Type := { h_hdp : float; h_home : string; h_away : string }.

(** The ["odds"] list of a block; its entries have the shape of the block's
    kind. *)
Inductive odds : Type :=
| OddsML (l : list ml_odds)
| OddsTotals (l : list totals_line)
| OddsHandicap (l : list handicap_line).

(** A market block, [{"name", "updatedAt", "odds"}]. *)
Record market : Type := { m_name : string; m_updatedAt : string; m_odds : odds }.

(** The fixture record [build_item_skeleton_from_api] returns. [urls] and
    [bookmakers] are dicts with the single key [BOOKMAKER_KEY]; the fields
    hold the value under that key. *)
Record item : Type := {
  item_id : Z;
  item_home : string;
  item_away : string;
  item_date : string;
  item_sport : string * string;        (* name, slug *)
  item_league : string * string;       (* name, slug *)
  item_urls : string;
  item_bookmakers : list market;
  item_status : string
}.

Definition set_bookmakers (it : item) (ms : list market) : item :=
  {| item_id := item_id it; item_home := item_home it; item_away := item_away it;
     item_date := item_date it; item_sport := item_sport it;
     item_league := item_league it; item_urls := item_urls it;
     item_bookmakers := ms; item_status := item_status it |}.

(* ===================================================================== *)
(** * Dicts keyed by float, and [list.sort(key=...)] *)
(* ===================================================================== *)

(** [totals_lines] and [handicap_lines]: insertion-ordered, keys compared
    with [==] (so [0.0] and [-0.0] are one key, and a NaN produced by
    [float()] from text, a new object each time, is a key of its own each
    time). A NaN that arrives as one shared float object, as the JSON
    token [NaN] does, is found again by identity in Python and not here:
    statements about which line a NaN key holds are not made. *)
Module FDict.

Definition t (V : Type) : Type := list (float * V).

Fixpoint mem {V : Type} (k : float) (d : t V) : bool :=
  match d with
  | [] => false
  | (k', _) :: d' => Float.eqb k' k || mem k d'
  end.

(** [rec = d.setdefault(k, v0)] followed by the in-place update [f] of
    [rec]: the stored value is updated, a new key goes to the end. *)
Fixpoint upsert {V : Type} (k : float) (v0 : V) (f : V -> V) (d : t V) : t V :=
  match d with
  | [] => [(k, f v0)]
  | (k', v) :: d' =>
      if Float.eqb k' k then (k', f v) :: d' else (k', v) :: upsert k v0 f d'
  end.

(** [d[k] = v]: an existing key keeps its place (and its key object). *)
Definition set {V : Type} (k : float) (v : V) (d : t V) : t V :=
  upsert k v (fun _ => v) d.

(** [d.values()] *)
Definition values {V : Type} (d : t V) : list V := map snd d.

End FDict.

(** [l.sort(key=key)] with float keys, as a stable insertion sort driven by
    [<] alone: each element moves left past the elements it is less than.
    This is [list.sort]'s result whenever [<] orders the keys totally (no
    NaN among them), and also on any list in which no element is less than
    its predecessor, which both leave unchanged. *)
Module Sort.
Section Sort.
Context {A : Type} (key : A -> float).

(** [racc] is the sorted prefix, last element first. *)
Fixpoint insert (x : A) (racc : list A) : list A :=
  match racc with
  | [] => [x]
  | y :: r => if Float.ltb (key x) (key y) then y :: insert x r else x :: racc
  end.

Definition sort (l : list A) : list A :=
  rev (fold_left (fun racc x => insert x racc) l []).

End Sort.
End Sort.

(* ===================================================================== *)
(** * The market normalizer *)
(* ===================================================================== *)

Section Normalizer.
Context (P : platform).

(** [str(v or "").lower()] *)
Definition lower_str (v : json) : string :=
  Str.lower (Py.str P (Py.or_ v (JStr ""))).

(** ** [build_item_skeleton_from_api] *)

Definition f1000 : float := Float.of_decimal false 1000 0.

(** The [try] block that derives [date_iso] from [eventTime]; any exception
    leaves [None]. *)
Definition date_iso_of (event_time : json) : option string :=
  try_except
    (event_time <-
       match event_time with
       | JStr s =>
           if Py.isdigit s
           then (n <- Py.int_of_string s ;; Ok (JInt n))
           else Ok event_time
       | _ => Ok event_time
       end ;;
     match event_time with
     | JInt _ | JFloat _ | JBool _ =>
         n <- Py.int event_time ;;
         x <- Float.of_Z n ;;
         match utc_isoformat P (Float.div x f1000) with
         | Some iso => Ok (Some (Str.replace "+00:00" "Z" iso))
         | None => Raise ValueError
         end
     | _ => Ok None
     end)
    None.

(** [d or ""] for an optional string. *)
Definition or_empty (d : option string) : string :=
  match d with
  | Some s => s
  | None => ""
  end.

Definition build_item_skeleton_from_api (event_node : json) : result item :=
  h <- Py.get event_node "homeTeamName" ;;
  let home := Py.str P (Py.or_ h (JStr "")) in
  a <- Py.get event_node "awayTeamName" ;;
  let away := Py.str P (Py.or_ a (JStr "")) in
  event_time <- Py.get event_node "eventTime" ;;
  let date_iso := date_iso_of event_time in
  l <- Py.get event_node "leagueName" ;;
  let league := Py.str P (Py.or_ l (JStr "")) in
  su <- Py.get event_node "sportUrl" ;;
  let sport_slug := Py.str P (Py.or_ su (JStr "soccer")) in
  r <- Py.get event_node "regionUrl" ;;
  let region := Py.str P (Py.or_ r (JStr "")) in
  lu <- Py.get event_node "leagueUrl" ;;
  let league_url := Py.str P (Py.or_ lu (JStr "")) in
  eu <- Py.get event_node "eventUrl" ;;
  let event_url := Py.str P (Py.or_ eu (JStr "")) in
  let pretty_url :=
    if Str.nonempty event_url
    then "https://2up.io/pt/sports/" ++ sport_slug ++ "/" ++ region ++ "/"
           ++ league_url ++ "/" ++ event_url
    else "" in
  ei <- Py.get event_node "eventId" ;;
  let event_id_str := Py.str P (Py.or_ ei (JStr "")) in
  let match_id :=
    if Str.nonempty event_id_str
    then sha_id event_id_str
    else compute_match_id home away date_iso in
  Ok {| item_id := match_id;
        item_home := home;
        item_away := away;
        item_date := or_empty date_iso;
        item_sport := ("Football", "soccer");
        item_league :=
          (league,
           if Str.nonempty league then Str.replace " " "-" (Str.lower league) else "");
        item_urls := pretty_url;
        item_bookmakers := [];
        item_status := "pending" |}.

(** ** [extract_markets_from_api] *)

(** [dec = s.get("trueOdds") or (s.get("displayOdds") or {}).get("Decimal")]
    then [price = format_decimal_str(dec)]. *)
Definition selection_price (s : json) : result (option string) :=
  t <- Py.get s "trueOdds" ;;
  dec <- (if Py.truthy t then Ok t
          else (d <- Py.get s "displayOdds" ;;
                Py.get (Py.or_ d (JDict [])) "Decimal")) ;;
  Ok (format_decimal_str dec).

(** The three legs collected by the moneyline loop. *)
Record ml_legs : Type :=
  { home_p : option string; draw_p : option string; away_p : option string }.

Fixpoint ml_selections (selections : list json) (legs : ml_legs) : result ml_legs :=
  match selections with
  | [] => Ok legs
  | s :: rest =>
      o <- Py.get s "outcomeType" ;;
      let outcome := lower_str o in
      price <- selection_price s ;;
      if negb (priced price) then ml_selections rest legs
      else if String.eqb outcome "home"
      then ml_selections rest
             {| home_p := price; draw_p := draw_p legs; away_p := away_p legs |}
      else if String.eqb outcome "tie" || String.eqb outcome "draw"
      then ml_selections rest
             {| home_p := home_p legs; draw_p := price; away_p := away_p legs |}
      else if String.eqb outcome "away"
      then ml_selections rest
             {| home_p := home_p legs; draw_p := draw_p legs; away_p := price |}
      else ml_selections rest legs
  end.

(** The guarded conversion of [points] in the totals loop; [None] stands
    for [continue]. *)
Definition totals_points (points : json) : option float :=
  match points with
  | JStr s => to_option (Float.of_string (Str.replace "," "." s))
  | JInt _ | JFloat _ | JBool _ => to_option (Py.float_of points)
  | _ => None
  end.

(** The same in the handicap loop, which also folds the unicode minus. *)
Definition handicap_points (points : json) : option float :=
  match points with
  | JStr s =>
      to_option
        (Float.of_string (Str.replace unicode_minus "-" (Str.replace "," "." s)))
  | JInt _ | JFloat _ | JBool _ => to_option (Py.float_of points)
  | _ => None
  end.

Definition set_over (price : option string) (r : totals_line) : totals_line :=
  {| t_hdp := t_hdp r; t_over := price; t_under := t_under r |}.
Definition set_under (price : option string) (r : totals_line) : totals_line :=
  {| t_hdp := t_hdp r; t_over := t_over r; t_under := price |}.

Fixpoint totals_selections (selections : list json) (totals_lines : FDict.t totals_line)
  : result (FDict.t totals_line) :=
  match selections with
  | [] => Ok totals_lines
  | s :: rest =>
      o <- Py.get s "outcomeType" ;;
      n <- Py.get s "name" ;;
      let ou := lower_str (Py.or_ o n) in
      pts <- Py.get s "points" ;;
      match totals_points pts with
      | None => totals_selections rest totals_lines
      | Some points =>
          price <- selection_price s ;;
          if negb (priced price) then totals_selections rest totals_lines
          else
            totals_selections rest
              (FDict.upsert points
                 {| t_hdp := points; t_over := None; t_under := None |}
                 (if Str.contains "over" ou then set_over price
                  else if Str.contains "under" ou then set_under price
                  else fun r => r)
                 totals_lines)
      end
  end.

(** The four variables of the handicap loop. *)
Record hc_legs : Type := {
  home_pts : option float; home_price : option string;
  away_pts : option float; away_price : option string
}.

Fixpoint handicap_selections (selections : list json) (legs : hc_legs) : result hc_legs :=
  match selections with
  | [] => Ok legs
  | s :: rest =>
      o <- Py.get s "outcomeType" ;;
      let outcome := lower_str o in
      pts <- Py.get s "points" ;;
      match handicap_points pts with
      | None => handicap_selections rest legs
      | Some points =>
          price <- selection_price s ;;
          if negb (priced price) then handicap_selections rest legs
          else if String.eqb outcome "home"
          then handicap_selections rest
                 {| home_pts := Some points; home_price := price;
                    away_pts := away_pts legs; away_price := away_price legs |}
          else if String.eqb outcome "away"
          then handicap_selections rest
                 {| home_pts := home_pts legs; home_price := home_price legs;
                    away_pts := Some points; away_price := price |}
          else handicap_selections rest legs
      end
  end.

(** The variables the loop over [all_markets] updates. *)
Record acc : Type := {
  markets_out : list market;
  ml_done : bool;
  totals_lines : FDict.t totals_line;
  handicap_lines : FDict.t handicap_line
}.

Definition is_ML (m : market) : bool := String.eqb (m_name m) "ML".

Definition ml_block (now_iso h d a : string) : market :=
  {| m_name := "ML"; m_updatedAt := now_iso;
     m_odds := OddsML [ {| ml_home := h; ml_draw := d; ml_away := a |} ] |}.

(** The test on a market's lower-cased [name] and [marketTypeId] that sets
    [is_1x2_main] and, with it, [is_main_confirmed]. *)
Definition main_1x2 (name mtid : string) : bool :=
  (String.eqb name "ft 1x2" || String.eqb mtid "ml0")
  && negb (Str.contains "double" name) && negb (Str.contains "chance" name).

(** One iteration of [for m in all_markets]. *)
Definition market_step (now_iso : string) (a : acc) (m : json) : result acc :=
  n <- Py.get m "name" ;;
  let name := lower_str n in
  t <- Py.get m "marketTypeId" ;;
  let mtid := lower_str t in
  sel <- Py.get m "selections" ;;
  let selections := Py.or_ sel (JList []) in
  let is_1x2_main := main_1x2 name mtid in
  let is_main_confirmed := main_1x2 name mtid in
  if negb (ml_done a) && is_1x2_main then
    ss <- Py.iter selections ;;
    legs <- ml_selections ss {| home_p := None; draw_p := None; away_p := None |} ;;
    match home_p legs, draw_p legs, away_p legs with
    | Some h, Some d, Some w =>
        if Str.nonempty h && Str.nonempty d && Str.nonempty w then
          let existing_ml := List.find is_ML (markets_out a) in
          if is_main_confirmed || negb (bool_decide (is_Some existing_ml)) then
            let kept :=
              if bool_decide (is_Some existing_ml)
              then List.filter (fun m => negb (is_ML m)) (markets_out a)
              else markets_out a in
            Ok {| markets_out := (kept ++ [ml_block now_iso h d w])%list;
                  ml_done := true;
                  totals_lines := totals_lines a;
                  handicap_lines := handicap_lines a |}
          else Ok a
        else Ok a
    | _, _, _ => Ok a
    end
  else if String.eqb name "ft o/u" || String.eqb mtid "ou0" then
    ss <- Py.iter selections ;;
    lines <- totals_selections ss (totals_lines a) ;;
    Ok {| markets_out := markets_out a; ml_done := ml_done a;
          totals_lines := lines; handicap_lines := handicap_lines a |}
  else if String.eqb name "ft asian handicap" || String.eqb mtid "hc0" then
    ss <- Py.iter selections ;;
    legs <- handicap_selections ss
              {| home_pts := None; home_price := None;
                 away_pts := None; away_price := None |} ;;
    match home_pts legs, away_pts legs, home_price legs, away_price legs with
    | Some hp, Some _, Some h, Some w =>
        if Str.nonempty h && Str.nonempty w then
          Ok {| markets_out := markets_out a; ml_done := ml_done a;
                totals_lines := totals_lines a;
                handicap_lines :=
                  FDict.set hp {| h_hdp := hp; h_home := h; h_away := w |}
                            (handicap_lines a) |}
        else Ok a
    | _, _, _, _ => Ok a
    end
  else Ok a.

Fixpoint markets_loop (now_iso : string) (all_markets : list json) (a : acc) : result acc :=
  match all_markets with
  | [] => Ok a
  | m :: rest => a' <- market_step now_iso a m ;; markets_loop now_iso rest a'
  end.

(** The lines of [totals_lines] with both legs priced. *)
Definition totals_out (lines : FDict.t totals_line) : list totals_line :=
  List.filter (fun v => priced (t_over v) && priced (t_under v)) (FDict.values lines).

(** The blocks appended after the loop. *)
Definition emit (now_iso : string) (a : acc) : list market :=
  let out := markets_out a in
  let out :=
    match totals_out (totals_lines a) with
    | [] => out
    | tl =>
        (out ++ [ {| m_name := "Totals"; m_updatedAt := now_iso;
                     m_odds := OddsTotals (Sort.sort t_hdp tl) |} ])%list
    end in
  match handicap_lines a with
  | [] => out
  | hl =>
      (out ++ [ {| m_name := "Handicap"; m_updatedAt := now_iso;
                   m_odds := OddsHandicap (Sort.sort h_hdp (FDict.values hl)) |} ])%list
  end.

Definition acc0 : acc :=
  {| markets_out := []; ml_done := false; totals_lines := []; handicap_lines := [] |}.

(** [now_iso] is the clock reading taken on entry. The per-fixture summary
    line the function logs sits in its own [try]/[except] and changes
    nothing. *)
Definition extract_markets_from_api (now_iso : string) (event_node : json)
  : result (list market) :=
  mk <- Py.get event_node "markets" ;;
  all_markets <- Py.iter (Py.or_ mk (JList [])) ;;
  a <- markets_loop now_iso all_markets acc0 ;;
  Ok (emit now_iso a).

End Normalizer.

(* ===================================================================== *)
(** * [scrape_api_only]: the window and page loop *)
(* ===================================================================== *)

(** The varying fields of the POST payload; the others are the constants
    [isLive = 0], [pageType = 5], [sportUrl = "soccer"], [regionUrl = ""],
    [leagueUrl = ""]. *)
Record request : Type :=
  { startTime : Z; endTime : Z; pageSize : Z; pageNum : Z }.

(** What one [session.post] gives: an exception once the transport's own
    retries are spent, or a response with its status code and its body as
    [resp.json()] decodes it ([None] when decoding fails). *)
Inductive response : Type :=
| PostFailed
| Response (status_code : Z) (body : option json).

(** The world outside the process: the answer to the [n]-th request of the
    run, the wall clock read on entry ([now_ms]) and at the [n]-th call of
    [extract_markets_from_api]. Session headers are constant during a run
    and so are part of [post]. *)
Record upstream : Type := {
  post : nat -> request -> response;
  now_ms : Z;
  now_iso : nat -> string
}.

(** The arguments of [scrape_api_only]. [output_path], [cookies], [x_sign],
    [x_ts] and [verbose] reach only the output file, the session headers
    and the console. *)
Record args : Type := {
  output_path : string;
  max_matches : option Z;
  hours_ahead : Z;
  page_size : Z;
  page_num_start : Z;
  cookies : string;
  x_sign : string;
  x_ts : string;
  verbose : bool;
  exhaust : bool
}.

(** The local variables of the two nested loops, with two counters that
    index the upstream: requests sent and fixtures normalized so far. *)
Record cursor : Type := {
  start_ms : Z;
  end_ms : Z;
  page : Z;
  got_any_in_window : bool;
  results : list item;
  seen_event_ids : gset string;
  n_posts : nat;
  n_extracts : nat
}.

(** The next thing the loops do after one page. *)
Inductive step : Type :=
| NextRequest (c : cursor)
| Return (results : list item).

(** How a run stands after a bounded number of requests. *)
Inductive outcome : Type :=
| Returned (results : list item)
| Raised (e : exn)
| Running (c : cursor).

(** [n / 1000] for an int [n]: true division, the quotient rounded once to
    the nearest double; [OverflowError] when it lies beyond the largest. *)
Definition div_1000 (n : Z) : result float :=
  match Float.of_decimal (n <? 0) (Z.abs n) (-3) with
  | S754_infinity _ => Raise OverflowError
  | x => Ok x
  end.

Section Scraper.
Context (P : platform) (U : upstream) (a : args).

Definition window_ms : Z := hours_ahead a * 3600 * 1000.

(** [datetime.fromtimestamp(t_ms / 1000, tz=timezone.utc).isoformat()
    .replace("+00:00", "Z")], the text of a window bound in the log line.
    Where [fromtimestamp] raises (a year past 9999, or before 1) the model
    raises [ValueError], which stands for the class the platform picks. *)
Definition window_label (t_ms : Z) : result string :=
  x <- div_1000 t_ms ;;
  match utc_isoformat P x with
  | Some iso => Ok (Str.replace "+00:00" "Z" iso)
  | None => Raise ValueError
  end.

(** The head of an iteration of the outer [while]: [human_start] and
    [human_end] are computed, outside any handler, before the first page
    of the window is requested. *)
Definition open_window (c : cursor) : result cursor :=
  human_start <- window_label (start_ms c) ;;
  human_end <- window_label (end_ms c) ;;
  Ok c.

Definition payload (c : cursor) : request :=
  {| startTime := start_ms c; endTime := end_ms c;
     pageSize := page_size a; pageNum := page c |}.

(** [str(ev.get("eventId") or "")] *)
Definition event_id (ev : json) : result string :=
  e <- Py.get ev "eventId" ;;
  Ok (Py.str P (Py.or_ e (JStr ""))).

(** [for ev in items: ...] *)
Fixpoint collect (items : list json) (c : cursor) : result cursor :=
  match items with
  | [] => Ok c
  | ev :: rest =>
      ev_id <- event_id ev ;;
      if Str.nonempty ev_id && bool_decide (ev_id ∈ seen_event_ids c)
      then collect rest c
      else
        it <- build_item_skeleton_from_api P ev ;;
        markets <- extract_markets_from_api P (now_iso U (n_extracts c)) ev ;;
        let it :=
          match markets with
          | [] => it
          | _ => set_bookmakers it markets
          end in
        collect rest
          {| start_ms := start_ms c; end_ms := end_ms c; page := page c;
             got_any_in_window := true;
             results := (results c ++ [it])%list;
             seen_event_ids :=
               if Str.nonempty ev_id
               then {[ ev_id ]} ∪ seen_event_ids c
               else seen_event_ids c;
             n_posts := n_posts c;
             n_extracts := S (n_extracts c) |}
  end.

(** After the inner [while]: stop the run, or advance the window. *)
Definition end_of_window (c : cursor) : step :=
  if negb (got_any_in_window c) then Return (results c)
  else
    let start := end_ms c + 1 in
    NextRequest
      {| start_ms := start; end_ms := start + window_ms;
         page := page_num_start a; got_any_in_window := false;
         results := results c; seen_event_ids := seen_event_ids c;
         n_posts := n_posts c; n_extracts := n_extracts c |}.

Definition next_page (c : cursor) : cursor :=
  {| start_ms := start_ms c; end_ms := end_ms c; page := page c + 1;
     got_any_in_window := got_any_in_window c;
     results := results c; seen_event_ids := seen_event_ids c;
     n_posts := n_posts c; n_extracts := n_extracts c |}.

Definition sent (c : cursor) : cursor :=
  {| start_ms := start_ms c; end_ms := end_ms c; page := page c;
     got_any_in_window := got_any_in_window c;
     results := results c; seen_event_ids := seen_event_ids c;
     n_posts := S (n_posts c); n_extracts := n_extracts c |}.

(** The checks on a response, up to [data = resp.json()] accepted. *)
Definition accept (r : response) : result json :=
  match r with
  | PostFailed => Raise RequestException
  | Response status_code body =>
      if negb (status_code =? 200)
      then Raise (RuntimeError ("API status " ++ Str.of_Z status_code))
      else
        match body with
        | None => Raise JSONDecodeError
        | Some data =>
            match data with
            | JDict _ =>
                code <- Py.get data "code" ;;
                if negb (String.eqb (Py.str P code) "200")
                then Raise (RuntimeError "API envelope error")
                else Ok data
            | _ => Raise (RuntimeError "API envelope error")
            end
        end
  end.

(** The [break] of the inner loop: the end of the outer iteration and,
    when the run goes on, the head of the next one. *)
Definition close_window (c : cursor) : result step :=
  match end_of_window c with
  | NextRequest c' => c' <- open_window c' ;; Ok (NextRequest c')
  | Return r => Ok (Return r)
  end.

(** One iteration of the inner [while True], followed, when it breaks, by
    what leads to the next request. *)
Definition page_step (c : cursor) : result step :=
  data <- accept (post U (n_posts c) (payload c)) ;;
  let c := sent c in
  d <- Py.get data "data" ;;
  let d := Py.or_ d (JDict []) in
  its <- Py.get d "items" ;;
  let items := Py.or_ its (JList []) in
  if negb (Py.truthy items) then close_window c
  else
    evs <- Py.iter items ;;
    c <- collect evs c ;;
    tp <- Py.get d "totalPages" ;;
    total_pages <- Py.int (Py.or_ tp (JInt 1)) ;;
    pg <- Py.get d "page" ;;
    page_now <- Py.int (Py.or_ pg (JInt (page c))) ;;
    if page_now >=? total_pages then close_window c
    else Ok (NextRequest (next_page c)).

(** The loops, cut after [fuel] requests, with the requests sent. *)
Fixpoint run (fuel : nat) (c : cursor) : outcome * list request :=
  match fuel with
  | O => (Running c, [])
  | S fuel' =>
      match page_step c with
      | Raise e => (Raised e, [payload c])
      | Ok (Return r) => (Returned r, [payload c])
      | Ok (NextRequest c') =>
          let (o, log) := run fuel' c' in (o, payload c :: log)
      end
  end.

Definition cursor0 : cursor :=
  {| start_ms := now_ms U; end_ms := now_ms U + window_ms;
     page := page_num_start a; got_any_in_window := false;
     results := []; seen_event_ids := ∅; n_posts := O; n_extracts := O |}.

End Scraper.

(** [scrape_api_only(output_path, max_matches, hours_ahead, page_size,
    page_num_start, cookies, x_sign, x_ts, verbose, exhaust)], observed
    after at most [fuel] requests. The head of the first window comes
    before any request. *)
Definition scrape_api_only (P : platform) (U : upstream) (fuel : nat) (a : args)
  : outcome * list request :=
  match open_window P (cursor0 U a) with
  | Ok c => run P U a fuel c
  | Raise e => (Raised e, [])
  end.

(* ===================================================================== *)
(** * [build_headers] *)
(* ===================================================================== *)

(** A [Dict[str, str]]: its items in insertion order, one per key. *)
Module SDict.

Definition t : Type := list (string * string).

(** [d.get(k)] *)
Fixpoint get (k : string) (d : t) : option string :=
  match d with
  | [] => None
  | (k', v) :: d' => if String.eqb k' k then Some v else get k d'
  end.

(** [d[k] = v]: an existing key keeps its place, a new one goes last. *)
Fixpoint set (k v : string) (d : t) : t :=
  match d with
  | [] => [(k, v)]
  | (k', v') :: d' =>
      if String.eqb k' k then (k', v) :: d' else (k', v') :: set k v d'
  end.

Definition keys (d : t) : list string := map fst d.

End SDict.

(** The three module constants read from the environment at import time,
    [os.getenv("TWOUP_COOKIES", "")] and its two siblings. *)
Record environ : Type := {
  HARDCODE_COOKIES : string;
  HARDCODE_SIGN : string;
  HARDCODE_TS : string
}.

Definition REFERER_URL : string :=
  "https://2up.io/pt/sports/home?section=upcoming&sport=soccer".

(** The double quote, for the two header values that contain it. *)
Definition dq : string := String (ascii_of_nat 34) EmptyString.

(** The dict literal of [build_headers]. *)
Definition browser_headers : SDict.t :=
  [ ("Accept", "application/json, text/plain, */*");
    ("Accept-Encoding", "gzip, deflate, br, zstd");
    ("Accept-Language", "pt-PT,pt;q=0.9,en;q=0.8");
    ("Cache-Control", "no-store, no-cache, must-revalidate, max-age=0");
    ("Content-Type", "application/json");
    ("Lang", "pt");
    ("Odds", "Decimal");
    ("Origin", "https://2up.io");
    ("Priority", "u=1, i");
    ("Referer", REFERER_URL);
    ("Sec-Ch-Ua",
       dq ++ "Chromium" ++ dq ++ ";v=" ++ dq ++ "142" ++ dq ++ ", "
       ++ dq ++ "Google Chrome" ++ dq ++ ";v=" ++ dq ++ "142" ++ dq ++ ", "
       ++ dq ++ "Not A Brand" ++ dq ++ ";v=" ++ dq ++ "99" ++ dq);
    ("Sec-Ch-Ua-Mobile", "?0");
    ("Sec-Ch-Ua-Platform", dq ++ "Windows" ++ dq);
    ("Sec-Fetch-Dest", "empty");
    ("Sec-Fetch-Mode", "cors");
    ("Sec-Fetch-Site", "same-origin");
    ("Socketclientid", "a1a51a18-d1de-44d1-8a36-ff739020987d");
    ("User-Agent",
       "Mozilla/5.0 (Windows NT 10.0; Win64; x64) AppleWebKit/537.36 (KHTML, like Gecko) Chrome/142.0.0.0 Safari/537.36");
    ("Zoneoffset", "0") ].

Section Headers.
Context (E : environ).

(** [if not arg and HARDCODE: arg = HARDCODE] *)
Definition or_hardcoded (arg hardcoded : string) : string :=
  if negb (Str.nonempty arg) && Str.nonempty hardcoded then hardcoded else arg.

Definition build_headers (cookies x_sign x_ts : string) : SDict.t :=
  let cookies := or_hardcoded cookies (HARDCODE_COOKIES E) in
  let x_sign := or_hardcoded x_sign (HARDCODE_SIGN E) in
  let x_ts := or_hardcoded x_ts (HARDCODE_TS E) in
  let headers := browser_headers in
  let headers :=
    if Str.nonempty cookies then SDict.set "Cookie" cookies headers else headers in
  let headers :=
    if Str.nonempty x_sign then SDict.set "X-Request-Sign" x_sign headers else headers in
  let headers :=
    if Str.nonempty x_ts then SDict.set "X-Request-Timestamp" x_ts headers else headers in
  headers.

End Headers.

(* ===================================================================== *)
(** * [scrape_api_only]: where the results are written *)
(* ===================================================================== *)

(** What the file system gives the module: [os.path.isabs], and the string
    of [DEFAULT_OUTPUT_DIR / "2up_output_data.json"]. *)
Record filesystem : Type := {
  isabs : string -> bool;
  default_output_file : string
}.

(** The path [scrape_api_only] opens for writing, after
    [if not os.path.isabs(output_path): output_path = str(DEFAULT_OUTPUT_DIR / ...)]. *)
Definition written_path (F : filesystem) (output_path : string) : string :=
  if negb (isabs F output_path) then default_output_file F else output_path.

(* ===================================================================== *)
(** * [main] *)
(* ===================================================================== *)

(** How one call of [scrape_api_only] ends, as [main] sees it: it returns,
    it raises an [Exception], or a [KeyboardInterrupt] arrives during it. *)
Inductive attempt : Type :=
| Completed
| Failed (e : exn)
| Interrupted.

(** What [parse_args] makes of the command line: the value of [--out]
    ([None] without the option), or [SystemExit] with the status argparse
    gives, 2 for an argument it rejects and 0 after [--help]. *)
Inductive command_line : Type :=
| Parsed (out : option string)
| Usage (code : Z).

(** The surroundings of [main]: the command line, whether
    [DEFAULT_OUTPUT_DIR.mkdir] raises, how the [n]-th call of
    [scrape_api_only] ends, and whether a [KeyboardInterrupt] arrives
    during the [n]-th [time.sleep]. An interrupt is taken to arrive during
    a run or a sleep, where the process spends its time, and [print] to
    succeed. *)
Record console : Type := {
  argv : command_line;
  mkdir_fails : bool;
  attempt_end : nat -> attempt;
  sleep_interrupted : nat -> bool
}.

(** The loop variable of [main], with the sleeps counted and the seconds
    slept added up. *)
Record main_state : Type := {
  loop_count : nat;
  n_sleeps : nat;
  slept : Z
}.

(** How [main] stands after a bounded number of iterations. [sys.exit(0)]
    and argparse raise [SystemExit]; a [KeyboardInterrupt] outside the
    [try] body, and the [OSError] of [mkdir], are caught by nothing. *)
Inductive main_end : Type :=
| SystemExit (code : Z)
| UncaughtKeyboardInterrupt
| UncaughtOSError
| Looping (st : main_state).

Section Main.
Context (F : filesystem) (W : console).

(** [output_path = args.out], replaced by the default file when [None]. *)
Definition main_output_path (out : option string) : string :=
  match out with
  | Some p => p
  | None => default_output_file F
  end.

(** [time.sleep(secs)] *)
Definition sleep (secs : Z) (st : main_state) : option main_state :=
  if sleep_interrupted W (n_sleeps st) then None
  else Some {| loop_count := loop_count st; n_sleeps := S (n_sleeps st);
               slept := slept st + secs |}.

(** The end of an iteration: [wait_time = 60; time.sleep(wait_time)]. *)
Definition wait_next (st : main_state) : main_end :=
  match sleep 60 st with
  | Some st' => Looping st'
  | None => UncaughtKeyboardInterrupt
  end.

(** One iteration of [while True]. *)
Definition main_iteration (st : main_state) : main_end :=
  let st := {| loop_count := S (loop_count st); n_sleeps := n_sleeps st;
               slept := slept st |} in
  match attempt_end W (loop_count st) with
  | Completed => wait_next st
  | Interrupted => SystemExit 0
  | Failed _ =>
      match sleep 30 st with
      | Some st' => wait_next st'
      | None => UncaughtKeyboardInterrupt
      end
  end.

(** [while True], observed after at most [fuel] iterations. The attempts
    are numbered from 1, as [loop_count] numbers them. *)
Fixpoint main_loop (fuel : nat) (st : main_state) : main_end :=
  match fuel with
  | O => Looping st
  | S fuel' =>
      match main_iteration st with
      | Looping st' => main_loop fuel' st'
      | e => e
      end
  end.

(** [main()]: [args = parse_args()], then, when [args.out] is [None], the
    [mkdir] of the default directory, then the loop. *)
Definition main (fuel : nat) : main_end :=
  match argv W with
  | Usage code => SystemExit code
  | Parsed out =>
      if bool_decide (out = None) && mkdir_fails W then UncaughtOSError
      else main_loop fuel {| loop_count := O; n_sleeps := O; slept := 0 |}
  end.

End Main.

(* ===================================================================== *)
(** * Notions used in the statements *)
(* ===================================================================== *)

(** Splits a successful [x <- c ;; k] in hypothesis [H] into the value [x]
    of [c], with [Hx : c = Ok x], and the rest. *)
Ltac inv_bind H :=
  let x := fresh "x" in
  let Hx := fresh "Hx" in
  let H' := fresh in
  match type of H with
  | bind ?c ?k = Ok ?b =>
      assert (exists a, c = Ok a /\ k a = Ok b) as (x & Hx & H')
        by (destruct c; [eauto | discriminate H]);
      clear H; rename H' into H
  end.

(** Character-wise image of a string. *)
Fixpoint map_string (f : ascii -> ascii) (s : string) : string :=
  match s with
  | EmptyString => EmptyString
  | String c s' => String (f c) (map_string f s')
  end.

Definition comma_to_dot (c : ascii) : ascii :=
  if Ascii.eqb c "," then "."%char else c.

(** [y] does not start with the second or third byte of the unicode minus,
    so no occurrence of it can straddle the junction before [y]. *)
Definition not_continuation (y : string) : Prop :=
  match y with
  | EmptyString => True
  | String c _ => c <> "136"%char /\ c <> "146"%char
  end.

(** A price string as the module emits it: the [.3f] rendering of a float. *)
Definition is_price (p : string) : Prop := exists x : float, p = Float.format_3f x.

(** Every leg of every entry of a block is a price, and a totals line has
    both of its legs. *)
Definition odds_priced (o : odds) : Prop :=
  match o with
  | OddsML l =>
      Forall (fun e => is_price (ml_home e) /\ is_price (ml_draw e) /\ is_price (ml_away e)) l
  | OddsTotals l =>
      Forall (fun r => exists po pu, t_over r = Some po /\ t_under r = Some pu
                                     /\ is_price po /\ is_price pu) l
  | OddsHandicap l =>
      Forall (fun r => is_price (h_home r) /\ is_price (h_away r)) l
  end.

(** The loop variables hold prices only. *)
Definition line_priced (r : totals_line) : Prop :=
  (forall p, t_over r = Some p -> is_price p) /\
  (forall p, t_under r = Some p -> is_price p).

Definition hline_priced (r : handicap_line) : Prop :=
  is_price (h_home r) /\ is_price (h_away r).

Definition acc_priced (a : acc) : Prop :=
  Forall (fun b => odds_priced (m_odds b)) (markets_out a) /\
  Forall (fun kv => line_priced (snd kv)) (totals_lines a) /\
  Forall (fun kv => hline_priced (snd kv)) (handicap_lines a).

Section Notions.
Context (P : platform).

Definition no_legs : ml_legs := {| home_p := None; draw_p := None; away_p := None |}.

(** The lower-cased [outcomeType] of a selection. *)
Definition outcome_of (s : json) : result string :=
  o <- Py.get s "outcomeType" ;; Ok (lower_str P o).

(** Among [ss], a selection of outcome [o] carries the valid price [p]. *)
Definition leg_from (ss : list json) (o p : string) : Prop :=
  exists s, In s ss /\ outcome_of s = Ok o /\ selection_price s = Ok (Some p).

(** The markets of a fixture and the selections of a market, as the loops
    iterate over them. *)
Definition markets_of (event_node : json) : result (list json) :=
  mk <- Py.get event_node "markets" ;; Py.iter (Py.or_ mk (JList [])).

Definition selections_of (m : json) : result (list json) :=
  sel <- Py.get m "selections" ;; Py.iter (Py.or_ sel (JList [])).

(** The market is a confirmed-primary moneyline: exact name or exact type
    code, and no "double" or "chance" in the name. *)
Definition confirmed_primary (m : json) : bool :=
  match Py.get m "name", Py.get m "marketTypeId" with
  | Ok n, Ok t => main_1x2 (lower_str P n) (lower_str P t)
  | _, _ => false
  end.

(** What the moneyline branch makes of one market taken alone: its three
    legs when it is a confirmed primary and all three are priced. *)
Definition ml_of_market (m : json) : result (option ml_odds) :=
  if confirmed_primary m then
    ss <- selections_of m ;;
    legs <- ml_selections P ss no_legs ;;
    match home_p legs, draw_p legs, away_p legs with
    | Some h, Some d, Some w =>
        if Str.nonempty h && Str.nonempty d && Str.nonempty w
        then Ok (Some {| ml_home := h; ml_draw := d; ml_away := w |})
        else Ok None
    | _, _, _ => Ok None
    end
  else Ok None.

(** The first market of the list that yields a moneyline. *)
Fixpoint first_ml (ms : list json) : option ml_odds :=
  match ms with
  | [] => None
  | m :: rest =>
      match ml_of_market m with
      | Ok (Some o) => Some o
      | _ => first_ml rest
      end
  end.

Definition ml_blocks (now_iso : string) (o : option ml_odds) : list market :=
  match o with
  | Some o => [ml_block now_iso (ml_home o) (ml_draw o) (ml_away o)]
  | None => []
  end.

(** Container shapes only: a dict where the code calls [.get], a list (or
    a falsy value) where it iterates. Nothing is asked of [trueOdds],
    [Decimal], [points] or [eventTime]. *)
Definition is_dict (v : json) : bool :=
  match v with
  | JDict _ => true
  | _ => false
  end.

Definition field (v : json) (k : string) : json :=
  match v with
  | JDict kv => match Py.assoc k kv with Some x => x | None => JNull end
  | _ => JNull
  end.

Definition list_or_falsy (v : json) : option (list json) :=
  match Py.or_ v (JList []) with
  | JList l => Some l
  | _ => None
  end.

Definition selection_shaped (s : json) : bool :=
  is_dict s &&
  (negb (Py.truthy (field s "displayOdds")) || is_dict (field s "displayOdds")).

Definition market_shaped (m : json) : bool :=
  is_dict m &&
  match list_or_falsy (field m "selections") with
  | Some ss => forallb selection_shaped ss
  | None => false
  end.

Definition event_shaped (ev : json) : bool :=
  is_dict ev &&
  match list_or_falsy (field ev "markets") with
  | Some ms => forallb market_shaped ms
  | None => false
  end.

End Notions.

Section RunNotions.
Context (P : platform) (U : upstream).

(** [items = ((data.get("data") or {}).get("items")) or []] *)
Definition items_of (data : json) : result json :=
  d <- Py.get data "data" ;;
  its <- Py.get (Py.or_ d (JDict [])) "items" ;;
  Ok (Py.or_ its (JList [])).

(** [page_now] and [total_pages] as the loop reads them on page [page]. *)
Definition page_now_of (data : json) (page : Z) : result Z :=
  d <- Py.get data "data" ;;
  pg <- Py.get (Py.or_ d (JDict [])) "page" ;;
  Py.int (Py.or_ pg (JInt page)).

Definition total_pages_of (data : json) : result Z :=
  d <- Py.get data "data" ;;
  tp <- Py.get (Py.or_ d (JDict [])) "totalPages" ;;
  Py.int (Py.or_ tp (JInt 1)).

(** The response passes the three checks of the loop: status 200, a body
    that decodes, an envelope that is a dict whose [code] prints as 200. *)
Definition good_response (r : response) : bool :=
  match r with
  | PostFailed => false
  | Response status_code body =>
      (status_code =? 200) &&
      match body with
      | Some data => is_dict data && String.eqb (Py.str P (field data "code")) "200"
      | None => false
      end
  end.

(** The record appended for the raw fixture [ev]. *)
Definition built_from (it : item) (ev : json) : Prop :=
  exists (n : nat) (it0 : item) (ms : list market),
    build_item_skeleton_from_api P ev = Ok it0 /\
    extract_markets_from_api P (now_iso U n) ev = Ok ms /\
    it = match ms with [] => it0 | _ => set_bookmakers it0 ms end.

(** The non-empty upstream event ids of a list of raw fixtures. *)
Definition event_ids (evs : list json) : list string :=
  flat_map (fun ev => match event_id P ev with
                      | Ok s => if Str.nonempty s then [s] else []
                      | Raise _ => []
                      end) evs.

(** The records come, one for one, from raw fixtures no two of which share
    an upstream event id. *)
Definition distinct_events (r : list item) : Prop :=
  exists evs, Forall2 built_from r evs /\ NoDup (event_ids evs).

(** The same, with [seen_event_ids] holding exactly those ids. *)
Definition cursor_inv (c : cursor) : Prop :=
  exists evs, Forall2 built_from (results c) evs /\ NoDup (event_ids evs) /\
              forall s, s ∈ seen_event_ids c <-> In s (event_ids evs).

End RunNotions.

(** The arguments [a] with other values for [max_matches] and [exhaust]. *)
Definition with_limits (a : args) (m : option Z) (e : bool) : args :=
  {| output_path := output_path a; max_matches := m;
     hours_ahead := hours_ahead a; page_size := page_size a;
     page_num_start := page_num_start a; cookies := cookies a;
     x_sign := x_sign a; x_ts := x_ts a; verbose := verbose a; exhaust := e |}.

(** The arguments [a] with another value for [hours_ahead]. *)
Definition with_hours (a : args) (h : Z) : args :=
  {| output_path := output_path a; max_matches := max_matches a;
     hours_ahead := h; page_size := page_size a;
     page_num_start := page_num_start a; cookies := cookies a;
     x_sign := x_sign a; x_ts := x_ts a; verbose := verbose a; exhaust := exhaust a |}.

(** The first request of the window after the one [c] is in. *)
Definition next_window (a : args) (c : cursor) : cursor :=
  {| start_ms := end_ms c + 1; end_ms := end_ms c + 1 + window_ms a;
     page := page_num_start a; got_any_in_window := false;
     results := results c; seen_event_ids := seen_event_ids c;
     n_posts := n_posts c; n_extracts := n_extracts c |}.

(* ===================================================================== *)
(** * Sample inputs *)
(* ===================================================================== *)

Module Sample.

(** A platform for running the samples; none of them reaches [repr]. *)
Definition platform0 : platform :=
  {| float_repr := fun _ => "0.0";
     str_repr := fun s => s;
     utc_isoformat := fun _ => Some "2024-01-01T00:00:00+00:00" |}.

(** The float a JSON number literal decodes to. *)
Definition num (literal : string) : json :=
  match Float.of_string literal with
  | Ok x => JFloat x
  | Raise _ => JNull
  end.

Definition fl (literal : string) : float :=
  match Float.of_string literal with
  | Ok x => x
  | Raise _ => S754_nan
  end.

Definition sel (outcome : string) (odds : json) : json :=
  JDict [("outcomeType", JStr outcome); ("trueOdds", odds)].

Definition selp (outcome : string) (points odds : json) : json :=
  JDict [("outcomeType", JStr outcome); ("points", points); ("trueOdds", odds)].

Definition mkt (name : string) (selections : list json) : json :=
  JDict [("name", JStr name); ("selections", JList selections)].

Definition fixture (event_id : json) (markets : list json) : json :=
  JDict [("eventId", event_id); ("homeTeamName", JStr "Porto");
         ("awayTeamName", JStr "Braga"); ("eventTime", JStr "1704067200000");
         ("markets", JList markets)].

(** The two end-to-end examples of the specification. *)
Definition ml_market : json :=
  mkt "FT 1X2" [sel "home" (JStr "1,90"); sel "tie" (JStr "3.40"); sel "away" (num "4.10")].

Definition totals_market : json :=
  mkt "FT O/U" [selp "Over" (JStr "2.5") (num "1.85"); selp "Under" (num "2.5") (num "1.95")].


(** A confirmed primary without a draw leg. *)
Definition ml_market_no_draw : json :=
  mkt "FT 1X2" [sel "home" (JStr "1.90"); sel "away" (JStr "4.10")].


(** Prices that are zero or negative. *)
Definition ml_market_nonpositive : json :=
  mkt "FT 1X2" [sel "home" (JStr "-1.5"); sel "tie" (JStr "0"); sel "away" (num "-2.0")].

Definition totals_market_nonpositive : json :=
  mkt "FT O/U" [selp "Over" (JStr "2.5") (JStr "-1.85"); selp "Under" (JStr "2.5") (JStr "0.0")].

(** A selection whose price does not parse. *)
Definition sel_unparseable : json := sel "tie" (JStr "n/a").

Definition hc_market (home_pts away_pts : string) : json :=
  mkt "FT Asian Handicap"
      [selp "home" (JStr home_pts) (JStr "1.90"); selp "away" (JStr away_pts) (JStr "1.90")].

(** Three handicap markets, the second with the point string "nan". *)
Definition fixture_nan : json :=
  fixture (JInt 7) [hc_market "1.5" "-1.5"; hc_market "nan" "nan"; hc_market "0.5" "-0.5"].

(** An envelope with one page of fixtures. *)
Definition envelope (items : list json) (page total_pages : Z) : json :=
  JDict [("code", JInt 200);
         ("data", JDict [("items", JList items); ("page", JInt page);
                         ("totalPages", JInt total_pages)])].

Definition ok_page (items : list json) (page total_pages : Z) : response :=
  Response 200 (Some (envelope items page total_pages)).

Definition args0 : args :=
  {| output_path := "out.json"; max_matches := None; hours_ahead := 48;
     page_size := 50; page_num_start := 1; cookies := ""; x_sign := "";
     x_ts := ""; verbose := false; exhaust := true |}.

(** Fixture 1 twice on the first page, fixture 2 on the second page and
    again in the next window, then nothing. *)
Definition upstream_dup : upstream :=
  {| post := fun n _ =>
       match n with
       | 0%nat => ok_page [fixture (JInt 1) [ml_market]; fixture (JInt 1) [ml_market]] 1 2
       | 1%nat => ok_page [fixture (JInt 2) []] 2 2
       | 2%nat => ok_page [fixture (JInt 2) []] 1 1
       | _ => ok_page [] 1 1
       end;
     now_ms := 1704000000000;
     now_iso := fun _ => "2024-01-01T00:00:00Z" |}.

(** An upstream whose first window is empty. *)
Definition upstream_empty : upstream :=
  {| post := fun _ _ => ok_page [] 1 1;
     now_ms := 1704000000000;
     now_iso := fun _ => "2024-01-01T00:00:00Z" |}.

(** An upstream that answers the first request with status 403. *)
Definition upstream_forbidden : upstream :=
  {| post := fun _ _ => Response 403 None;
     now_ms := 1704000000000;
     now_iso := fun _ => "2024-01-01T00:00:00Z" |}.

End Sample.

(* ===================================================================== *)
(** * The order of floats *)
(* ===================================================================== *)

(** A rank in [Z * Z * Z], ordered lexicographically, that [<] and [==]
    follow on every float but NaN. *)
Definition float_rank (x : float) : Z * Z * Z :=
  match x with
  | S754_infinity true => (-2, 0, 0)
  | S754_finite true m e => (-1, - e, - Zpos m)
  | S754_zero _ => (0, 0, 0)
  | S754_nan => (0, 0, 0)
  | S754_finite false m e => (1, e, Zpos m)
  | S754_infinity false => (2, 0, 0)
  end.

Definition lex3 (p q : Z * Z * Z) : comparison :=
  match fst (fst p) ?= fst (fst q) with
  | Eq => match snd (fst p) ?= snd (fst q) with
          | Eq => snd p ?= snd q
          | c => c
          end
  | c => c
  end.

(** The entries stand in ascending order of [key]: none is less than one
    before it. *)
Definition ascending {A : Type} (key : A -> float) (l : list A) : Prop :=
  StronglySorted (fun x y => Float.ltb (key y) (key x) = false) l.

(** The accumulator of [Sort.sort] is descending: it is kept reversed. *)
Definition descending {A : Type} (key : A -> float) (l : list A) : Prop :=
  StronglySorted (fun x y => Float.ltb (key x) (key y) = false) l.

(** No two entries have equal ([==]) keys. *)
Definition distinct_keys {A : Type} (key : A -> float) (l : list A) : Prop :=
  ForallOrdPairs (fun x y => Float.eqb (key x) (key y) = false) l.

(** The key of a dict entry and the [hdp] stored under it are the same
    number: equal, or both NaN. *)
Definition same_point (k h : float) : Prop :=
  Float.eqb k h = true \/ (Float.is_nan k = true /\ Float.is_nan h = true).

(** A float-keyed dict as the loops keep it: distinct keys, each entry
    holding its key as [hdp]. *)
Definition keyed {V : Type} (hdp : V -> float) (d : FDict.t V) : Prop :=
  distinct_keys fst d /\ Forall (fun kv => same_point (fst kv) (hdp (snd kv))) d.

(* ===================================================================== *)
(** * Further notions *)
(* ===================================================================== *)

(** Every character is one of [0] to [9]. *)
Definition all_digits (s : string) : bool :=
  forallb Str.is_digit (list_ascii_of_string s).

(** Every byte is below 128: the string is ASCII text. *)
Definition is_ascii (s : string) : bool :=
  forallb (fun c => (nat_of_ascii c <? 128)%nat) (list_ascii_of_string s).

(** Fixed-point text with three decimals: an optional minus sign, one or
    more digits, a dot, three digits. *)
Definition fixed3 (p : string) : Prop :=
  exists (neg : bool) (ip fp : string),
    p = Float.sign_str neg ++ ip ++ "." ++ fp /\
    Str.nonempty ip = true /\ all_digits ip = true /\
    String.length fp = 3%nat /\ all_digits fp = true.

(** A lower-case hexadecimal digit, by its value. *)
Definition hex_char (c : ascii) : Prop := 0 <= hex_val c < 16.

(** A block as [extract_markets_from_api] builds it: stamped with the
    clock reading of the call, named after the kind of its odds, and not
    empty. *)
Definition block_ok (now_iso : string) (b : market) : Prop :=
  m_updatedAt b = now_iso /\
  match m_odds b with
  | OddsML l => m_name b = "ML" /\ length l = 1%nat
  | OddsTotals l => m_name b = "Totals" /\ l <> []
  | OddsHandicap l => m_name b = "Handicap" /\ l <> []
  end.

(** The tests that open the totals and the handicap branch. *)
Definition totals_test (name mtid : string) : bool :=
  String.eqb name "ft o/u" || String.eqb mtid "ou0".

Definition handicap_test (name mtid : string) : bool :=
  String.eqb name "ft asian handicap" || String.eqb mtid "hc0".

(** Each entry is less than ([<]) every later one. *)
Definition strictly_ascending {A : Type} (key : A -> float) (l : list A) : Prop :=
  StronglySorted (fun x y => Float.ltb (key x) (key y) = true) l.

Section Notions2.
Context (P : platform).

(** The lower-cased [name] and [marketTypeId] of a market. *)
Definition market_name (m : json) : result string :=
  n <- Py.get m "name" ;; Ok (lower_str P n).

Definition market_type (m : json) : result string :=
  t <- Py.get m "marketTypeId" ;; Ok (lower_str P t).

(** The market passes the test of one of the three branches. A value that
    is not a dict passes none and is not skipped either: the loop raises
    on it. *)
Definition routed (m : json) : bool :=
  match market_name m, market_type m with
  | Ok name, Ok mtid =>
      main_1x2 name mtid || totals_test name mtid || handicap_test name mtid
  | _, _ => true
  end.

Definition is_totals (m : json) : bool :=
  match market_name m, market_type m with
  | Ok name, Ok mtid => totals_test name mtid
  | _, _ => false
  end.

Definition is_handicap (m : json) : bool :=
  match market_name m, market_type m with
  | Ok name, Ok mtid => handicap_test name mtid
  | _, _ => false
  end.

(** The side label of a totals selection,
    [str(s.get("outcomeType") or s.get("name") or "").lower()]. *)
Definition ou_of (s : json) : result string :=
  o <- Py.get s "outcomeType" ;;
  n <- Py.get s "name" ;;
  Ok (lower_str P (Py.or_ o n)).

(** The side the totals loop files a label under: "over" is tested first. *)
Inductive side : Type := Over | Under.

Definition side_of (ou : string) : option side :=
  if Str.contains "over" ou then Some Over
  else if Str.contains "under" ou then Some Under
  else None.

(** The points of a selection, as each loop converts them. *)
Definition totals_points_of (s : json) : result (option float) :=
  pts <- Py.get s "points" ;; Ok (totals_points pts).

Definition handicap_points_of (s : json) : result (option float) :=
  pts <- Py.get s "points" ;; Ok (handicap_points pts).

(** Among the markets [ms], a selection of a totals market is filed under
    side [sd], has points equal to [hdp] and carries the valid price [p]. *)
Definition totals_leg (ms : list json) (sd : side) (hdp : float) (p : string) : Prop :=
  exists m ss s ou x,
    In m ms /\ is_totals m = true /\ selections_of m = Ok ss /\ In s ss /\
    ou_of s = Ok ou /\ side_of ou = Some sd /\
    totals_points_of s = Ok (Some x) /\ same_point hdp x /\
    selection_price s = Ok (Some p).

(** Among the markets [ms], one handicap market has a home selection with
    the points [h_hdp r] and the price [h_home r], and an away selection
    with points that parse and the price [h_away r]. *)
Definition handicap_line_from (ms : list json) (r : handicap_line) : Prop :=
  exists m ss sh sa xa,
    In m ms /\ is_handicap m = true /\ selections_of m = Ok ss /\
    In sh ss /\ In sa ss /\
    outcome_of P sh = Ok "home" /\ outcome_of P sa = Ok "away" /\
    handicap_points_of sh = Ok (Some (h_hdp r)) /\
    handicap_points_of sa = Ok (Some xa) /\
    selection_price sh = Ok (Some (h_home r)) /\
    selection_price sa = Ok (Some (h_away r)).

Definition no_hc_legs : hc_legs :=
  {| home_pts := None; home_price := None; away_pts := None; away_price := None |}.

(** What the handicap branch makes of one market taken alone, when the
    moneyline branch does not take it: the line it stores. *)
Definition handicap_of_market (m : json) : result (option handicap_line) :=
  name <- market_name m ;;
  mtid <- market_type m ;;
  if negb (totals_test name mtid) && handicap_test name mtid then
    ss <- selections_of m ;;
    legs <- handicap_selections P ss no_hc_legs ;;
    match home_pts legs, away_pts legs, home_price legs, away_price legs with
    | Some hp, Some _, Some h, Some w =>
        if Str.nonempty h && Str.nonempty w
        then Ok (Some {| h_hdp := hp; h_home := h; h_away := w |})
        else Ok None
    | _, _, _, _ => Ok None
    end
  else Ok None.

(** A stored totals line holds its key as [hdp], and each of its legs
    comes from a selection of that line and side. *)
Definition totals_entry_from (ms : list json) (kv : float * totals_line) : Prop :=
  same_point (fst kv) (t_hdp (snd kv)) /\
  (forall p, t_over (snd kv) = Some p -> totals_leg ms Over (t_hdp (snd kv)) p) /\
  (forall p, t_under (snd kv) = Some p -> totals_leg ms Under (t_hdp (snd kv)) p).

(** The home and the away variables of the handicap loop come from
    selections among [ss]. *)
Definition hc_legs_from (ss : list json) (legs : hc_legs) : Prop :=
  (forall hp, home_pts legs = Some hp ->
     exists s h, In s ss /\ outcome_of P s = Ok "home" /\
                 handicap_points_of s = Ok (Some hp) /\
                 home_price legs = Some h /\ selection_price s = Ok (Some h)) /\
  (forall ap, away_pts legs = Some ap ->
     exists s w, In s ss /\ outcome_of P s = Ok "away" /\
                 handicap_points_of s = Ok (Some ap) /\
                 away_price legs = Some w /\ selection_price s = Ok (Some w)).

(** The leg of a totals line on one side. *)
Definition leg_of (sd : side) (r : totals_line) : option string :=
  match sd with
  | Over => t_over r
  | Under => t_under r
  end.

(** The dict holds, under a key equal to [x], a line priced on side [sd]. *)
Definition line_has (lines : FDict.t totals_line) (x : float) (sd : side) : Prop :=
  exists k r, In (k, r) lines /\ Float.eqb k x = true /\ priced (leg_of sd r) = true.

(** The totals market [m] quotes the line [x] on side [sd]: one of its
    selections is filed under [sd], has points equal to [x] and carries a
    valid price. *)
Definition totals_quote (m : json) (sd : side) (x : float) : Prop :=
  exists ss s ou y p,
    selections_of m = Ok ss /\ In s ss /\ ou_of s = Ok ou /\ side_of ou = Some sd /\
    totals_points_of s = Ok (Some y) /\ Float.eqb x y = true /\
    selection_price s = Ok (Some p).

End Notions2.

(** The request [r2] comes right after [r1]: the next page of the same
    window, or the start page of the window that begins one millisecond
    after [r1]'s ends. *)
Definition follows (a : args) (r1 r2 : request) : Prop :=
  pageSize r2 = pageSize r1 /\
  ((startTime r2 = startTime r1 /\ endTime r2 = endTime r1 /\
    pageNum r2 = pageNum r1 + 1) \/
   (startTime r2 = endTime r1 + 1 /\ endTime r2 = startTime r2 + window_ms a /\
    pageNum r2 = page_num_start a)).

Fixpoint chained (a : args) (log : list request) : Prop :=
  match log with
  | r1 :: rest =>
      match rest with
      | r2 :: _ => follows a r1 r2 /\ chained a rest
      | [] => True
      end
  | [] => True
  end.

(** The first request of a run. *)
Definition first_request (U : upstream) (a : args) : request :=
  {| startTime := now_ms U; endTime := now_ms U + window_ms a;
     pageSize := page_size a; pageNum := page_num_start a |}.

(** The event carries a non-empty id that the run has already recorded. *)
Definition known_event (P : platform) (c : cursor) (ev : json) : Prop :=
  exists s, event_id P ev = Ok s /\ Str.nonempty s = true /\ s ∈ seen_event_ids c.


(** The value a sensitive header is sent with: the argument when it is not
    empty, else the environment's when that is not empty, else none. *)
Definition provided (arg hardcoded : string) : option string :=
  if Str.nonempty arg then Some arg
  else if Str.nonempty hardcoded then Some hardcoded
  else None.

(** The three headers that carry credentials. *)
Definition sensitive (k : string) : bool :=
  String.eqb k "Cookie" || String.eqb k "X-Request-Sign"
  || String.eqb k "X-Request-Timestamp".

Definition is_failed (e : attempt) : bool :=
  match e with
  | Failed _ => true
  | _ => false
  end.

(** How many of the first [n] calls of [scrape_api_only] raised. *)
Definition failures (W : console) (n : nat) : Z :=
  Z.of_nat (length (List.filter (fun i => is_failed (attempt_end W i)) (seq 1 n))).


(* ===================================================================== *)
(** * The price value of a selection *)
(* ===================================================================== *)

(** What [float()] is applied to in [format_decimal_str]: in a str every
    comma has become a dot, any other value is passed as it is. *)
Definition repaired (v : json) : json :=
  match v with
  | JStr s => JStr (Str.replace "," "." s)
  | _ => v
  end.

(** The number a price value parses to, when [float()] takes it. Neither
    the sign nor the finiteness of the number is looked at. *)
Definition parsed (v : json) : option float :=
  to_option (Py.float_of (repaired v)).

(** The price value of a selection: [trueOdds] when that is truthy, else
    the [Decimal] of [displayOdds] (or of an empty dict when [displayOdds]
    is falsy). A numeric 0 in [trueOdds] is falsy. The second [.get]
    raises when [displayOdds] is truthy and not a dict. *)
Definition price_field (s : json) : result json :=
  t <- Py.get s "trueOdds" ;;
  if Py.truthy t then Ok t
  else (d <- Py.get s "displayOdds" ;; Py.get (Py.or_ d (JDict [])) "Decimal").

Section Prices.
Context (P : platform).

(** Among [ss], a selection of outcome [o] has a price value that parses,
    and [p] is the 3-decimal rendering of the number. *)
Definition parsed_leg (ss : list json) (o p : string) : Prop :=
  exists s dec x,
    In s ss /\ outcome_of P s = Ok o /\
    price_field s = Ok dec /\ parsed dec = Some x /\ p = Float.format_3f x.

(** [p] renders the number that the price value of a selection of one of
    the markets [ms] parses to. *)
Definition price_among (ms : list json) (p : string) : Prop :=
  exists m ss s dec x,
    In m ms /\ selections_of m = Ok ss /\ In s ss /\
    price_field s = Ok dec /\ parsed dec = Some x /\ p = Float.format_3f x.

(** Every leg of every entry of a block is such a rendering, and a totals
    line has both of its legs. *)
Definition odds_backed (ms : list json) (o : odds) : Prop :=
  match o with
  | OddsML l =>
      Forall (fun e => price_among ms (ml_home e) /\ price_among ms (ml_draw e)
                       /\ price_among ms (ml_away e)) l
  | OddsTotals l =>
      Forall (fun r => exists po pu, t_over r = Some po /\ t_under r = Some pu
                                     /\ price_among ms po /\ price_among ms pu) l
  | OddsHandicap l =>
      Forall (fun r => price_among ms (h_home r) /\ price_among ms (h_away r)) l
  end.

End Prices.

(* ===================================================================== *)
(** * Pages and windows, as the upstream sends them *)
(* ===================================================================== *)

Section Windows.
Context (P : platform) (U : upstream) (a : args).

(** The id a fixture is recorded under, [str(ev.get("eventId") or "")]
    when that text is not empty. A falsy [eventId] (missing, [None], [""],
    [0], [False]) gives none. *)
Definition recorded_id (ev : json) : option string :=
  let s := Py.str P (Py.or_ (field ev "eventId") (JStr "")) in
  if Str.nonempty s then Some s else None.

(** The fixture has an id, and the set [seen] holds it. *)
Definition known (seen : gset string) (ev : json) : bool :=
  match recorded_id ev with
  | Some s => bool_decide (s ∈ seen)
  | None => false
  end.

(** The ids of a list of fixtures. *)
Definition recorded_ids (evs : list json) : list string :=
  omap recorded_id evs.

(** The fixtures of a page that get a record when the ids [seen] are
    recorded already: those without an id, and of those with an id the
    first of each id that is not in [seen]. *)
Fixpoint fresh_fixtures (seen : gset string) (evs : list json) : list json :=
  match evs with
  | [] => []
  | ev :: rest =>
      match recorded_id ev with
      | Some s =>
          if bool_decide (s ∈ seen) then fresh_fixtures seen rest
          else ev :: fresh_fixtures ({[ s ]} ∪ seen) rest
      | None => ev :: fresh_fixtures seen rest
      end
  end.

(** The fixture is a dict from which both normalizers build their part,
    whatever the clock reads. *)
Definition normalizes (ev : json) : Prop :=
  is_dict ev = true /\
  (exists it, build_item_skeleton_from_api P ev = Ok it) /\
  (forall now, exists ms, extract_markets_from_api P now ev = Ok ms).

(** What a response is to the page loop: a page without items, a page of
    fixtures that is not the last of its window, or the last page. *)
Inductive page_view : Type :=
| EmptyPage
| MorePages (evs : list json)
| LastPage (evs : list json).

Definition view_page (r : response) (page : Z) : option page_view :=
  match accept P r with
  | Ok data =>
      match items_of data with
      | Ok items =>
          if negb (Py.truthy items) then Some EmptyPage
          else
            match Py.iter items, total_pages_of data, page_now_of data page with
            | Ok evs, Ok tp, Ok pn =>
                Some (if pn >=? tp then LastPage evs else MorePages evs)
            | _, _, _ => None
            end
      | Raise _ => None
      end
  | Raise _ => None
  end.

(** How a window ends: on a page without items, or on a last page. *)
Definition closing (final : option (list json)) : page_view :=
  match final with
  | Some evs => LastPage evs
  | None => EmptyPage
  end.

Definition closing_fixtures (final : option (list json)) : list json :=
  match final with
  | Some evs => evs
  | None => []
  end.

(** The [j]-th page request of the window that [c] stands in, counted
    from the page [c] is at. *)
Definition window_request (c : cursor) (j : nat) : request :=
  {| startTime := start_ms c; endTime := end_ms c;
     pageSize := page_size a; pageNum := page c + Z.of_nat j |}.

(** The window of [c] answers with the pages [pages], none of them the
    last, and then with the closing page [final]. *)
Definition window_answers (c : cursor) (pages : list (list json))
    (final : option (list json)) : Prop :=
  (forall j evs,
     nth_error pages j = Some evs ->
     view_page (post U (n_posts c + j) (window_request c j)) (page c + Z.of_nat j)
     = Some (MorePages evs)) /\
  view_page (post U (n_posts c + length pages) (window_request c (length pages)))
            (page c + Z.of_nat (length pages))
  = Some (closing final).

(** The cursor stands at the head of a window: it is the one the run
    starts with, or the one the window before hands over. *)
Definition window_head (c : cursor) : Prop :=
  c = cursor0 U a \/ exists c0, c = next_window a c0.

(** The requests of such a window, in order. *)
Definition window_requests (c : cursor) (n : nat) : list request :=
  map (window_request c) (seq 0 n).

(** The first request of the window after the one [c] stands in. *)
Definition next_window_request (c : cursor) : request :=
  {| startTime := end_ms c + 1; endTime := end_ms c + 1 + window_ms a;
     pageSize := page_size a; pageNum := page_num_start a |}.

End Windows.

(* ===================================================================== *)
(** * More sample inputs *)
(* ===================================================================== *)

Module Cases.

(** A fixture without an event id. *)
Definition anonymous : json := Sample.fixture JNull [].

(** An upstream that always answers with the one fixture of id 2, on the
    only page of the window. *)
Definition upstream_same : upstream :=
  {| post := fun _ _ => Sample.ok_page [Sample.fixture (JInt 2) []] 1 1;
     now_ms := 1704000000000;
     now_iso := fun _ => "2024-01-01T00:00:00Z" |}.

(** A run that has recorded the id 2 and stands at the start of a window. *)
Definition cursor_known : cursor :=
  {| start_ms := 1704172800001; end_ms := 1704345600001; page := 1;
     got_any_in_window := false; results := []; seen_event_ids := {[ "2" ]};
     n_posts := 1; n_extracts := 1 |}.

(** An upstream that answers every request with one fixture that has no
    event id. *)
Definition upstream_anonymous : upstream :=
  {| post := fun _ _ => Sample.ok_page [anonymous] 1 1;
     now_ms := 1704000000000;
     now_iso := fun _ => "2024-01-01T00:00:00Z" |}.

(** A page whose [totalPages] is not a number. *)
Definition envelope_bad_total : json :=
  JDict [("code", JInt 200);
         ("data", JDict [("items", JList [Sample.fixture (JInt 1) [Sample.ml_market]]);
                         ("page", JInt 1); ("totalPages", JStr "many")])].

Definition upstream_bad_total : upstream :=
  {| post := fun _ _ => Response 200 (Some envelope_bad_total);
     now_ms := 1704000000000;
     now_iso := fun _ => "2024-01-01T00:00:00Z" |}.

(** Two failed runs, then runs that succeed; nobody at the keyboard. *)
Definition console_quiet : console :=
  {| argv := Parsed (Some "out.json");
     mkdir_fails := false;
     attempt_end := fun n => if (n <=? 2)%nat then Failed (RuntimeError "API status 403")
                             else Completed;
     sleep_interrupted := fun _ => false |}.

(** The same, with Ctrl+C during the fourth run. *)
Definition console_stop : console :=
  {| argv := Parsed (Some "out.json");
     mkdir_fails := false;
     attempt_end := fun n => if (n <=? 2)%nat then Failed (RuntimeError "API status 403")
                             else if (n =? 4)%nat then Interrupted else Completed;
     sleep_interrupted := fun _ => false |}.

(** [--hours soon]: argparse rejects the command line. *)
Definition console_usage : console :=
  {| argv := Usage 2;
     mkdir_fails := false;
     attempt_end := fun _ => Completed;
     sleep_interrupted := fun _ => false |}.

(** No [--out], and a default directory that cannot be made. *)
Definition console_no_dir : console :=
  {| argv := Parsed None;
     mkdir_fails := true;
     attempt_end := fun _ => Completed;
     sleep_interrupted := fun _ => false |}.

(** POSIX paths. *)
Definition posix : filesystem :=
  {| isabs := fun p => String.prefix "/" p;
     default_output_file := "/srv/data/2up_output_data.json" |}.


(** A fixture whose event id is the number 0. *)
Definition fixture_zero : json := Sample.fixture (JInt 0) [].

(** An upstream whose first page holds that fixture twice, and nothing
    after it. *)
Definition upstream_zero : upstream :=
  {| post := fun n _ =>
       match n with
       | 0%nat => Sample.ok_page [fixture_zero; fixture_zero] 1 1
       | _ => Sample.ok_page [] 1 1
       end;
     now_ms := 1704000000000;
     now_iso := fun _ => "2024-01-01T00:00:00Z" |}.

(** A selection that quotes its odds as text under [displayOdds], and one
    that quotes them in a dict whose [Decimal] does not parse. *)
Definition sel_text_odds : json :=
  JDict [("outcomeType", JStr "home"); ("displayOdds", JStr "1.95")].

Definition sel_bad_decimal : json :=
  JDict [("outcomeType", JStr "home");
         ("displayOdds", JDict [("Decimal", JStr "n/a")])].

Definition fixture_with (event_id : Z) (home : json) : json :=
  Sample.fixture (JInt event_id)
    [Sample.mkt "FT 1X2" [home; Sample.sel "tie" (JStr "3.40");
                          Sample.sel "away" (JStr "4.10")]].

(** An upstream whose only page holds a sound fixture and then one with
    the odds quoted as text. *)
Definition upstream_text_odds : upstream :=
  {| post := fun _ _ =>
       Sample.ok_page [Sample.fixture (JInt 5) [Sample.ml_market];
                       fixture_with 6 sel_text_odds] 1 1;
     now_ms := 1704000000000;
     now_iso := fun _ => "2024-01-01T00:00:00Z" |}.

(** The same with the [Decimal] that does not parse. *)
Definition upstream_bad_decimal : upstream :=
  {| post := fun n _ =>
       match n with
       | 0%nat => Sample.ok_page [Sample.fixture (JInt 5) [Sample.ml_market];
                                  fixture_with 6 sel_bad_decimal] 1 1
       | _ => Sample.ok_page [] 1 1
       end;
     now_ms := 1704000000000;
     now_iso := fun _ => "2024-01-01T00:00:00Z" |}.

(** A platform whose calendar ends with the year 9999: [fromtimestamp]
    raises from 253402300800 seconds on. Below that the date text is a
    placeholder; a window label is only logged. *)
Definition platform_9999 : platform :=
  {| float_repr := fun _ => "0.0";
     str_repr := fun s => s;
     utc_isoformat := fun x =>
       if Float.ltb x (Float.of_decimal false 253402300800 0)
       then Some "2024-01-01T00:00:00+00:00" else None |}.

(** [--hours 70000000]: the first window ends past the year 9999. *)
Definition args_far : args :=
  {| output_path := "out.json"; max_matches := None; hours_ahead := 70000000;
     page_size := 50; page_num_start := 1; cookies := ""; x_sign := "";
     x_ts := ""; verbose := false; exhaust := true |}.

End Cases.

Lemma nonempty_app (s t : string) :
  Str.nonempty (s ++ t) = Str.nonempty s || Str.nonempty t.
Proof. destruct s; simpl; [destruct t|]; reflexivity. Qed.

Lemma format_3f_nonempty (x : float) : Str.nonempty (Float.format_3f x) = true.
Proof.
  destruct x as [s|s| |s m e]; simpl.
  - destruct s; reflexivity.
  - destruct s; reflexivity.
  - reflexivity.
  - rewrite !nonempty_app. simpl. rewrite !orb_true_r. reflexivity.
Qed.

Lemma priced_format (v : json) (p : string) :
  format_decimal_str v = Some p -> priced (Some p) = true.
Proof.
  unfold format_decimal_str. intros H.
  destruct v; try discriminate;
    match type of H with
    | context [Py.float_of ?v] => destruct (Py.float_of v) eqn:E; try discriminate
    end; injection H as <-; apply format_3f_nonempty.
Qed.

Lemma priced_iff (v : json) :
  priced (format_decimal_str v) = true <-> exists p, format_decimal_str v = Some p.
Proof.
  split.
  - destruct (format_decimal_str v) eqn:E; [eauto | discriminate].
  - intros [p Hp]. rewrite Hp. eapply priced_format; eauto.
Qed.


Lemma prefix_empty (s : string) : String.prefix "" s = true.
Proof. destruct s; reflexivity. Qed.

Lemma replace_comma_map (s : string) :
  Str.replace "," "." s = map_string comma_to_dot s.
Proof.
  unfold Str.replace. induction s as [|c s IH]; [reflexivity|].
  cbn [Str.replace_from String.prefix map_string]. unfold comma_to_dot at 1.
  destruct (Ascii.eqb_spec c ",") as [->|Hne].
  - cbn. rewrite prefix_empty. cbn. f_equal. exact IH.
  - destruct (ascii_dec "," c) as [<-|_]; [congruence|]. f_equal. exact IH.
Qed.

Lemma append_cons (c : ascii) (s t : string) : String c s ++ t = String c (s ++ t).
Proof. reflexivity. Qed.

Lemma append_nil (t : string) : "" ++ t = t.
Proof. reflexivity. Qed.

Lemma map_string_app f (s t : string) :
  map_string f (s ++ t) = map_string f s ++ map_string f t.
Proof.
  induction s as [|c s IH]; [reflexivity|].
  cbn [map_string]. rewrite !append_cons. cbn [map_string]. f_equal. exact IH.
Qed.

Lemma comma_to_dot_idem (c : ascii) : comma_to_dot (comma_to_dot c) = comma_to_dot c.
Proof.
  unfold comma_to_dot. destruct (Ascii.eqb_spec c ","); [reflexivity|].
  destruct (Ascii.eqb_spec c ","); [contradiction|reflexivity].
Qed.

Lemma replace_comma_idem (s : string) :
  Str.replace "," "." (Str.replace "," "." s) = Str.replace "," "." s.
Proof.
  rewrite !replace_comma_map. induction s as [|c s IH]; cbn; [reflexivity|].
  rewrite comma_to_dot_idem, IH. reflexivity.
Qed.


Lemma prefix_minus_app (c0 : ascii) (b y : string) :
  not_continuation y ->
  String.prefix unicode_minus (String c0 b ++ y) =
  String.prefix unicode_minus (String c0 b).
Proof.
  intros Hy. unfold unicode_minus.
  destruct b as [|c1 [|c2 b]]; rewrite ?append_cons, ?append_nil;
    cbn [String.prefix].
  - destruct (ascii_dec _ c0); [|reflexivity].
    destruct y as [|c y]; [reflexivity|]. cbn in Hy. cbn [String.prefix].
    destruct (ascii_dec _ c) as [<-|]; [|reflexivity]. tauto.
  - destruct (ascii_dec _ c0); [|reflexivity].
    destruct (ascii_dec _ c1); [|reflexivity].
    destruct y as [|c y]; [reflexivity|]. cbn in Hy. cbn [String.prefix].
    destruct (ascii_dec _ c) as [<-|]; [|reflexivity]. tauto.
  - destruct (ascii_dec _ c0); [|reflexivity].
    destruct (ascii_dec _ c1); [|reflexivity].
    destruct (ascii_dec _ c2); [|reflexivity].
    rewrite !prefix_empty. reflexivity.
Qed.

Lemma prefix_length (p s : string) :
  String.prefix p s = true -> (String.length p <= String.length s)%nat.
Proof.
  revert s. induction p as [|c p IH]; intros s H; cbn; [lia|].
  destruct s as [|c' s]; cbn in H; [discriminate|].
  destruct (ascii_dec c c'); [|discriminate]. apply IH in H. cbn. lia.
Qed.

Lemma append_assoc (s t u : string) : (s ++ t) ++ u = s ++ (t ++ u).
Proof. induction s as [|c s IH]; [reflexivity|]. rewrite !append_cons, IH. reflexivity. Qed.

Lemma replace_from_app_minus (a y : string) (k : nat) :
  not_continuation y -> (k <= String.length a)%nat ->
  Str.replace_from unicode_minus "-" k (a ++ y) =
  Str.replace_from unicode_minus "-" k a ++ Str.replace_from unicode_minus "-" 0 y.
Proof.
  intros Hy. revert k. induction a as [|c a IH]; intros k Hk.
  - cbn in Hk. assert (k = 0%nat) as -> by lia. reflexivity.
  - rewrite append_cons. cbn [Str.replace_from]. destruct k as [|k].
    + rewrite <- append_cons, (prefix_minus_app _ _ _ Hy).
      destruct (String.prefix unicode_minus (String c a)) eqn:Hp.
      * apply prefix_length in Hp. cbn in Hp.
        rewrite IH by (cbn; lia). rewrite append_assoc. reflexivity.
      * rewrite IH by lia. reflexivity.
    + apply IH. cbn in Hk. lia.
Qed.

Lemma replace_minus_app (a y : string) :
  not_continuation y ->
  Str.replace unicode_minus "-" (a ++ y) =
  Str.replace unicode_minus "-" a ++ Str.replace unicode_minus "-" y.
Proof. intros Hy. apply replace_from_app_minus; [exact Hy | lia]. Qed.

Lemma replace_minus_anywhere (a b : string) :
  Str.replace unicode_minus "-" (a ++ unicode_minus ++ b) =
  Str.replace unicode_minus "-" (a ++ "-" ++ b).
Proof.
  rewrite (replace_minus_app a (unicode_minus ++ b)),
          (replace_minus_app a ("-" ++ b)).
  - f_equal. unfold Str.replace, unicode_minus.
    rewrite !append_cons, !append_nil. cbn. rewrite prefix_empty. reflexivity.
  - rewrite append_cons. split; discriminate.
  - unfold unicode_minus. rewrite append_cons. split; discriminate.
Qed.

Lemma handicap_points_minus (a b : string) :
  handicap_points (JStr (a ++ unicode_minus ++ b)) =
  handicap_points (JStr (a ++ "-" ++ b)).
Proof.
  unfold handicap_points. rewrite !replace_comma_map, !map_string_app.
  change (map_string comma_to_dot unicode_minus) with unicode_minus.
  change (map_string comma_to_dot "-") with "-".
  rewrite replace_minus_anywhere. reflexivity.
Qed.

(* ===================================================================== *)
(** * The error monad *)
(* ===================================================================== *)

Lemma bind_ok {A B : Type} (c : result A) (k : A -> result B) (b : B) :
  bind c k = Ok b -> exists a, c = Ok a /\ k a = Ok b.
Proof. destruct c; cbn; [eauto | discriminate]. Qed.

Lemma get_ok_dict (d v : json) (k : string) :
  Py.get d k = Ok v -> is_dict d = true.
Proof. destruct d; cbn; intros; congruence. Qed.

Lemma get_dict (d : json) (k : string) :
  is_dict d = true -> Py.get d k = Ok (field d k).
Proof. destruct d; cbn; intros; congruence. Qed.

(* ===================================================================== *)
(** * The moneyline slot *)
(* ===================================================================== *)

Section Moneyline.
Context (P : platform).

Lemma market_step_done now a m a' :
  ml_done a = true -> market_step P now a m = Ok a' ->
  ml_done a' = true /\ markets_out a' = markets_out a.
Proof.
  intros Hd H. unfold market_step in H.
  inv_bind H. inv_bind H. inv_bind H.
  rewrite Hd in H. cbn [negb andb] in H.
  repeat case_match; simplify_eq; try (inv_bind H); try (inv_bind H);
    repeat case_match; simplify_eq; auto.
Qed.

Lemma markets_loop_done now ms a a' :
  ml_done a = true -> markets_loop P now ms a = Ok a' ->
  ml_done a' = true /\ markets_out a' = markets_out a.
Proof.
  revert a. induction ms as [|m ms IH]; intros a Hd H; cbn in H.
  - simplify_eq. auto.
  - inv_bind H. destruct (market_step_done _ _ _ _ Hd Hx) as [Hd' Ho].
    destruct (IH _ Hd' H) as [? ?]. split; [auto | congruence].
Qed.

(** With the slot still empty, a step fills it exactly when the market,
    taken alone, yields a moneyline. *)
Lemma market_step_fresh now a m a' :
  ml_done a = false -> markets_out a = [] ->
  market_step P now a m = Ok a' ->
  match ml_of_market P m with
  | Ok (Some o) => ml_done a' = true /\ markets_out a' = ml_blocks now (Some o)
  | Ok None => ml_done a' = false /\ markets_out a' = []
  | Raise _ => False
  end.
Proof.
  intros Hd Ho H. unfold market_step in H.
  unfold ml_of_market, confirmed_primary, selections_of.
  inv_bind H. inv_bind H. inv_bind H.
  rewrite Hx, Hx0, Hx1. cbn [bind].
  rewrite Hd, Ho in H. cbn [negb andb List.find] in H.
  destruct (main_1x2 _ _) eqn:Hm.
  - inv_bind H. inv_bind H. rewrite Hx2. cbn [bind].
    unfold no_legs. rewrite Hx3. cbn [bind].
    destruct (home_p x3), (draw_p x3), (away_p x3); simplify_eq; auto.
    destruct (_ && _); simplify_eq; auto.
    rewrite orb_true_l in H.
    rewrite bool_decide_eq_false_2 in H by (intros [? ?]; discriminate).
    simplify_eq. cbn. auto.
  - repeat case_match; simplify_eq; try (inv_bind H); try (inv_bind H);
      repeat case_match; simplify_eq; auto.
Qed.

Lemma markets_loop_ml now ms a a' :
  ml_done a = false -> markets_out a = [] ->
  markets_loop P now ms a = Ok a' ->
  markets_out a' = ml_blocks now (first_ml P ms).
Proof.
  revert a. induction ms as [|m ms IH]; intros a Hd Ho H; cbn in H.
  - simplify_eq. cbn. exact Ho.
  - inv_bind H. pose proof (market_step_fresh _ _ _ _ Hd Ho Hx) as Hs.
    cbn [first_ml]. destruct (ml_of_market P m) as [[o|]|]; [| |contradiction].
    + destruct Hs as [Hd' Ho']. destruct (markets_loop_done _ _ _ _ Hd' H) as [_ ->].
      exact Ho'.
    + destruct Hs as [Hd' Ho']. eauto.
Qed.

Lemma filter_ML_app (l1 l2 : list market) :
  List.filter is_ML (l1 ++ l2)%list = (List.filter is_ML l1 ++ List.filter is_ML l2)%list.
Proof. apply List.filter_app. Qed.

Lemma emit_ML now a :
  List.filter is_ML (emit now a) = List.filter is_ML (markets_out a).
Proof.
  unfold emit.
  destruct (totals_out (totals_lines a)), (handicap_lines a);
    rewrite ?filter_ML_app; cbn; rewrite ?app_nil_r; reflexivity.
Qed.

Lemma filter_ML_blocks now o :
  List.filter is_ML (ml_blocks now o) = ml_blocks now o.
Proof. destruct o; reflexivity. Qed.

(** The moneyline blocks of the output are those of the first market that
    yields one. *)
Lemma extract_ML now ev out :
  extract_markets_from_api P now ev = Ok out ->
  exists ms, markets_of ev = Ok ms /\
             List.filter is_ML out = ml_blocks now (first_ml P ms).
Proof.
  unfold extract_markets_from_api, markets_of. intros H.
  inv_bind H. inv_bind H. inv_bind H. simplify_eq.
  rewrite Hx. cbn [bind]. exists x0. split; [exact Hx0|].
  rewrite emit_ML, (markets_loop_ml now x0 acc0 x1 eq_refl eq_refl Hx1).
  apply filter_ML_blocks.
Qed.

Lemma first_ml_app pre p post o :
  Forall (fun m => forall o', ml_of_market P m <> Ok (Some o')) pre ->
  ml_of_market P p = Ok (Some o) ->
  first_ml P (pre ++ p :: post) = Some o.
Proof.
  intros Hpre Hp. induction Hpre as [|m pre Hm _ IH]; cbn.
  - rewrite Hp. reflexivity.
  - destruct (ml_of_market P m) as [[o'|]|]; [|exact IH|exact IH].
    exfalso. eapply Hm. reflexivity.
Qed.

Lemma not_confirmed_no_ml m :
  confirmed_primary P m = false -> ml_of_market P m = Ok None.
Proof. unfold ml_of_market. intros ->. reflexivity. Qed.

End Moneyline.

(* ===================================================================== *)
(** * Where legs and prices come from *)
(* ===================================================================== *)

Lemma format_is_price (v : json) (p : string) :
  format_decimal_str v = Some p -> is_price p.
Proof.
  unfold format_decimal_str. intros H.
  destruct v; try discriminate;
    match type of H with
    | context [Py.float_of ?v] => destruct (Py.float_of v) as [y|] eqn:E; try discriminate
    end; injection H as <-; exists y; reflexivity.
Qed.

Lemma selection_price_is_price (s : json) (p : string) :
  selection_price s = Ok (Some p) -> is_price p.
Proof.
  unfold selection_price. intros H. inv_bind H. inv_bind H. simplify_eq.
  eapply format_is_price; eauto.
Qed.

Lemma selection_price_priced (s : json) (price : option string) :
  selection_price s = Ok price -> priced price = true ->
  exists p, price = Some p /\ is_price p.
Proof.
  intros H Hp. destruct price as [p|]; [|discriminate].
  exists p. split; [reflexivity|]. eapply selection_price_is_price; eauto.
Qed.

Lemma is_price_nonempty (p : string) : is_price p -> Str.nonempty p = true.
Proof. intros [x ->]. apply format_3f_nonempty. Qed.

Lemma selection_price_None (s : json) (price : option string) :
  selection_price s = Ok price -> priced price = false -> price = None.
Proof.
  intros H Hp. destruct price as [p|]; [|reflexivity].
  apply selection_price_is_price, is_price_nonempty in H. cbn in Hp. congruence.
Qed.

Section Legs.
Context (P : platform).

Lemma leg_from_cons s ss o p : leg_from P ss o p -> leg_from P (s :: ss) o p.
Proof. intros (s' & Hin & H). exists s'. split; [right; exact Hin | exact H]. Qed.

Lemma leg_from_here s ss o p :
  outcome_of P s = Ok o -> selection_price s = Ok (Some p) -> leg_from P (s :: ss) o p.
Proof. intros Ho Hp. exists s. split; [left; reflexivity | auto]. Qed.

(** Each leg the moneyline loop ends with was there before, or is the
    valid price of a selection of the matching outcome. *)
Lemma ml_selections_legs ss legs0 legs :
  ml_selections P ss legs0 = Ok legs ->
  (forall p, home_p legs = Some p -> home_p legs0 = Some p \/ leg_from P ss "home" p) /\
  (forall p, draw_p legs = Some p ->
     draw_p legs0 = Some p \/ leg_from P ss "tie" p \/ leg_from P ss "draw" p) /\
  (forall p, away_p legs = Some p -> away_p legs0 = Some p \/ leg_from P ss "away" p).
Proof.
  revert legs0. induction ss as [|s ss IH]; intros legs0 H; cbn in H.
  - simplify_eq. auto.
  - inv_bind H. inv_bind H.
    assert (Hout : outcome_of P s = Ok (lower_str P x)).
    { unfold outcome_of. rewrite Hx. reflexivity. }
    destruct (priced x0) eqn:Hpr; cbn [negb] in H.
    2:{ destruct (IH _ H) as (Hh & Hd & Ha). repeat split; intros p Hp;
        [destruct (Hh p Hp) | destruct (Hd p Hp) as [|[|]] | destruct (Ha p Hp)];
        eauto using leg_from_cons. }
    destruct (selection_price_priced _ _ Hx0 Hpr) as (q & -> & Hq).
    destruct (String.eqb_spec (lower_str P x) "home") as [E1|_].
    { rewrite E1 in Hout.
      destruct (IH _ H) as (Hh & Hd & Ha). cbn in Hh, Hd, Ha. repeat split; intros p Hp;
        [destruct (Hh p Hp) | destruct (Hd p Hp) as [|[|]] | destruct (Ha p Hp)];
        simplify_eq; eauto using leg_from_cons, leg_from_here. }
    destruct (String.eqb_spec (lower_str P x) "tie") as [E2|_].
    { rewrite E2 in Hout. cbn [orb] in H.
      destruct (IH _ H) as (Hh & Hd & Ha). cbn in Hh, Hd, Ha. repeat split; intros p Hp;
        [destruct (Hh p Hp) | destruct (Hd p Hp) as [|[|]] | destruct (Ha p Hp)];
        simplify_eq; eauto using leg_from_cons, leg_from_here. }
    destruct (String.eqb_spec (lower_str P x) "draw") as [E3|_].
    { rewrite E3 in Hout. cbn [orb] in H.
      destruct (IH _ H) as (Hh & Hd & Ha). cbn in Hh, Hd, Ha. repeat split; intros p Hp;
        [destruct (Hh p Hp) | destruct (Hd p Hp) as [|[|]] | destruct (Ha p Hp)];
        simplify_eq; eauto 6 using leg_from_cons, leg_from_here. }
    cbn [orb] in H.
    destruct (String.eqb_spec (lower_str P x) "away") as [E4|_].
    { rewrite E4 in Hout.
      destruct (IH _ H) as (Hh & Hd & Ha). cbn in Hh, Hd, Ha. repeat split; intros p Hp;
        [destruct (Hh p Hp) | destruct (Hd p Hp) as [|[|]] | destruct (Ha p Hp)];
        simplify_eq; eauto using leg_from_cons, leg_from_here. }
    destruct (IH _ H) as (Hh & Hd & Ha). repeat split; intros p Hp;
        [destruct (Hh p Hp) | destruct (Hd p Hp) as [|[|]] | destruct (Ha p Hp)];
        eauto using leg_from_cons.
Qed.

(** A market that yields a moneyline is a confirmed primary whose
    selections price all three outcomes. *)
Lemma ml_of_market_legs m o :
  ml_of_market P m = Ok (Some o) ->
  confirmed_primary P m = true /\
  exists ss, selections_of m = Ok ss /\
    leg_from P ss "home" (ml_home o) /\
    (leg_from P ss "tie" (ml_draw o) \/ leg_from P ss "draw" (ml_draw o)) /\
    leg_from P ss "away" (ml_away o).
Proof.
  unfold ml_of_market. intros H.
  destruct (confirmed_primary P m); [|discriminate]. split; [reflexivity|].
  inv_bind H. inv_bind H. exists x. split; [exact Hx|].
  destruct (ml_selections_legs _ _ _ Hx0) as (Hh & Hd & Ha).
  destruct (home_p x0) as [h|]; [|discriminate].
  destruct (draw_p x0) as [d|]; [|discriminate].
  destruct (away_p x0) as [w|]; [|discriminate].
  destruct (_ && _); [|discriminate]. simplify_eq. cbn.
  destruct (Hh h eq_refl) as [?|?]; [discriminate|].
  destruct (Hd d eq_refl) as [?|?]; [discriminate|].
  destruct (Ha w eq_refl) as [?|?]; [discriminate|]. auto.
Qed.

Lemma first_ml_In ms o :
  first_ml P ms = Some o -> exists m, In m ms /\ ml_of_market P m = Ok (Some o).
Proof.
  induction ms as [|m ms IH]; cbn; [discriminate|].
  destruct (ml_of_market P m) as [[o'|]|] eqn:E; intros H.
  - simplify_eq. exists m. auto.
  - destruct (IH H) as (m' & ? & ?). exists m'. auto.
  - destruct (IH H) as (m' & ? & ?). exists m'. auto.
Qed.

Lemma In_filter_ML (b : market) (out : list market) :
  In b out -> m_name b = "ML" -> In b (List.filter is_ML out).
Proof.
  intros Hin Hn. apply List.filter_In. split; [exact Hin|].
  unfold is_ML. rewrite Hn. reflexivity.
Qed.

End Legs.

(* ===================================================================== *)
(** * Sorting and float-keyed dicts *)
(* ===================================================================== *)

Section SortFacts.
Context {A : Type} (key : A -> float).

Lemma insert_perm (x : A) (racc : list A) :
  Permutation (Sort.insert key x racc) (x :: racc).
Proof.
  induction racc as [|y r IH]; cbn; [reflexivity|].
  destruct (Float.ltb (key x) (key y)); [|reflexivity].
  rewrite IH. apply perm_swap.
Qed.

Lemma sort_fold_perm (l racc : list A) :
  Permutation (fold_left (fun racc x => Sort.insert key x racc) l racc) (l ++ racc)%list.
Proof.
  revert racc. induction l as [|x l IH]; intros racc; cbn; [reflexivity|].
  rewrite IH, insert_perm. symmetry. apply Permutation_middle.
Qed.

Lemma sort_perm (l : list A) : Permutation (Sort.sort key l) l.
Proof.
  unfold Sort.sort. rewrite <- Permutation_rev, sort_fold_perm, app_nil_r. reflexivity.
Qed.

Lemma sort_Forall (Q : A -> Prop) (l : list A) :
  Forall Q l -> Forall Q (Sort.sort key l).
Proof. intros H. eapply Permutation_Forall; [symmetry; apply sort_perm | exact H]. Qed.

End SortFacts.

Lemma upsert_Forall {V : Type} (Q : V -> Prop) k v0 (f : V -> V) (d : FDict.t V) :
  (forall v, Q v -> Q (f v)) -> Q (f v0) ->
  Forall (fun kv => Q (snd kv)) d ->
  Forall (fun kv => Q (snd kv)) (FDict.upsert k v0 f d).
Proof.
  intros Hf H0 Hd. induction Hd as [|[k' v] d Hv Hd IH]; cbn.
  - constructor; [exact H0 | constructor].
  - destruct (Float.eqb k' k); constructor; cbn; auto.
Qed.

(* ===================================================================== *)
(** * Every emitted leg is a price *)
(* ===================================================================== *)

Section Priced.
Context (P : platform).

Lemma totals_selections_priced ss lines lines' :
  totals_selections P ss lines = Ok lines' ->
  Forall (fun kv => line_priced (snd kv)) lines ->
  Forall (fun kv => line_priced (snd kv)) lines'.
Proof.
  revert lines. induction ss as [|s ss IH]; intros lines H Hl; cbn in H.
  - simplify_eq. exact Hl.
  - inv_bind H. inv_bind H. inv_bind H.
    destruct (totals_points x1) as [pts|]; [|eauto].
    inv_bind H. destruct (priced x2) eqn:Hpr; cbn [negb] in H; [|eauto].
    destruct (selection_price_priced _ _ Hx2 Hpr) as (q & -> & Hq).
    apply IH in H; [exact H|].
    apply upsert_Forall; [|  | exact Hl].
    + intros v [Ho Hu]. destruct (Str.contains "over" _); [|destruct (Str.contains "under" _)];
        split; cbn; intros; simplify_eq; auto.
    + destruct (Str.contains "over" _); [|destruct (Str.contains "under" _)];
        split; cbn; intros; simplify_eq; auto.
Qed.

Lemma handicap_selections_priced ss legs legs' :
  handicap_selections P ss legs = Ok legs' ->
  (forall p, home_price legs = Some p -> is_price p) ->
  (forall p, away_price legs = Some p -> is_price p) ->
  (forall p, home_price legs' = Some p -> is_price p) /\
  (forall p, away_price legs' = Some p -> is_price p).
Proof.
  revert legs. induction ss as [|s ss IH]; intros legs H Hh Ha; cbn in H.
  - simplify_eq. auto.
  - inv_bind H. inv_bind H.
    destruct (handicap_points x0) as [pts|]; [|eauto].
    inv_bind H. destruct (priced x1) eqn:Hpr; cbn [negb] in H; [|eauto].
    destruct (selection_price_priced _ _ Hx1 Hpr) as (q & -> & Hq).
    repeat case_match; apply IH in H; auto; cbn; intros; simplify_eq; auto.
Qed.

Lemma leg_from_is_price ss o p : leg_from P ss o p -> is_price p.
Proof. intros (s & _ & _ & H). eapply selection_price_is_price; eauto. Qed.

Lemma ml_of_market_priced m o :
  ml_of_market P m = Ok (Some o) ->
  is_price (ml_home o) /\ is_price (ml_draw o) /\ is_price (ml_away o).
Proof.
  intros H. apply ml_of_market_legs in H as (_ & ss & _ & Hh & Hd & Ha).
  repeat split; [| destruct Hd |]; eauto using leg_from_is_price.
Qed.

Lemma market_step_priced now a m a' :
  market_step P now a m = Ok a' -> acc_priced a -> acc_priced a'.
Proof.
  intros H (Hm & Ht & Hh). unfold market_step in H.
  inv_bind H. inv_bind H. inv_bind H.
  destruct (negb (ml_done a) && main_1x2 _ _) eqn:Hml.
  - inv_bind H. inv_bind H.
    destruct (ml_selections_legs P _ _ _ Hx3) as (Lh & Ld & La).
    destruct (home_p x3) as [h|]; [|simplify_eq; repeat split; auto].
    destruct (draw_p x3) as [d|]; [|simplify_eq; repeat split; auto].
    destruct (away_p x3) as [w|]; [|simplify_eq; repeat split; auto].
    destruct (Str.nonempty h && Str.nonempty d && Str.nonempty w);
      [|simplify_eq; repeat split; auto].
    destruct (main_1x2 _ _ || _); [|simplify_eq; repeat split; auto].
    simplify_eq. repeat split; cbn; auto.
    apply Forall_app. split.
    + destruct (bool_decide _); [|exact Hm].
      apply List.Forall_forall. intros b Hb. apply List.filter_In in Hb as [Hb _].
      eapply List.Forall_forall in Hm; eauto.
    + constructor; [|constructor]. cbn. constructor; [|constructor]. cbn.
      destruct (Lh h eq_refl) as [?|?]; [discriminate|].
      destruct (Ld d eq_refl) as [?|[?|?]]; [discriminate| |];
      (destruct (La w eq_refl) as [?|?]; [discriminate|]);
      repeat split; eauto using leg_from_is_price.
  - destruct (_ || _).
    { inv_bind H. inv_bind H. simplify_eq. repeat split; cbn; auto.
      eapply totals_selections_priced; eauto. }
    destruct (_ || _); [|simplify_eq; repeat split; auto].
    inv_bind H. inv_bind H.
    destruct (handicap_selections_priced _ _ _ Hx3) as [Ph Pa]; [discriminate..|].
    destruct (home_pts x3) as [hp|]; [|simplify_eq; repeat split; auto].
    destruct (away_pts x3) as [ap|]; [|simplify_eq; repeat split; auto].
    destruct (home_price x3) as [h|]; [|simplify_eq; repeat split; auto].
    destruct (away_price x3) as [w|]; [|simplify_eq; repeat split; auto].
    destruct (Str.nonempty h && Str.nonempty w); [|simplify_eq; repeat split; auto].
    simplify_eq. repeat split; cbn; auto.
    unfold FDict.set. apply upsert_Forall; auto; split; cbn; auto.
Qed.

Lemma markets_loop_priced now ms a a' :
  markets_loop P now ms a = Ok a' -> acc_priced a -> acc_priced a'.
Proof.
  revert a. induction ms as [|m ms IH]; intros a H Ha; cbn in H.
  - simplify_eq. exact Ha.
  - inv_bind H. eauto using market_step_priced.
Qed.

Lemma totals_out_priced lines :
  Forall (fun kv => line_priced (snd kv)) lines ->
  Forall (fun r => exists po pu, t_over r = Some po /\ t_under r = Some pu
                                 /\ is_price po /\ is_price pu) (totals_out lines).
Proof.
  intros H. unfold totals_out, FDict.values.
  apply List.Forall_forall. intros r Hr. apply List.filter_In in Hr as [Hin Hp].
  apply List.in_map_iff in Hin as (kv & <- & Hin).
  eapply List.Forall_forall in H; eauto. destruct H as [Ho Hu].
  destruct (t_over (snd kv)) as [po|]; [|discriminate].
  destruct (t_under (snd kv)) as [pu|]; [|cbn in Hp; rewrite andb_false_r in Hp; discriminate].
  exists po, pu. auto.
Qed.

Lemma emit_priced now a :
  acc_priced a -> Forall (fun b => odds_priced (m_odds b)) (emit now a).
Proof.
  intros (Hm & Ht & Hh). unfold emit.
  assert (HT : Forall (fun b => odds_priced (m_odds b))
                 match totals_out (totals_lines a) with
                 | [] => markets_out a
                 | tl => (markets_out a ++
                          [ {| m_name := "Totals"; m_updatedAt := now;
                               m_odds := OddsTotals (Sort.sort t_hdp tl) |} ])%list
                 end).
  { pose proof (totals_out_priced _ Ht) as Hto.
    destruct (totals_out (totals_lines a)) as [|r tl]; [exact Hm|].
    apply Forall_app. split; [exact Hm|]. constructor; [|constructor].
    cbn [m_odds odds_priced]. apply sort_Forall. exact Hto. }
  destruct (handicap_lines a) as [|kv hl] eqn:E; [exact HT|].
  apply Forall_app. split; [exact HT|]. constructor; [|constructor].
  cbn [m_odds odds_priced]. apply sort_Forall. unfold FDict.values.
  apply List.Forall_forall. intros r Hr. apply List.in_map_iff in Hr as (kv' & <- & Hin).
  eapply List.Forall_forall in Hh; eauto.
Qed.

Lemma extract_priced now ev out :
  extract_markets_from_api P now ev = Ok out ->
  Forall (fun b => odds_priced (m_odds b)) out.
Proof.
  unfold extract_markets_from_api. intros H.
  inv_bind H. inv_bind H. inv_bind H. simplify_eq.
  apply emit_priced. eapply markets_loop_priced; eauto.
  repeat split; constructor.
Qed.

End Priced.

(* ===================================================================== *)
(** * Field values never raise *)
(* ===================================================================== *)

Lemma iter_list_or_falsy (v : json) (l : list json) :
  list_or_falsy v = Some l -> Py.iter (Py.or_ v (JList [])) = Ok l.
Proof.
  unfold list_or_falsy. destruct (Py.or_ v (JList [])); intros H; simplify_eq.
  reflexivity.
Qed.

Lemma selection_price_ok (s : json) :
  selection_shaped s = true -> exists price, selection_price s = Ok price.
Proof.
  unfold selection_shaped, selection_price. intros H.
  apply andb_true_iff in H as [Hd Hs].
  rewrite (get_dict _ "trueOdds" Hd). cbn [bind].
  destruct (Py.truthy (field s "trueOdds")); cbn [bind]; [eauto|].
  rewrite (get_dict _ "displayOdds" Hd). cbn [bind]. unfold Py.or_.
  destruct (Py.truthy (field s "displayOdds")); cbn in Hs.
  - rewrite (get_dict _ "Decimal" Hs). cbn [bind]. eauto.
  - cbn. eauto.
Qed.

Lemma selection_shaped_dict (s : json) : selection_shaped s = true -> is_dict s = true.
Proof. unfold selection_shaped. intros H. apply andb_true_iff in H as [? _]. auto. Qed.

Section Total.
Context (P : platform).

Lemma ml_selections_ok ss legs :
  forallb selection_shaped ss = true -> exists legs', ml_selections P ss legs = Ok legs'.
Proof.
  revert legs. induction ss as [|s ss IH]; intros legs H; cbn in *; [eauto|].
  apply andb_true_iff in H as [Hs Hss].
  rewrite (get_dict _ "outcomeType" (selection_shaped_dict _ Hs)). cbn [bind].
  destruct (selection_price_ok _ Hs) as [price ->]. cbn [bind].
  repeat case_match; eauto.
Qed.

Lemma totals_selections_ok ss lines :
  forallb selection_shaped ss = true ->
  exists lines', totals_selections P ss lines = Ok lines'.
Proof.
  revert lines. induction ss as [|s ss IH]; intros lines H; cbn in *; [eauto|].
  apply andb_true_iff in H as [Hs Hss].
  pose proof (selection_shaped_dict _ Hs) as Hd.
  rewrite (get_dict _ "outcomeType" Hd), (get_dict _ "name" Hd),
          (get_dict _ "points" Hd). cbn [bind].
  destruct (totals_points _); [|eauto].
  destruct (selection_price_ok _ Hs) as [price ->]. cbn [bind].
  repeat case_match; eauto.
Qed.

Lemma handicap_selections_ok ss legs :
  forallb selection_shaped ss = true ->
  exists legs', handicap_selections P ss legs = Ok legs'.
Proof.
  revert legs. induction ss as [|s ss IH]; intros legs H; cbn in *; [eauto|].
  apply andb_true_iff in H as [Hs Hss].
  pose proof (selection_shaped_dict _ Hs) as Hd.
  rewrite (get_dict _ "outcomeType" Hd), (get_dict _ "points" Hd). cbn [bind].
  destruct (handicap_points _); [|eauto].
  destruct (selection_price_ok _ Hs) as [price ->]. cbn [bind].
  repeat case_match; eauto.
Qed.

Lemma market_step_ok now a m :
  market_shaped m = true -> exists a', market_step P now a m = Ok a'.
Proof.
  unfold market_shaped, market_step. intros H.
  apply andb_true_iff in H as [Hd Hs].
  rewrite (get_dict _ "name" Hd), (get_dict _ "marketTypeId" Hd),
          (get_dict _ "selections" Hd). cbn [bind].
  destruct (list_or_falsy (field m "selections")) as [ss|] eqn:E; [|discriminate].
  rewrite (iter_list_or_falsy _ _ E). cbn [bind].
  destruct (negb (ml_done a) && _).
  { destruct (ml_selections_ok ss {| home_p := None; draw_p := None; away_p := None |} Hs)
      as [legs ->]. cbn [bind]. repeat case_match; eauto. }
  destruct (_ || _).
  { destruct (totals_selections_ok ss (totals_lines a) Hs) as [l ->]. cbn [bind]. eauto. }
  destruct (_ || _); [|eauto].
  destruct (handicap_selections_ok ss
              {| home_pts := None; home_price := None;
                 away_pts := None; away_price := None |} Hs) as [l ->].
  cbn [bind]. repeat case_match; eauto.
Qed.

Lemma markets_loop_ok now ms a :
  forallb market_shaped ms = true -> exists a', markets_loop P now ms a = Ok a'.
Proof.
  revert a. induction ms as [|m ms IH]; intros a H; cbn in *; [eauto|].
  apply andb_true_iff in H as [Hm Hms].
  destruct (market_step_ok now a m Hm) as [a1 ->]. cbn [bind]. eauto.
Qed.

Lemma extract_ok now ev :
  event_shaped ev = true -> exists out, extract_markets_from_api P now ev = Ok out.
Proof.
  unfold event_shaped, extract_markets_from_api. intros H.
  apply andb_true_iff in H as [Hd Hs].
  rewrite (get_dict _ "markets" Hd). cbn [bind].
  destruct (list_or_falsy (field ev "markets")) as [ms|] eqn:E; [|discriminate].
  rewrite (iter_list_or_falsy _ _ E). cbn [bind].
  destruct (markets_loop_ok now ms acc0 Hs) as [a ->]. cbn [bind]. eauto.
Qed.

Lemma build_ok ev :
  is_dict ev = true -> exists it, build_item_skeleton_from_api P ev = Ok it.
Proof.
  intros Hd. unfold build_item_skeleton_from_api.
  rewrite !(get_dict _ _ Hd). cbn [bind]. eauto.
Qed.

End Total.

(* ===================================================================== *)
(** * The page and window loop *)
(* ===================================================================== *)

Section Loop.
Context (P : platform) (U : upstream) (a : args).

Lemma accept_bad (r : response) :
  good_response P r = false -> exists e, accept P r = Raise e.
Proof.
  destruct r as [|code body]; cbn; [eauto|].
  destruct (code =? 200); cbn; [|eauto].
  destruct body as [data|]; [|eauto].
  destruct data; cbn; eauto.
  destruct (String.eqb _ "200"); cbn; [discriminate | eauto].
Qed.

Lemma accept_ok (r : response) (data : json) :
  accept P r = Ok data -> good_response P r = true /\ is_dict data = true.
Proof.
  destruct (good_response P r) eqn:E.
  - intros H. split; [reflexivity|].
    destruct r as [|code body]; [discriminate|]. cbn in H.
    destruct (code =? 200); [|discriminate]. cbn in H.
    destruct body as [d|]; [|discriminate].
    destruct d; try discriminate. inv_bind H.
    destruct (String.eqb _ "200"); cbn in H; [|discriminate]. simplify_eq. reflexivity.
  - destruct (accept_bad r E) as [e ->]. discriminate.
Qed.

(** ** One page of events *)

Lemma collect_frame items c c' :
  collect P U items c = Ok c' ->
  start_ms c' = start_ms c /\ end_ms c' = end_ms c /\ page c' = page c /\
  n_posts c' = n_posts c /\
  (got_any_in_window c' = false ->
     got_any_in_window c = false /\ results c' = results c).
Proof.
  revert c. induction items as [|ev items IH]; intros c H; cbn in H.
  - simplify_eq. repeat split; auto.
  - inv_bind H. destruct (_ && _); [apply IH; exact H|].
    inv_bind H. inv_bind H. apply IH in H. cbn in H.
    destruct H as (H1 & H2 & H3 & H4 & Hg).
    split; [exact H1|]. split; [exact H2|]. split; [exact H3|]. split; [exact H4|].
    intros Hf. apply Hg in Hf as [Hf _]. discriminate.
Qed.

Lemma event_ids_app (evs1 evs2 : list json) :
  event_ids P (evs1 ++ evs2)%list = (event_ids P evs1 ++ event_ids P evs2)%list.
Proof. unfold event_ids. apply flat_map_app. Qed.

Lemma NoDup_snoc {A : Type} (l : list A) (x : A) :
  NoDup l -> ~ In x l -> NoDup (l ++ [x])%list.
Proof.
  intros Hl Hx. apply NoDup_app. repeat split; auto.
  - intros y Hy Hy'. apply list_elem_of_In in Hy, Hy'.
    destruct Hy' as [<-|[]]. auto.
  - apply NoDup_singleton.
Qed.

Lemma collect_inv items c c' :
  collect P U items c = Ok c' -> cursor_inv P U c -> cursor_inv P U c'.
Proof.
  revert c. induction items as [|ev items IH]; intros c H Hc; cbn in H.
  - simplify_eq. exact Hc.
  - inv_bind H. destruct (Str.nonempty x && bool_decide _) eqn:Hdup; [eauto|].
    inv_bind H. inv_bind H. apply IH in H; [exact H|]. clear H IH.
    destruct Hc as (evs & Hb & Hn & Hs).
    exists (evs ++ [ev])%list. cbn [results seen_event_ids].
    assert (Hid : event_ids P [ev] = if Str.nonempty x then [x] else []).
    { cbn. rewrite Hx. apply app_nil_r. }
    rewrite event_ids_app, Hid. split; [|split].
    + apply Forall2_app; [exact Hb|]. constructor; [|constructor].
      exists (n_extracts c), x0, x1. repeat split; auto; destruct x1; reflexivity.
    + destruct (Str.nonempty x); cbn in Hdup.
      * apply NoDup_snoc; [exact Hn|]. intros Hin. apply Hs in Hin.
        apply bool_decide_eq_false in Hdup. contradiction.
      * rewrite app_nil_r. exact Hn.
    + intros s. destruct (Str.nonempty x).
      * rewrite elem_of_union, elem_of_singleton, Hs, in_app_iff. cbn. intuition.
      * rewrite app_nil_r. apply Hs.
Qed.

(** ** One request *)

Lemma sent_inv c : cursor_inv P U c -> cursor_inv P U (sent c).
Proof. exact id. Qed.

Lemma end_of_window_def c :
  end_of_window a c =
  if got_any_in_window c then NextRequest (next_window a c) else Return (results c).
Proof. unfold end_of_window. destruct (got_any_in_window c); reflexivity. Qed.

Lemma open_window_ok c c' : open_window P c = Ok c' -> c' = c.
Proof. unfold open_window. intros H. inv_bind H. inv_bind H. congruence. Qed.

Lemma open_window_raise c e :
  open_window P c = Raise e ->
  window_label P (start_ms c) = Raise e \/ window_label P (end_ms c) = Raise e.
Proof.
  unfold open_window. intros H.
  destruct (window_label P (start_ms c)); cbn [bind] in H;
    [|injection H as ->; auto].
  destruct (window_label P (end_ms c)); cbn [bind] in H;
    [discriminate H | injection H as ->; auto].
Qed.

Lemma close_window_def c :
  close_window P a c =
  if got_any_in_window c
  then (c' <- open_window P (next_window a c) ;; Ok (NextRequest c'))
  else Ok (Return (results c)).
Proof.
  unfold close_window. rewrite end_of_window_def.
  destruct (got_any_in_window c); reflexivity.
Qed.

(** What [close_window] passes on, when it raises nothing. *)
Lemma close_window_ok c s :
  close_window P a c = Ok s ->
  s = if got_any_in_window c then NextRequest (next_window a c) else Return (results c).
Proof.
  rewrite close_window_def. destruct (got_any_in_window c); [|congruence].
  intros H. inv_bind H. apply open_window_ok in Hx. congruence.
Qed.

Lemma page_step_empty c data items :
  accept P (post U (n_posts c) (payload a c)) = Ok data ->
  items_of data = Ok items -> Py.truthy items = false ->
  page_step P U a c = close_window P a (sent c).
Proof.
  intros Ha Hi Ht. unfold page_step. rewrite Ha. cbn [bind].
  unfold items_of in Hi. inv_bind Hi. inv_bind Hi. simplify_eq.
  rewrite Hx. cbn [bind]. rewrite Hx0. cbn [bind]. rewrite Ht. reflexivity.
Qed.

Lemma page_step_items c data items evs c1 tp pn :
  accept P (post U (n_posts c) (payload a c)) = Ok data ->
  items_of data = Ok items -> Py.truthy items = true ->
  Py.iter items = Ok evs ->
  collect P U evs (sent c) = Ok c1 ->
  total_pages_of data = Ok tp ->
  page_now_of data (page c) = Ok pn ->
  page_step P U a c =
  if pn >=? tp then close_window P a c1 else Ok (NextRequest (next_page c1)).
Proof.
  intros Ha Hi Ht He Hc Htp Hpn. unfold page_step. rewrite Ha. cbn [bind].
  unfold items_of in Hi. inv_bind Hi. inv_bind Hi. simplify_eq.
  unfold total_pages_of in Htp. inv_bind Htp. inv_bind Htp.
  unfold page_now_of in Hpn. inv_bind Hpn. inv_bind Hpn. simplify_eq.
  assert (x1 = x) as -> by congruence. assert (x3 = x) as -> by congruence.
  rewrite Hx. cbn [bind]. rewrite Hx0. cbn [bind]. rewrite Ht. cbn [negb].
  rewrite He. cbn [bind]. rewrite Hc. cbn [bind].
  rewrite Hx2. cbn [bind]. rewrite Htp. cbn [bind]. rewrite Hx4. cbn [bind].
  destruct (collect_frame _ _ _ Hc) as (_ & _ & -> & _). cbn [page sent].
  rewrite Hpn. cbn [bind]. destruct (pn >=? tp); reflexivity.
Qed.

Lemma page_step_inv c s :
  page_step P U a c = Ok s -> cursor_inv P U c ->
  match s with
  | NextRequest c' => cursor_inv P U c'
  | Return r => distinct_events P U r
  end.
Proof.
  intros H Hc. unfold page_step in H.
  inv_bind H. inv_bind H. inv_bind H.
  assert (Hend : forall c1, cursor_inv P U c1 -> close_window P a c1 = Ok s ->
            match s with
            | NextRequest c' => cursor_inv P U c'
            | Return r => distinct_events P U r
            end).
  { intros c1 (evs & Hb & Hn & Hs) Hcl. apply close_window_ok in Hcl. subst s.
    destruct (got_any_in_window c1); [exists evs | exists evs]; auto. }
  destruct (negb (Py.truthy _)).
  - exact (Hend _ (sent_inv _ Hc) H).
  - inv_bind H. inv_bind H. inv_bind H. inv_bind H. inv_bind H. inv_bind H.
    pose proof (collect_inv _ _ _ Hx3 (sent_inv _ Hc)) as Hc1.
    destruct (_ >=? _); [exact (Hend _ Hc1 H)|]. simplify_eq. exact Hc1.
Qed.

(** ** The run *)

Lemma run_S fuel c :
  run P U a (S fuel) c =
  match page_step P U a c with
  | Raise e => (Raised e, [payload a c])
  | Ok (Return r) => (Returned r, [payload a c])
  | Ok (NextRequest c') =>
      let (o, log) := run P U a fuel c' in (o, payload a c :: log)
  end.
Proof. reflexivity. Qed.

Lemma run_inv fuel c :
  cursor_inv P U c ->
  match fst (run P U a fuel c) with
  | Returned r => distinct_events P U r
  | Running c' => distinct_events P U (results c')
  | Raised _ => True
  end.
Proof.
  revert c. induction fuel as [|fuel IH]; intros c Hc.
  - cbn. destruct Hc as (evs & ? & ? & _). exists evs. auto.
  - rewrite run_S. destruct (page_step P U a c) as [[c'|r]|e] eqn:E; cbn; [| |exact I].
    + pose proof (page_step_inv _ _ E Hc) as Hc'. specialize (IH c' Hc').
      destruct (run P U a fuel c'). exact IH.
    + exact (page_step_inv _ _ E Hc).
Qed.

(** A run of [k + fuel] requests is a run of [k] requests continued, when
    it is still running, from the cursor it reached. *)
Lemma run_app k fuel c :
  run P U a (k + fuel) c =
  match run P U a k c with
  | (Running c', log) =>
      (fst (run P U a fuel c'), (log ++ snd (run P U a fuel c'))%list)
  | done => done
  end.
Proof.
  revert c. induction k as [|k IH]; intros c.
  - cbn. destruct (run P U a fuel c). reflexivity.
  - cbn [Nat.add]. rewrite !run_S.
    destruct (page_step P U a c) as [[c'|r]|e]; try reflexivity.
    rewrite IH. destruct (run P U a k c') as [[r|e|c''] log]; reflexivity.
Qed.

Lemma cursor0_inv : cursor_inv P U (cursor0 U a).
Proof.
  exists []. cbn. repeat split; try constructor.
  - intros H. apply elem_of_empty in H. contradiction.
  - intros [].
Qed.

Lemma run_width fuel c :
  end_ms c = start_ms c + window_ms a ->
  Forall (fun r => endTime r = startTime r + window_ms a) (snd (run P U a fuel c)).
Proof.
  revert c. induction fuel as [|fuel IH]; intros c Hc; [constructor|].
  rewrite run_S. destruct (page_step P U a c) as [[c'|r]|e] eqn:E; cbn.
  - assert (Hc' : end_ms c' = start_ms c' + window_ms a).
    { unfold page_step in E. inv_bind E. inv_bind E. inv_bind E.
      destruct (negb (Py.truthy _)).
      - apply close_window_ok in E.
        destruct (got_any_in_window _); simplify_eq. cbn. lia.
      - repeat inv_bind E.
        destruct (collect_frame _ _ _ Hx3) as (Hs & He & _).
        destruct (_ >=? _).
        + apply close_window_ok in E.
          destruct (got_any_in_window _); simplify_eq. cbn. lia.
        + simplify_eq. cbn. rewrite Hs, He. exact Hc. }
    specialize (IH c' Hc'). destruct (run P U a fuel c'). cbn in *.
    constructor; [exact Hc | exact IH].
  - constructor; [exact Hc | constructor].
  - constructor; [exact Hc | constructor].
Qed.

End Loop.

Lemma page_step_ext P U (a1 a2 : args) c :
  hours_ahead a1 = hours_ahead a2 -> page_size a1 = page_size a2 ->
  page_num_start a1 = page_num_start a2 ->
  page_step P U a1 c = page_step P U a2 c.
Proof.
  intros Hh Hs Hp. unfold page_step, close_window, payload, end_of_window, window_ms.
  rewrite Hh, Hs, Hp. reflexivity.
Qed.

Lemma run_ext P U (a1 a2 : args) fuel c :
  hours_ahead a1 = hours_ahead a2 -> page_size a1 = page_size a2 ->
  page_num_start a1 = page_num_start a2 ->
  run P U a1 fuel c = run P U a2 fuel c.
Proof.
  intros Hh Hs Hp. revert c. induction fuel as [|fuel IH]; intros c; [reflexivity|].
  rewrite !run_S, (page_step_ext P U a1 a2 c Hh Hs Hp).
  destruct (page_step P U a2 c) as [[c'|r]|e]; unfold payload; rewrite ?Hs, ?IH; reflexivity.
Qed.

(** A run that is under way has opened its first window. *)
Lemma scrape_running P U a fuel :
  (exists e, open_window P (cursor0 U a) = Raise e /\
             scrape_api_only P U fuel a = (Raised e, [])) \/
  (open_window P (cursor0 U a) = Ok (cursor0 U a) /\
   scrape_api_only P U fuel a = run P U a fuel (cursor0 U a)).
Proof.
  unfold scrape_api_only. destruct (open_window P (cursor0 U a)) as [c|e] eqn:E.
  - right. apply open_window_ok in E as ->. auto.
  - left. eauto.
Qed.

(* ===================================================================== *)
(** * Sorted output when no point is NaN *)
(* ===================================================================== *)

Lemma compare_cont_Eq (p q : positive) : Pos.compare_cont Eq p q = (Zpos p ?= Zpos q).
Proof. reflexivity. Qed.

Lemma SFcompare_rank (x y : float) :
  Float.is_nan x = false -> Float.is_nan y = false ->
  SFcompare x y = Some (lex3 (float_rank x) (float_rank y)).
Proof.
  destruct x as [sx|sx| |sx mx ex], y as [sy|sy| |sy my ey]; try discriminate;
    intros _ _; try (destruct sx); try (destruct sy); try reflexivity.
  - cbn. unfold lex3. cbn [fst snd float_rank].
    rewrite Z.compare_opp, (Z.compare_antisym ex ey).
    destruct (ex ?= ey); reflexivity.
Qed.

Lemma lex3_lt_asym p q : lex3 p q = Lt -> lex3 q p <> Lt.
Proof.
  unfold lex3. destruct p as [[a b] c], q as [[a' b'] c']. cbn.
  destruct (Z.compare_spec a a'), (Z.compare_spec a' a); try lia; try discriminate;
  destruct (Z.compare_spec b b'), (Z.compare_spec b' b); try lia; try discriminate;
  destruct (Z.compare_spec c c'), (Z.compare_spec c' c); try lia; discriminate.
Qed.

Lemma lex3_lt_le_trans p q r : lex3 p r = Lt -> lex3 q r <> Lt -> lex3 p q = Lt.
Proof.
  unfold lex3. destruct p as [[a b] c], q as [[a' b'] c'], r as [[a'' b''] c'']. cbn.
  destruct (Z.compare_spec a a''), (Z.compare_spec a' a''), (Z.compare_spec a a');
    try lia; try discriminate; try congruence;
  destruct (Z.compare_spec b b''), (Z.compare_spec b' b''), (Z.compare_spec b b');
    try lia; try discriminate; try congruence;
  destruct (Z.compare_spec c c''), (Z.compare_spec c' c''), (Z.compare_spec c c');
    try lia; try discriminate; congruence.
Qed.

Lemma ltb_rank (x y : float) :
  Float.is_nan x = false -> Float.is_nan y = false ->
  Float.ltb x y = true <-> lex3 (float_rank x) (float_rank y) = Lt.
Proof.
  intros Hx Hy. unfold Float.ltb, SFltb. rewrite (SFcompare_rank x y Hx Hy).
  destruct (lex3 _ _); split; congruence.
Qed.

Lemma ltb_asym (x y : float) : Float.ltb x y = true -> Float.ltb y x = false.
Proof.
  intros H. destruct (Float.is_nan x) eqn:Hx; [destruct x; discriminate|].
  destruct (Float.is_nan y) eqn:Hy; [destruct x, y; discriminate|].
  apply not_true_is_false. intros H'.
  apply (ltb_rank x y Hx Hy) in H. apply (ltb_rank y x Hy Hx) in H'.
  exact (lex3_lt_asym _ _ H H').
Qed.

Lemma ltb_le_trans (x y z : float) :
  Float.is_nan y = false ->
  Float.ltb x z = true -> Float.ltb y z = false -> Float.ltb x y = true.
Proof.
  intros Hy Hxz Hyz.
  destruct (Float.is_nan x) eqn:Hx; [destruct x; discriminate|].
  destruct (Float.is_nan z) eqn:Hz; [destruct x, z; discriminate|].
  apply (ltb_rank x y Hx Hy). apply (ltb_rank x z Hx Hz) in Hxz.
  eapply lex3_lt_le_trans; [exact Hxz|].
  intros H. apply (ltb_rank y z Hy Hz) in H. congruence.
Qed.

Section SortSorted.
Context {A : Type} (key : A -> float).

Lemma insert_descending (x : A) (racc : list A) :
  Forall (fun y => Float.is_nan (key y) = false) racc ->
  descending key racc -> descending key (Sort.insert key x racc).
Proof.
  intros Hn Hs. induction Hs as [|y r Hr IH Hy]; cbn.
  - constructor; [constructor | constructor].
  - apply Forall_cons_1 in Hn as [Hny Hnr].
    destruct (Float.ltb (key x) (key y)) eqn:E.
    + constructor; [apply IH, Hnr|].
      eapply Permutation_Forall; [symmetry; apply insert_perm|].
      constructor; [apply ltb_asym, E | exact Hy].
    + constructor; [constructor; assumption|].
      constructor; [exact E|].
      apply List.Forall_forall. intros z Hz.
      apply not_true_is_false. intros Hxz.
      pose proof (proj1 (List.Forall_forall _ _) Hy z Hz) as Hyz.
      rewrite (ltb_le_trans _ _ _ Hny Hxz Hyz) in E. discriminate.
Qed.

Lemma fold_insert_descending (l racc : list A) :
  Forall (fun y => Float.is_nan (key y) = false) l ->
  Forall (fun y => Float.is_nan (key y) = false) racc ->
  descending key racc ->
  descending key (fold_left (fun racc x => Sort.insert key x racc) l racc).
Proof.
  revert racc. induction l as [|x l IH]; intros racc Hl Hr Hs; cbn; [exact Hs|].
  apply Forall_cons_1 in Hl as [Hx Hl].
  apply IH; [exact Hl | | apply insert_descending; assumption].
  eapply Permutation_Forall; [symmetry; apply insert_perm|]. constructor; assumption.
Qed.

Lemma descending_rev (l : list A) : descending key l -> ascending key (rev l).
Proof.
  intros H. induction H as [|x l Hl IH Hx]; cbn; [constructor|].
  unfold ascending.
  assert (G : forall l1 : list A,
             StronglySorted (fun a b => Float.ltb (key b) (key a) = false) l1 ->
             Forall (fun a => Float.ltb (key x) (key a) = false) l1 ->
             StronglySorted (fun a b => Float.ltb (key b) (key a) = false) (l1 ++ [x])).
  { intros l1 H1. induction H1 as [|a l1 H1 IH1 Ha]; intros F; cbn.
    - constructor; constructor.
    - apply Forall_cons_1 in F as [Fa F]. constructor; [apply IH1, F|].
      apply Forall_app. split; [exact Ha|]. constructor; [exact Fa | constructor]. }
  apply G; [exact IH|]. apply Forall_rev. exact Hx.
Qed.

(** Without NaN among the keys, [Sort.sort] sorts. *)
Lemma sort_ascending (l : list A) :
  Forall (fun y => Float.is_nan (key y) = false) l -> ascending key (Sort.sort key l).
Proof.
  intros H. unfold Sort.sort. apply descending_rev.
  apply fold_insert_descending; [exact H | constructor | constructor].
Qed.

End SortSorted.

(** The lines of the Totals and Handicap blocks stand in ascending order of
    [hdp] whenever no line of the block has a NaN [hdp]. *)
Lemma emitted_lines_ascending (P : platform) (now_iso : string) (ev : json)
    (out : list market) (b : market) :
  extract_markets_from_api P now_iso ev = Ok out -> In b out ->
  match m_odds b with
  | OddsML _ => True
  | OddsTotals l =>
      Forall (fun r => Float.is_nan (t_hdp r) = false) l -> ascending t_hdp l
  | OddsHandicap l =>
      Forall (fun r => Float.is_nan (h_hdp r) = false) l -> ascending h_hdp l
  end.
Proof.
  unfold extract_markets_from_api. intros H Hin.
  inv_bind H. inv_bind H. inv_bind H. simplify_eq.
  pose proof (markets_loop_ml P now_iso x0 acc0 x1 eq_refl eq_refl Hx1) as Hml.
  unfold emit in Hin. rewrite Hml in Hin.
  assert (HML : forall o, In b (ml_blocks now_iso o) ->
            match m_odds b with
            | OddsML _ => True
            | OddsTotals l =>
                Forall (fun r => Float.is_nan (t_hdp r) = false) l -> ascending t_hdp l
            | OddsHandicap l =>
                Forall (fun r => Float.is_nan (h_hdp r) = false) l -> ascending h_hdp l
            end).
  { intros [o|] Hb; [|destruct Hb]. destruct Hb as [<-|[]]. exact I. }
  assert (HS : forall (A : Type) (key : A -> float) (l : list A),
            Forall (fun r => Float.is_nan (key r) = false) (Sort.sort key l) ->
            ascending key (Sort.sort key l)).
  { intros A key l F. apply sort_ascending.
    eapply Permutation_Forall; [apply sort_perm | exact F]. }
  destruct (totals_out (totals_lines x1)) as [|r tl];
    destruct (handicap_lines x1) as [|kv hl];
    repeat match goal with
    | H : In _ (_ ++ _)%list |- _ => apply in_app_or in H as [H|H]
    | H : In _ (ml_blocks _ _) |- _ => exact (HML _ H)
    | H : In _ [_] |- _ => destruct H as [<-|[]]; cbn [m_odds]; apply HS
    end.
Qed.

(* ===================================================================== *)
(** * One entry per line *)
(* ===================================================================== *)

Lemma lex3_eq_sym p q : lex3 p q = Eq -> lex3 q p = Eq.
Proof.
  unfold lex3. destruct p as [[a b] c], q as [[a' b'] c']. cbn.
  destruct (Z.compare_spec a a'), (Z.compare_spec a' a); try lia; try discriminate;
  destruct (Z.compare_spec b b'), (Z.compare_spec b' b); try lia; try discriminate;
  destruct (Z.compare_spec c c'), (Z.compare_spec c' c); try lia; try discriminate;
  reflexivity.
Qed.

Lemma lex3_eq_trans p q r : lex3 p q = Eq -> lex3 q r = Eq -> lex3 p r = Eq.
Proof.
  unfold lex3. destruct p as [[a b] c], q as [[a' b'] c'], r as [[a'' b''] c'']. cbn.
  destruct (Z.compare_spec a a'), (Z.compare_spec a' a''), (Z.compare_spec a a'');
    try lia; try discriminate;
  destruct (Z.compare_spec b b'), (Z.compare_spec b' b''), (Z.compare_spec b b'');
    try lia; try discriminate;
  destruct (Z.compare_spec c c'), (Z.compare_spec c' c''), (Z.compare_spec c c'');
    try lia; try discriminate; reflexivity.
Qed.

Lemma eqb_not_nan (x y : float) :
  Float.eqb x y = true -> Float.is_nan x = false /\ Float.is_nan y = false.
Proof. destruct x, y; cbn; try discriminate; auto. Qed.

Lemma eqb_rank (x y : float) :
  Float.is_nan x = false -> Float.is_nan y = false ->
  Float.eqb x y = true <-> lex3 (float_rank x) (float_rank y) = Eq.
Proof.
  intros Hx Hy. unfold Float.eqb, SFeqb. rewrite (SFcompare_rank x y Hx Hy).
  destruct (lex3 _ _); split; congruence.
Qed.

Lemma eqb_sym (x y : float) : Float.eqb x y = Float.eqb y x.
Proof.
  assert (H : forall a b, Float.eqb a b = true -> Float.eqb b a = true).
  { intros a b E. destruct (eqb_not_nan _ _ E) as [Ha Hb].
    apply (eqb_rank b a Hb Ha), lex3_eq_sym, (eqb_rank a b Ha Hb), E. }
  destruct (Float.eqb x y) eqn:E1, (Float.eqb y x) eqn:E2; try reflexivity.
  - apply H in E1. congruence.
  - apply H in E2. congruence.
Qed.

Lemma eqb_trans (x y z : float) :
  Float.eqb x y = true -> Float.eqb y z = true -> Float.eqb x z = true.
Proof.
  intros E1 E2. destruct (eqb_not_nan _ _ E1) as [Hx Hy].
  destruct (eqb_not_nan _ _ E2) as [_ Hz].
  apply (eqb_rank x z Hx Hz).
  eapply lex3_eq_trans; [apply (eqb_rank x y Hx Hy), E1 | apply (eqb_rank y z Hy Hz), E2].
Qed.

(** Entries under distinct keys hold distinct points. *)
Lemma same_point_distinct (k1 k2 h1 h2 : float) :
  same_point k1 h1 -> same_point k2 h2 ->
  Float.eqb k1 k2 = false -> Float.eqb h1 h2 = false.
Proof.
  intros [E1|[_ N1]] [E2|[_ N2]] Hk.
  - apply not_true_is_false. intros E.
    assert (Float.eqb k1 k2 = true); [|congruence].
    eapply eqb_trans; [exact E1|]. eapply eqb_trans; [exact E|].
    rewrite eqb_sym. exact E2.
  - destruct h1, h2; try discriminate; reflexivity.
  - destruct h1, h2; try discriminate; reflexivity.
  - destruct h1, h2; try discriminate; reflexivity.
Qed.

Lemma same_point_refl (k : float) : same_point k k.
Proof.
  destruct k as [s|s| |s m e].
  - left. reflexivity.
  - left. destruct s; reflexivity.
  - right. split; reflexivity.
  - left. unfold Float.eqb, SFeqb. cbn.
    destruct s; rewrite Z.compare_refl, Pos.compare_cont_refl; reflexivity.
Qed.

Section DictKeys.
Context {V : Type} (hdp : V -> float).

Lemma upsert_fresh k v0 (f : V -> V) (d : FDict.t V) :
  Forall (fun kv => Float.eqb (fst kv) k = false) d ->
  FDict.upsert k v0 f d = (d ++ [(k, f v0)])%list.
Proof.
  intros H. induction H as [|[k' v] d Hk _ IH]; cbn; [reflexivity|].
  cbn in Hk. rewrite Hk, IH. reflexivity.
Qed.

Lemma upsert_keyed k v0 (f : V -> V) (d : FDict.t V) :
  (forall v, hdp (f v) = hdp v \/ hdp (f v) = k) -> hdp (f v0) = k ->
  keyed hdp d -> keyed hdp (FDict.upsert k v0 f d).
Proof.
  intros Hf H0. unfold keyed, distinct_keys.
  induction d as [|[k' v] d IH]; intros [Hd Hs]; cbn.
  - split; [constructor; constructor|]. constructor; [|constructor]. cbn.
    rewrite H0. apply same_point_refl.
  - inversion_clear Hd as [|? ? Hk' Hd'].
    apply Forall_cons_1 in Hs as [Hs1 Hs2]. cbn in Hs1.
    destruct (Float.eqb k' k) eqn:E.
    + split; [constructor; assumption|]. constructor; [|exact Hs2]. cbn.
      destruct (Hf v) as [-> | ->]; [exact Hs1 | left; exact E].
    + destruct (IH (conj Hd' Hs2)) as [IH1 IH2]. split.
      * constructor; [|exact IH1].
        clear IH IH1 IH2 Hd' Hs2. induction Hk' as [|[k2 v2] d Hk2 Hk' IHk]; cbn.
        -- constructor; [exact E | constructor].
        -- cbn in Hk2. destruct (Float.eqb k2 k); constructor; auto.
      * constructor; [exact Hs1 | exact IH2].
Qed.

Lemma keyed_values (d : FDict.t V) :
  keyed hdp d -> distinct_keys hdp (FDict.values d).
Proof.
  intros [Hd Hs]. unfold distinct_keys, FDict.values in *.
  induction Hd as [|[k v] d Hk Hd IH]; cbn; [constructor|].
  apply Forall_cons_1 in Hs as [Hs1 Hs2]. constructor; [|exact (IH Hs2)].
  apply List.Forall_forall. intros v' Hv'. apply List.in_map_iff in Hv' as ([k2 v2] & <- & Hin).
  pose proof (proj1 (List.Forall_forall _ _) Hk _ Hin) as Hkk.
  pose proof (proj1 (List.Forall_forall _ _) Hs2 _ Hin) as Hs'.
  exact (same_point_distinct _ _ _ _ Hs1 Hs' Hkk).
Qed.

End DictKeys.

Section DistinctLists.
Context {A : Type} (key : A -> float).

Lemma distinct_keys_perm (l l' : list A) :
  Permutation l l' -> distinct_keys key l -> distinct_keys key l'.
Proof.
  unfold distinct_keys. intros Hp. induction Hp as [|x l l' Hp IH|x y l|l l' l'' _ IH1 _ IH2].
  - auto.
  - intros H. inversion H as [|? ? Hx Hl]; subst. constructor; [|exact (IH Hl)].
    eapply Permutation_Forall; [exact Hp | exact Hx].
  - intros H. inversion H as [|? ? Hy Hl]; subst.
    inversion Hl as [|? ? Hx Hl']; subst.
    apply Forall_cons_1 in Hy as [Hyx Hy].
    constructor; [constructor; [rewrite eqb_sym; exact Hyx | exact Hx]|].
    constructor; assumption.
  - auto.
Qed.

Lemma distinct_keys_filter (f : A -> bool) (l : list A) :
  distinct_keys key l -> distinct_keys key (List.filter f l).
Proof.
  unfold distinct_keys. intros H. induction H as [|x l Hx Hl IH]; cbn; [constructor|].
  destruct (f x); [|exact IH]. constructor; [|exact IH].
  apply List.Forall_forall. intros y Hy. apply List.filter_In in Hy as [Hy _].
  exact (proj1 (List.Forall_forall _ _) Hx y Hy).
Qed.

Lemma distinct_keys_sort (l : list A) :
  distinct_keys key l -> distinct_keys key (Sort.sort key l).
Proof. apply distinct_keys_perm. symmetry. apply sort_perm. Qed.

End DistinctLists.

Section LinesDistinct.
Context (P : platform).

Lemma totals_selections_keyed ss lines lines' :
  totals_selections P ss lines = Ok lines' ->
  keyed t_hdp lines -> keyed t_hdp lines'.
Proof.
  revert lines. induction ss as [|s ss IH]; intros lines H Hl; cbn in H.
  - simplify_eq. exact Hl.
  - inv_bind H. inv_bind H. inv_bind H.
    destruct (totals_points x1) as [pts|]; [|eauto].
    inv_bind H. destruct (priced x2); cbn [negb] in H; [|eauto].
    apply IH in H; [exact H|]. apply upsert_keyed; [| |exact Hl].
    + intros v. left. repeat case_match; reflexivity.
    + repeat case_match; reflexivity.
Qed.

Lemma market_step_keyed now a m a' :
  market_step P now a m = Ok a' ->
  keyed t_hdp (totals_lines a) /\ keyed h_hdp (handicap_lines a) ->
  keyed t_hdp (totals_lines a') /\ keyed h_hdp (handicap_lines a').
Proof.
  intros H [Ht Hh]. unfold market_step in H.
  inv_bind H. inv_bind H. inv_bind H.
  destruct (negb (ml_done a) && main_1x2 _ _).
  - inv_bind H. inv_bind H. repeat case_match; simplify_eq; auto.
  - destruct (_ || _).
    { inv_bind H. inv_bind H. simplify_eq. cbn. split; [|exact Hh].
      eapply totals_selections_keyed; eauto. }
    destruct (_ || _); [|simplify_eq; auto].
    inv_bind H. inv_bind H. repeat case_match; simplify_eq; auto. cbn.
    split; [exact Ht|]. unfold FDict.set. apply upsert_keyed; auto.
Qed.

Lemma markets_loop_keyed now ms a a' :
  markets_loop P now ms a = Ok a' ->
  keyed t_hdp (totals_lines a) /\ keyed h_hdp (handicap_lines a) ->
  keyed t_hdp (totals_lines a') /\ keyed h_hdp (handicap_lines a').
Proof.
  revert a. induction ms as [|m ms IH]; intros a H Ha; cbn in H.
  - simplify_eq. exact Ha.
  - inv_bind H. eauto using market_step_keyed.
Qed.

(** A Totals or Handicap block holds one entry per line: no two of its
    entries have equal [hdp]. *)
Lemma emitted_lines_distinct (now_iso : string) (ev : json)
    (out : list market) (b : market) :
  extract_markets_from_api P now_iso ev = Ok out -> In b out ->
  match m_odds b with
  | OddsML l => length l = 1%nat
  | OddsTotals l => distinct_keys t_hdp l
  | OddsHandicap l => distinct_keys h_hdp l
  end.
Proof.
  unfold extract_markets_from_api. intros H Hin.
  inv_bind H. inv_bind H. inv_bind H. simplify_eq.
  pose proof (markets_loop_ml P now_iso x0 acc0 x1 eq_refl eq_refl Hx1) as Hml.
  destruct (markets_loop_keyed now_iso x0 acc0 x1 Hx1) as [Kt Kh].
  { split; split; constructor. }
  unfold emit in Hin. rewrite Hml in Hin.
  assert (HML : forall o, In b (ml_blocks now_iso o) ->
            match m_odds b with
            | OddsML l => length l = 1%nat
            | OddsTotals l => distinct_keys t_hdp l
            | OddsHandicap l => distinct_keys h_hdp l
            end).
  { intros [o|] Hb; [|destruct Hb]. destruct Hb as [<-|[]]. reflexivity. }
  pose proof (distinct_keys_filter t_hdp
                (fun v => priced (t_over v) && priced (t_under v)) _
                (keyed_values t_hdp _ Kt)) as Dt.
  fold (totals_out (totals_lines x1)) in Dt.
  pose proof (keyed_values h_hdp _ Kh) as Dh.
  destruct (totals_out (totals_lines x1)) as [|r tl];
    destruct (handicap_lines x1) as [|kv hl];
    repeat match goal with
    | H : In _ (_ ++ _)%list |- _ => apply in_app_or in H as [H|H]
    | H : In _ (ml_blocks _ _) |- _ => exact (HML _ H)
    | H : In _ [_] |- _ =>
        destruct H as [<-|[]]; cbn [m_odds]; apply distinct_keys_sort; assumption
    end.
Qed.

End LinesDistinct.

(* ===================================================================== *)
(** * Selections without a price *)
(* ===================================================================== *)

Lemma selection_skipped_ml P s rest legs :
  selection_price s = Ok None ->
  ml_selections P (s :: rest) legs = ml_selections P rest legs.
Proof.
  intros H. cbn [ml_selections].
  assert (Hd : is_dict s = true).
  { unfold selection_price in H. inv_bind H. eapply get_ok_dict; eauto. }
  rewrite (get_dict _ _ Hd). cbn [bind]. rewrite H. reflexivity.
Qed.

Lemma selection_skipped_totals P s rest lines :
  selection_price s = Ok None ->
  totals_selections P (s :: rest) lines = totals_selections P rest lines.
Proof.
  intros H. cbn [totals_selections].
  assert (Hd : is_dict s = true).
  { unfold selection_price in H. inv_bind H. eapply get_ok_dict; eauto. }
  rewrite !(get_dict _ _ Hd). cbn [bind]. rewrite H.
  destruct (totals_points _); reflexivity.
Qed.

Lemma selection_skipped_handicap P s rest legs :
  selection_price s = Ok None ->
  handicap_selections P (s :: rest) legs = handicap_selections P rest legs.
Proof.
  intros H. cbn [handicap_selections].
  assert (Hd : is_dict s = true).
  { unfold selection_price in H. inv_bind H. eapply get_ok_dict; eauto. }
  rewrite !(get_dict _ _ Hd). cbn [bind]. rewrite H.
  destruct (handicap_points _); reflexivity.
Qed.

(* ===================================================================== *)
(** * Decimal repair *)
(* ===================================================================== *)

Lemma format_comma (s : string) :
  format_decimal_str (JStr s) = format_decimal_str (JStr (Str.replace "," "." s)).
Proof. unfold format_decimal_str. rewrite replace_comma_idem. reflexivity. Qed.

Lemma totals_points_comma (s : string) :
  totals_points (JStr s) = totals_points (JStr (Str.replace "," "." s)).
Proof. unfold totals_points. rewrite replace_comma_idem. reflexivity. Qed.

Lemma handicap_points_comma (s : string) :
  handicap_points (JStr s) = handicap_points (JStr (Str.replace "," "." s)).
Proof. unfold handicap_points. rewrite replace_comma_idem. reflexivity. Qed.

(** C2, as amended. A comma decimal separator is normalized in every price
    string and every totals or handicap point string before parsing: the
    string and its comma-free form give the same result, and "1,950",
    "1.950" and "1.95" all give "1.950". The unicode minus U+2212 is
    normalized in Asian-handicap points only: such a point string parses to
    the same float as the identical string with an ASCII minus in its
    place. *)
Theorem C2_decimal_repair :
  format_decimal_str (JStr "1,950") = Some "1.950" /\
  format_decimal_str (JStr "1.950") = Some "1.950" /\
  format_decimal_str (JStr "1.95") = Some "1.950" /\
  (forall s, format_decimal_str (JStr s)
             = format_decimal_str (JStr (Str.replace "," "." s))) /\
  (forall s, totals_points (JStr s) = totals_points (JStr (Str.replace "," "." s))) /\
  (forall s, handicap_points (JStr s)
             = handicap_points (JStr (Str.replace "," "." s))) /\
  (forall a b, handicap_points (JStr (a ++ unicode_minus ++ b))
               = handicap_points (JStr (a ++ "-" ++ b))).
Proof.
  split; [vm_compute; reflexivity|].
  split; [vm_compute; reflexivity|].
  split; [vm_compute; reflexivity|].
  split; [exact format_comma|].
  split; [exact totals_points_comma|].
  split; [exact handicap_points_comma|].
  exact handicap_points_minus.
Qed.

(** C2, as stated, fails: in a price and in a totals point the unicode
    minus is not normalized; the value does not parse and is dropped, where
    the same text with an ASCII minus parses. *)
Lemma C2_minus_not_folded_in_price :
  format_decimal_str (JStr "−1.950") = None /\
  format_decimal_str (JStr "-1.950") = Some "-1.950" /\
  totals_points (JStr "−2.5") = None /\
  totals_points (JStr "-2.5") = Some (Sample.fl "-2.5") /\
  handicap_points (JStr "−2.5") = Some (Sample.fl "-2.5").
Proof. repeat split; vm_compute; reflexivity. Qed.

(* ===================================================================== *)
(** * Moneyline *)
(* ===================================================================== *)

(** The first market that is a confirmed primary with all three legs
    priced gives the one ML block of the output, wherever non-confirmed
    1X2-shaped markets stand around it. *)
Lemma first_complete_confirmed_kept (P : platform) (now_iso : string) (ev : json)
    (pre post : list json) (p : json) (o : ml_odds) (out : list market) :
  markets_of ev = Ok (pre ++ p :: post)%list ->
  ml_of_market P p = Ok (Some o) ->
  Forall (fun m => forall o', ml_of_market P m <> Ok (Some o')) pre ->
  extract_markets_from_api P now_iso ev = Ok out ->
  List.filter is_ML out = [ml_block now_iso (ml_home o) (ml_draw o) (ml_away o)].
Proof.
  intros Hms Hp Hpre Hout.
  destruct (extract_ML P _ _ _ Hout) as (ms & Hms' & ->).
  rewrite Hms in Hms'. injection Hms' as <-.
  rewrite (first_ml_app P _ p post o Hpre Hp). reflexivity.
Qed.

(* ===================================================================== *)
(** * Ordering of lines *)
(* ===================================================================== *)

(** C6, at the input where it fails. The point string "nan" parses, so its
    line is kept, and [sort] leaves the three lines as they stood: the
    entry of hdp 1.5 comes before the entry of hdp 0.5. *)
Theorem C6_nan_line_breaks_order :
  extract_markets_from_api Sample.platform0 "t" Sample.fixture_nan =
  Ok [ {| m_name := "Handicap"; m_updatedAt := "t";
          m_odds := OddsHandicap
            [ {| h_hdp := Sample.fl "1.5"; h_home := "1.900"; h_away := "1.900" |};
              {| h_hdp := S754_nan; h_home := "1.900"; h_away := "1.900" |};
              {| h_hdp := Sample.fl "0.5"; h_home := "1.900"; h_away := "1.900" |} ] |} ] /\
  Float.ltb (Sample.fl "0.5") (Sample.fl "1.5") = true.
Proof. split; vm_compute; reflexivity. Qed.

(* ===================================================================== *)
(** * Identity *)
(* ===================================================================== *)

(** The two test vectors of FIPS 180-4 for one-block and two-block
    messages, and the empty message. *)
Example sha256_test_vectors :
  SHA256.hexdigest "" =
    "e3b0c44298fc1c149afbf4c8996fb92427ae41e4649b934ca495991b7852b855" /\
  SHA256.hexdigest "abc" =
    "ba7816bf8f01cfea414140de5dae2223b00361a396177a9cb410ff61f20015ad" /\
  SHA256.hexdigest "abcdbcdecdefdefgefghfghighijhijkijkljklmklmnlmnomnopnopq" =
    "248d6a61d20638b8e5c026930c3e6039a33ce45964ff2167f6ecedd419db06c1".
Proof. repeat split; vm_compute; reflexivity. Qed.

Lemma compute_match_id_key home away date_iso :
  compute_match_id home away date_iso =
  sha_id (home ++ "__" ++ away ++ "__" ++ or_empty date_iso).
Proof.
  unfold compute_match_id. destruct date_iso as [[|c d]|]; reflexivity.
Qed.

Lemma build_item_id P ev it :
  build_item_skeleton_from_api P ev = Ok it ->
  exists ev_id,
    event_id P ev = Ok ev_id /\
    item_id it =
      sha_id (if Str.nonempty ev_id then ev_id
              else item_home it ++ "__" ++ item_away it ++ "__" ++ item_date it).
Proof.
  unfold build_item_skeleton_from_api, event_id. intros H.
  repeat inv_bind H. simplify_eq. rewrite Hx7. cbn [bind].
  eexists. split; [reflexivity|]. cbn.
  destruct (Str.nonempty _); [reflexivity|]. apply compute_match_id_key.
Qed.

Example match_id_of_event_id :
  to_option (build_item_skeleton_from_api Sample.platform0 (Sample.fixture (JInt 12345) []))
    ≫= (fun it => Some (item_id it)) = Some 384739777211.
Proof. vm_compute. reflexivity. Qed.

Example match_id_fallback :
  to_option (build_item_skeleton_from_api Sample.platform0 (Sample.fixture JNull []))
    ≫= (fun it => Some (item_id it, item_date it))
  = Some (sha_id "Porto__Braga__2024-01-01T00:00:00Z", "2024-01-01T00:00:00Z").
Proof. vm_compute. reflexivity. Qed.

(* ===================================================================== *)
(** * Fatal and absorbed failures *)
(* ===================================================================== *)

Lemma event_shaped_dict (ev : json) : event_shaped ev = true -> is_dict ev = true.
Proof. unfold event_shaped. intros H. apply andb_true_iff in H as [? _]. auto. Qed.

Lemma collect_ok P U evs c :
  forallb event_shaped evs = true -> exists c', collect P U evs c = Ok c'.
Proof.
  revert c. induction evs as [|ev evs IH]; intros c H; cbn in *; [eauto|].
  apply andb_true_iff in H as [Hev Hevs].
  pose proof (event_shaped_dict _ Hev) as Hd.
  unfold event_id. rewrite (get_dict _ _ Hd). cbn [bind].
  destruct (_ && _); [eauto|].
  destruct (build_ok P ev Hd) as [it ->]. cbn [bind].
  destruct (extract_ok P (now_iso U (n_extracts c)) ev Hev) as [out ->]. cbn [bind].
  eauto.
Qed.

Example forbidden_run :
  scrape_api_only Sample.platform0 Sample.upstream_forbidden 5 Sample.args0 =
  (Raised (RuntimeError "API status 403"),
   [ {| startTime := 1704000000000; endTime := 1704172800000;
        pageSize := 50; pageNum := 1 |} ]).
Proof. vm_compute. reflexivity. Qed.

Example unparseable_fields_absorbed :
  extract_markets_from_api Sample.platform0 "t"
    (Sample.fixture (JInt 1)
       [Sample.mkt "FT 1X2" [Sample.sel "home" (JStr "1.90"); Sample.sel_unparseable;
                             Sample.sel "away" (JList [])];
        Sample.mkt "FT O/U" [Sample.selp "Over" (JStr "two") (JStr "1.85");
                             Sample.selp "Under" (JStr "2.5") JNull]]) = Ok [] /\
  date_iso_of Sample.platform0 (JStr "soon") = None.
Proof. split; vm_compute; reflexivity. Qed.

(* ===================================================================== *)
(** * Unused limits *)
(* ===================================================================== *)

(** C10. Two runs against the same upstream that differ only in
    [max_matches] and [exhaust] send the same requests and end the same
    way, with the same results: neither argument is read, and the results
    are not cut to [max_matches]. *)
Theorem C10_limits_do_not_interfere (P : platform) (U : upstream) (fuel : nat)
    (a : args) (m1 m2 : option Z) (e1 e2 : bool) :
  scrape_api_only P U fuel (with_limits a m1 e1) =
  scrape_api_only P U fuel (with_limits a m2 e2).
Proof.
  unfold scrape_api_only.
  replace (cursor0 U (with_limits a m2 e2)) with (cursor0 U (with_limits a m1 e1))
    by reflexivity.
  destruct (open_window P _); [|reflexivity].
  apply run_ext; reflexivity.
Qed.

Example max_matches_does_not_truncate :
  let (o, _) := scrape_api_only Sample.platform0 Sample.upstream_dup 10
                  (with_limits Sample.args0 (Some 1) false) in
  match o with
  | Returned r => length r
  | _ => 0%nat
  end = 2%nat.
Proof. vm_compute. reflexivity. Qed.

(* ===================================================================== *)
(** * Decimal text of integers *)
(* ===================================================================== *)

Lemma uint_all_digits (u : Decimal.uint) :
  all_digits (NilEmpty.string_of_uint u) = true.
Proof. unfold all_digits. induction u; cbn; auto. Qed.

Lemma digits_val_acc (u : Decimal.uint) (acc : positive) :
  fold_left (fun acc c => 10 * acc + Str.digit_val c)
            (list_ascii_of_string (NilEmpty.string_of_uint u)) (Zpos acc)
  = Zpos (Pos.of_uint_acc u acc).
Proof.
  revert acc. induction u; intros acc; cbn [NilEmpty.string_of_uint
    list_ascii_of_string fold_left Pos.of_uint_acc]; [reflexivity|..];
    rewrite <- IHu; f_equal; unfold Str.digit_val;
    match goal with
    | |- context [Z.of_nat (nat_of_ascii ?c)] =>
        let v := eval vm_compute in (Z.of_nat (nat_of_ascii c)) in
        change (Z.of_nat (nat_of_ascii c)) with v
    end; lia.
Qed.

Lemma digits_val_uint (u : Decimal.uint) :
  Float.digits_val (list_ascii_of_string (NilEmpty.string_of_uint u))
  = Z.of_N (Pos.of_uint u).
Proof.
  unfold Float.digits_val. induction u;
    cbn [NilEmpty.string_of_uint list_ascii_of_string fold_left Pos.of_uint];
    [reflexivity | exact IHu | ..]; apply digits_val_acc.
Qed.

(** [str(n)] of a natural number: its decimal digits, at least one. *)
Lemma of_Z_uint (n : Z) :
  0 <= n ->
  exists u, Str.of_Z n = NilEmpty.string_of_uint u /\ u <> Decimal.Nil /\
            Z.of_N (Pos.of_uint u) = n.
Proof.
  intros Hn. destruct n as [|p|p]; [| |lia].
  - exists (Decimal.D0 Decimal.Nil). repeat split; discriminate.
  - exists (Pos.to_uint p). unfold Str.of_Z. cbn [Z.to_int NilZero.string_of_int].
    pose proof (DecimalPos.Unsigned.to_uint_nonnil p) as Hnil.
    repeat split; [|exact Hnil|].
    + unfold NilZero.string_of_uint. destruct (Pos.to_uint p); congruence.
    + rewrite DecimalPos.Unsigned.of_to. reflexivity.
Qed.

Lemma uint_nonempty (u : Decimal.uint) :
  u <> Decimal.Nil -> Str.nonempty (NilEmpty.string_of_uint u) = true.
Proof. destruct u; [congruence|..]; reflexivity. Qed.

Lemma of_Z_all_digits (n : Z) :
  0 <= n -> Str.nonempty (Str.of_Z n) = true /\ all_digits (Str.of_Z n) = true.
Proof.
  intros Hn. destruct (of_Z_uint n Hn) as (u & -> & Hu & _).
  split; [apply uint_nonempty, Hu | apply uint_all_digits].
Qed.

Lemma digit_plain (c : ascii) :
  Str.is_digit c = true ->
  Str.is_space c = false /\ Float.is_underscore c = false /\
  c <> "+"%char /\ c <> "-"%char.
Proof.
  destruct c as [[] [] [] [] [] [] [] []]; vm_compute; intros H;
    try discriminate H; repeat split; discriminate.
Qed.

Lemma lstrip_digits (l : list ascii) :
  forallb Str.is_digit l = true -> Str.lstrip l = l.
Proof.
  destruct l as [|c l]; [reflexivity|]. cbn. intros H.
  apply andb_true_iff in H as [Hc _].
  destruct (digit_plain c Hc) as (-> & _). reflexivity.
Qed.

Lemma forallb_rev {A : Type} (f : A -> bool) (l : list A) :
  forallb f (rev l) = forallb f l.
Proof.
  induction l as [|x l IH]; [reflexivity|]. cbn.
  rewrite forallb_app, IH. cbn. rewrite andb_true_r. apply andb_comm.
Qed.

Lemma strip_digits (l : list ascii) :
  forallb Str.is_digit l = true -> Str.strip l = l.
Proof.
  intros H. unfold Str.strip. rewrite (lstrip_digits l H).
  rewrite lstrip_digits by (rewrite forallb_rev; exact H).
  apply rev_involutive.
Qed.

Lemma split_sign_digits (l : list ascii) :
  forallb Str.is_digit l = true -> Float.split_sign l = (false, l).
Proof.
  destruct l as [|c l]; [reflexivity|]. cbn [forallb]. intros H.
  apply andb_true_iff in H as [Hc _].
  destruct (digit_plain c Hc) as (_ & _ & Hp & Hm).
  unfold Float.split_sign.
  destruct c as [[] [] [] [] [] [] [] []]; try reflexivity; congruence.
Qed.

Lemma drop_underscores_digits (prev : ascii) (l : list ascii) :
  Float.is_underscore prev = false -> forallb Str.is_digit l = true ->
  Float.drop_underscores prev l = Some l.
Proof.
  revert prev. induction l as [|c l IH]; intros prev Hp H; cbn.
  - rewrite Hp. reflexivity.
  - cbn in H. apply andb_true_iff in H as [Hc H].
    destruct (digit_plain c Hc) as (_ & Hu & _).
    rewrite Hu, Hp. cbn. rewrite (IH c Hu H). reflexivity.
Qed.

(** [int(str(n)) == n] and [str(n).isdigit()], for a natural number. *)
Lemma int_of_string_of_Z (n : Z) :
  0 <= n -> Py.isdigit (Str.of_Z n) = true /\ Py.int_of_string (Str.of_Z n) = Ok n.
Proof.
  intros Hn. destruct (of_Z_uint n Hn) as (u & Hs & Hu & Hv).
  pose proof (uint_all_digits u) as Hd. pose proof (uint_nonempty u Hu) as Hne.
  rewrite Hs. split.
  - unfold Py.isdigit. rewrite Hne. exact Hd.
  - unfold Py.int_of_string. unfold all_digits in Hd.
    rewrite (strip_digits _ Hd), (split_sign_digits _ Hd).
    rewrite (drop_underscores_digits Ascii.zero _ eq_refl Hd).
    destruct (list_ascii_of_string (NilEmpty.string_of_uint u)) as [|c l] eqn:El.
    + destruct u; [congruence | discriminate El ..].
    + rewrite Hd. cbn [cond_Zopp]. rewrite <- El, digits_val_uint, Hv. reflexivity.
Qed.

(* ===================================================================== *)
(** * The timestamp of a fixture *)
(* ===================================================================== *)

Lemma date_iso_of_digits (P : platform) (n : Z) :
  0 <= n -> date_iso_of P (JStr (Str.of_Z n)) = date_iso_of P (JInt n).
Proof.
  intros Hn. destruct (int_of_string_of_Z n Hn) as [Hd Hi].
  unfold date_iso_of. rewrite Hd, Hi. reflexivity.
Qed.

Lemma date_iso_of_text (P : platform) (s : string) :
  Py.isdigit s = false -> date_iso_of P (JStr s) = None.
Proof. intros Hd. unfold date_iso_of. rewrite Hd. reflexivity. Qed.

Lemma build_date (P : platform) (ev : json) (it : item) :
  build_item_skeleton_from_api P ev = Ok it ->
  item_date it = or_empty (date_iso_of P (field ev "eventTime")).
Proof.
  destruct ev; try discriminate. unfold build_item_skeleton_from_api.
  cbn [Py.get bind field]. intros H. injection H as <-. reflexivity.
Qed.

(** X3. An [eventTime] given as the decimal text of a natural number gives
    the same [date] as that number given as an integer. An ASCII string
    that is not all digits (a formatted date, a signed or spaced number, the
    empty string) gives the empty [date]. *)
Theorem event_time_as_text (P : platform) :
  (forall ev1 ev2 it1 it2 n,
     0 <= n ->
     field ev1 "eventTime" = JStr (Str.of_Z n) ->
     field ev2 "eventTime" = JInt n ->
     build_item_skeleton_from_api P ev1 = Ok it1 ->
     build_item_skeleton_from_api P ev2 = Ok it2 ->
     item_date it1 = item_date it2) /\
  (forall ev it s,
     field ev "eventTime" = JStr s -> is_ascii s = true -> Py.isdigit s = false ->
     build_item_skeleton_from_api P ev = Ok it ->
     item_date it = "").
Proof.
  split.
  - intros ev1 ev2 it1 it2 n Hn H1 H2 B1 B2.
    rewrite (build_date P ev1 it1 B1), (build_date P ev2 it2 B2), H1, H2.
    rewrite (date_iso_of_digits P n Hn). reflexivity.
  - intros ev it s Hs _ Hd B.
    rewrite (build_date P ev it B), Hs, (date_iso_of_text P s Hd). reflexivity.
Qed.

(** The timestamp "1704067200000" and the integer 1704067200000; the text
    "2024-01-01" gives no date. *)
Example event_time_samples :
  let ev t := JDict [("homeTeamName", JStr "Porto"); ("eventTime", t)] in
  let date t := match build_item_skeleton_from_api Sample.platform0 (ev t) with
                | Ok it => Some (item_date it)
                | Raise _ => None
                end in
  date (JStr "1704067200000") = Some "2024-01-01T00:00:00Z" /\
  date (JInt 1704067200000) = Some "2024-01-01T00:00:00Z" /\
  date (JStr "2024-01-01") = Some "" /\
  date (JStr " 1704067200000") = Some "".
Proof. vm_compute. repeat split; reflexivity. Qed.

(* ===================================================================== *)
(** * The range of match ids *)
(* ===================================================================== *)

Lemma hex_val_digit (d : Z) : 0 <= d < 16 -> hex_val (SHA256.hex_digit d) = d.
Proof.
  intros H.
  assert (d = 0 \/ d = 1 \/ d = 2 \/ d = 3 \/ d = 4 \/ d = 5 \/ d = 6 \/ d = 7 \/
          d = 8 \/ d = 9 \/ d = 10 \/ d = 11 \/ d = 12 \/ d = 13 \/ d = 14 \/ d = 15)
    as Hd by lia.
  repeat (destruct Hd as [-> | Hd]; [reflexivity|]). subst d. reflexivity.
Qed.

Lemma chars_app (s t : string) :
  list_ascii_of_string (s ++ t) = (list_ascii_of_string s ++ list_ascii_of_string t)%list.
Proof. induction s as [|c s IH]; [reflexivity|]. cbn. rewrite <- IH. reflexivity. Qed.

Lemma hex8_chars (x : Z) : Forall hex_char (list_ascii_of_string (SHA256.hex8 x)).
Proof.
  unfold SHA256.hex8. rewrite list_ascii_of_string_of_list_ascii.
  apply Forall_map, Forall_forall. intros i _. unfold hex_char.
  rewrite hex_val_digit; apply Z.mod_pos_bound; lia.
Qed.

Lemma concat_chars (Q : ascii -> Prop) (l : list string) :
  Forall (fun s => Forall Q (list_ascii_of_string s)) l ->
  Forall Q (list_ascii_of_string (String.concat "" l)).
Proof.
  induction 1 as [|s l Hs Hl IH]; [constructor|].
  cbn [String.concat]. destruct l as [|s' l']; [exact Hs|].
  rewrite chars_app. apply Forall_app. split; [exact Hs|].
  cbn ["++"%string]. exact IH.
Qed.

Lemma hexdigest_chars (s : string) :
  Forall hex_char (list_ascii_of_string (SHA256.hexdigest s)).
Proof.
  unfold SHA256.hexdigest. apply concat_chars, Forall_map, Forall_forall.
  intros x _. apply hex8_chars.
Qed.

(** [s[:n]]: at most [n] characters, all of them characters of [s]. *)
Lemma take_chars (Q : ascii -> Prop) (n : nat) (s : string) :
  Forall Q (list_ascii_of_string s) ->
  Forall Q (list_ascii_of_string (Str.take n s)) /\
  (length (list_ascii_of_string (Str.take n s)) <= n)%nat.
Proof.
  unfold Str.take. revert n. induction s as [|c s IH]; intros n H.
  - destruct n; cbn; split; auto; lia.
  - destruct n as [|n]; cbn [String.substring list_ascii_of_string].
    + split; [constructor | cbn; lia].
    + apply Forall_cons_1 in H as [Hc H]. destruct (IH n H) as [IH1 IH2].
      split; [constructor; assumption | cbn [length]; lia].
Qed.

Lemma int_of_hex_bound (l : list ascii) (acc : Z) :
  Forall hex_char l -> 0 <= acc ->
  0 <= fold_left (fun acc c => 16 * acc + hex_val c) l acc
    < (acc + 1) * 16 ^ Z.of_nat (length l).
Proof.
  intros H. revert acc. induction H as [|c l Hc _ IH]; intros acc Hacc.
  - cbn. lia.
  - cbn [fold_left length]. unfold hex_char in Hc.
    specialize (IH (16 * acc + hex_val c) ltac:(lia)).
    rewrite Nat2Z.inj_succ, Z.pow_succ_r by lia.
    assert (0 < 16 ^ Z.of_nat (length l)) by (apply Z.pow_pos_nonneg; lia).
    nia.
Qed.

Lemma sha_id_range (key : string) : 0 <= sha_id key < 2 ^ 40.
Proof.
  unfold sha_id, int_of_hex.
  destruct (take_chars hex_char 10 (SHA256.hexdigest key) (hexdigest_chars key))
    as [Hc Hl].
  pose proof (int_of_hex_bound _ 0 Hc ltac:(lia)) as [H0 H1].
  split; [exact H0|]. eapply Z.lt_le_trans; [exact H1|].
  change (2 ^ 40) with (16 ^ 10). rewrite Z.mul_1_l.
  apply Z.pow_le_mono_r; lia.
Qed.

(** X2. A match id is a natural number below 2^40, whichever way it is
    derived: by [compute_match_id] from home, away and date, or in
    [build_item_skeleton_from_api] from the upstream event id. *)
Theorem match_id_range :
  (forall home away date_iso, 0 <= compute_match_id home away date_iso < 2 ^ 40) /\
  (forall P ev it,
     build_item_skeleton_from_api P ev = Ok it -> 0 <= item_id it < 2 ^ 40).
Proof.
  split.
  - intros home away date_iso. unfold compute_match_id. apply sha_id_range.
  - intros P ev it H. destruct ev; try discriminate.
    unfold build_item_skeleton_from_api in H. cbn [Py.get bind] in H.
    injection H as <-. cbn [item_id].
    match goal with |- context [if ?b then _ else _] => destruct b end.
    + apply sha_id_range.
    + unfold compute_match_id. apply sha_id_range.
Qed.

(* ===================================================================== *)
(** * The shape of a price string *)
(* ===================================================================== *)

Lemma div_half_even_nonneg (a b : Z) : 0 <= a -> 0 < b -> 0 <= Float.div_half_even a b.
Proof.
  intros Ha Hb. unfold Float.div_half_even.
  assert (0 <= a / b) by (apply Z.div_pos; lia).
  destruct (2 * (a mod b) ?= b); [destruct (Z.even (a / b))|..]; lia.
Qed.

Lemma thousandths_nonneg (m : positive) (e : Z) : 0 <= Float.thousandths m e.
Proof.
  unfold Float.thousandths. destruct (0 <=? e) eqn:He.
  - apply Z.leb_le in He.
    assert (0 < 2 ^ e) by (apply Z.pow_pos_nonneg; lia). nia.
  - apply Z.leb_gt in He. apply div_half_even_nonneg; [lia|].
    apply Z.pow_pos_nonneg; lia.
Qed.

Lemma pad3_digits (n : Z) :
  0 <= n < 1000 ->
  String.length (Float.pad3 n) = 3%nat /\ all_digits (Float.pad3 n) = true.
Proof.
  intros Hn.
  assert (forallb (fun k => let s := Float.pad3 (Z.of_nat k) in
                            Nat.eqb (String.length s) 3 && all_digits s)
                  (seq 0 1000) = true) as Hall by (vm_compute; reflexivity).
  rewrite forallb_forall in Hall.
  specialize (Hall (Z.to_nat n) ltac:(apply in_seq; lia)).
  rewrite Z2Nat.id in Hall by lia. cbv zeta in Hall.
  apply andb_true_iff in Hall as [Hl Hd].
  split; [apply Nat.eqb_eq, Hl | exact Hd].
Qed.

Lemma format_3f_shape (x : float) :
  Float.format_3f x = "nan" \/ Float.format_3f x = "inf" \/
  Float.format_3f x = "-inf" \/ fixed3 (Float.format_3f x).
Proof.
  destruct x as [s|s| |s m e]; cbn [Float.format_3f].
  - do 3 right. exists s, "0", "000". repeat split; reflexivity.
  - destruct s; [right; right; left | right; left]; reflexivity.
  - left. reflexivity.
  - do 3 right.
    pose proof (thousandths_nonneg m e) as Ht.
    exists s, (Str.of_Z (Float.thousandths m e / 1000)),
           (Float.pad3 (Float.thousandths m e mod 1000)).
    destruct (of_Z_all_digits (Float.thousandths m e / 1000)) as [Hne Hd];
      [apply Z.div_pos; lia|].
    destruct (pad3_digits (Float.thousandths m e mod 1000)) as [Hl Hp];
      [apply Z.mod_pos_bound; lia|].
    repeat split; assumption.
Qed.

(** X1. Whatever value it is given, [format_decimal_str] returns [None] or
    fixed-point text with exactly three decimals (an optional minus sign,
    digits, a dot, three digits), never an empty string and never
    scientific notation; the only other results are "nan", "inf" and
    "-inf", for the values [float()] reads as such. *)
Theorem format_decimal_str_shape (value : json) (p : string) :
  format_decimal_str value = Some p ->
  p = "nan" \/ p = "inf" \/ p = "-inf" \/ fixed3 p.
Proof.
  intros H. destruct (format_is_price value p H) as [x ->].
  apply format_3f_shape.
Qed.

Lemma format_decimal_str_shape_witness :
  format_decimal_str (JStr "1e3") = Some "1000.000" /\
  ("1000.000" = "nan" \/ "1000.000" = "inf" \/ "1000.000" = "-inf" \/ fixed3 "1000.000").
Proof.
  split; [reflexivity|].
  exact (format_decimal_str_shape (JStr "1e3") "1000.000" eq_refl).
Defined.

(** The three results that are not fixed-point text. *)
Example format_decimal_str_nonfinite :
  format_decimal_str (JStr "NaN") = Some "nan" /\
  format_decimal_str (JStr "Infinity") = Some "inf" /\
  format_decimal_str (JStr "-1e999") = Some "-inf" /\
  format_decimal_str (JInt (10 ^ 400)) = None.
Proof. vm_compute. repeat split; reflexivity. Qed.

(* ===================================================================== *)
(** * The blocks of a fixture *)
(* ===================================================================== *)

Section Blocks.
Context (P : platform).

(** The function is the loop over the fixture's markets, then [emit]. *)
Lemma extract_via_loop now ev ms :
  markets_of ev = Ok ms ->
  extract_markets_from_api P now ev =
  (a <- markets_loop P now ms acc0 ;; Ok (emit now a)).
Proof.
  unfold markets_of, extract_markets_from_api. intros H.
  inv_bind H. rewrite Hx. cbn [bind]. rewrite H. reflexivity.
Qed.

Lemma extract_loop now ev out :
  extract_markets_from_api P now ev = Ok out ->
  exists ms a, markets_of ev = Ok ms /\
               markets_loop P now ms acc0 = Ok a /\ out = emit now a /\
               markets_out a = ml_blocks now (first_ml P ms).
Proof.
  unfold extract_markets_from_api. intros H.
  inv_bind H. inv_bind H. inv_bind H. injection H as <-.
  exists x0, x1. unfold markets_of. rewrite Hx. cbn [bind].
  repeat split; try assumption.
  exact (markets_loop_ml P now x0 acc0 x1 eq_refl eq_refl Hx1).
Qed.

(** The blocks [emit] returns, one by one. *)
Lemma In_emit now a o b :
  markets_out a = ml_blocks now o -> In b (emit now a) ->
  (exists e, o = Some e /\ b = ml_block now (ml_home e) (ml_draw e) (ml_away e)) \/
  (totals_out (totals_lines a) <> [] /\
   b = {| m_name := "Totals"; m_updatedAt := now;
          m_odds := OddsTotals (Sort.sort t_hdp (totals_out (totals_lines a))) |}) \/
  (handicap_lines a <> [] /\
   b = {| m_name := "Handicap"; m_updatedAt := now;
          m_odds := OddsHandicap (Sort.sort h_hdp (FDict.values (handicap_lines a))) |}).
Proof.
  intros Hm. unfold emit. rewrite Hm.
  destruct (totals_out (totals_lines a)) as [|t tl] eqn:Et;
    destruct (handicap_lines a) as [|h hl] eqn:Eh;
    destruct o as [e|]; cbn [ml_blocks app In];
    intros Hb; repeat (destruct Hb as [<- | Hb]); try contradiction;
    first [ left; eexists; split; reflexivity
          | right; left; split; [discriminate | reflexivity]
          | right; right; split; [discriminate | reflexivity] ].
Qed.

Lemma sort_nonempty {A : Type} (key : A -> float) (l : list A) :
  l <> [] -> Sort.sort key l <> [].
Proof.
  intros Hl Hs. pose proof (sort_perm key l) as Hp. rewrite Hs in Hp.
  apply Permutation_nil in Hp. contradiction.
Qed.

(** X4. The output holds at most one ML, one Totals and one Handicap
    block, in that order and nothing else; each block is stamped with the
    clock reading taken on entry, an ML block has exactly one entry, and a
    Totals or Handicap block is never empty. *)
Theorem blocks_layout (now_iso : string) (ev : json) (out : list market) :
  extract_markets_from_api P now_iso ev = Ok out ->
  sublist (map m_name out) ["ML"; "Totals"; "Handicap"] /\
  Forall (block_ok now_iso) out.
Proof.
  intros H. destruct (extract_loop _ _ _ H) as (ms & a & _ & _ & -> & Hm).
  split.
  - unfold emit. rewrite Hm.
    destruct (first_ml P ms), (totals_out (totals_lines a)), (handicap_lines a);
      cbn [ml_blocks ml_block map app m_name];
      repeat first [ apply sublist_nil | apply sublist_skip | apply sublist_cons ].
  - apply List.Forall_forall. intros b Hb.
    destruct (In_emit _ _ _ _ Hm Hb) as [(e & _ & ->) | [[Hne ->] | [Hne ->]]];
      (split; [reflexivity|]); cbn [m_odds m_name ml_block].
    + split; reflexivity.
    + split; [reflexivity | apply sort_nonempty, Hne].
    + split; [reflexivity|]. apply sort_nonempty.
      destruct (handicap_lines a); [congruence | discriminate].
Qed.

End Blocks.

Lemma blocks_layout_witness :
  extract_markets_from_api Sample.platform0 "t"
    (Sample.fixture (JInt 1)
       [Sample.totals_market; Sample.hc_market "0.5" "-0.5"; Sample.ml_market]) =
  Ok [ ml_block "t" "1.900" "3.400" "4.100";
       {| m_name := "Totals"; m_updatedAt := "t";
          m_odds := OddsTotals [ {| t_hdp := Sample.fl "2.5"; t_over := Some "1.850";
                                    t_under := Some "1.950" |} ] |};
       {| m_name := "Handicap"; m_updatedAt := "t";
          m_odds := OddsHandicap [ {| h_hdp := Sample.fl "0.5"; h_home := "1.900";
                                      h_away := "1.900" |} ] |} ] /\
  sublist ["ML"; "Totals"; "Handicap"] ["ML"; "Totals"; "Handicap"].
Proof.
  split; [reflexivity|].
  exact (proj1 (blocks_layout Sample.platform0 "t"
                  (Sample.fixture (JInt 1)
                     [Sample.totals_market; Sample.hc_market "0.5" "-0.5"; Sample.ml_market])
                  _ eq_refl)).
Defined.

(* ===================================================================== *)
(** * Markets the normalizer does not read *)
(* ===================================================================== *)

Section Routing.
Context (P : platform).

Lemma market_step_unrouted now a m :
  routed P m = false -> market_step P now a m = Ok a.
Proof.
  unfold routed, market_name, market_type, totals_test, handicap_test, market_step.
  destruct m; try discriminate. cbn [Py.get bind]. intros H.
  apply orb_false_iff in H as [H Hh]. apply orb_false_iff in H as [Hm Ht].
  rewrite Hm, Ht, Hh, andb_false_r. reflexivity.
Qed.

Lemma markets_loop_routed now ms a :
  markets_loop P now (List.filter (routed P) ms) a = markets_loop P now ms a.
Proof.
  revert a. induction ms as [|m ms IH]; intros a; [reflexivity|].
  cbn [List.filter markets_loop]. destruct (routed P m) eqn:Hr.
  - cbn [markets_loop]. destruct (market_step P now a m); [apply IH | reflexivity].
  - rewrite (market_step_unrouted now a m Hr). cbn [bind]. apply IH.
Qed.

Lemma literal_without (sub name lit : string) :
  Str.contains sub name = true -> Str.contains sub lit = false ->
  String.eqb name lit = false.
Proof.
  intros Hn Hl. destruct (String.eqb_spec name lit) as [->|]; congruence.
Qed.

(** X5. A market that passes none of the three tests (the exact names
    "ft 1x2", "ft o/u", "ft asian handicap" and the type codes "ml0",
    "ou0", "hc0", case folded) is skipped whatever it holds: the output is
    the one the fixture gives with those markets removed. A market whose
    name contains "double" or "chance" is such a market, unless its type
    code is "ou0" or "hc0". *)
Theorem unrouted_markets_ignored (now_iso : string) :
  (forall ev ev' ms,
     markets_of ev = Ok ms ->
     markets_of ev' = Ok (List.filter (routed P) ms) ->
     extract_markets_from_api P now_iso ev = extract_markets_from_api P now_iso ev') /\
  (forall m name mtid,
     market_name P m = Ok name -> market_type P m = Ok mtid ->
     Str.contains "double" name || Str.contains "chance" name = true ->
     mtid <> "ou0" -> mtid <> "hc0" ->
     routed P m = false).
Proof.
  split.
  - intros ev ev' ms H H'.
    rewrite (extract_via_loop P now_iso ev ms H),
            (extract_via_loop P now_iso ev' _ H'), markets_loop_routed.
    reflexivity.
  - intros m name mtid Hn Ht Hc Hou Hhc. unfold routed. rewrite Hn, Ht.
    unfold main_1x2, totals_test, handicap_test.
    apply String.eqb_neq in Hou, Hhc. rewrite Hou, Hhc, !orb_false_r.
    apply orb_true_iff in Hc as [Hc | Hc].
    + rewrite Hc, (literal_without "double" name "ft o/u" Hc eq_refl),
        (literal_without "double" name "ft asian handicap" Hc eq_refl).
      cbn. rewrite andb_false_r. reflexivity.
    + rewrite Hc, (literal_without "chance" name "ft o/u" Hc eq_refl),
        (literal_without "chance" name "ft asian handicap" Hc eq_refl).
      cbn. rewrite !andb_false_r. reflexivity.
Qed.

End Routing.

(** A half-time market and a double-chance market carrying the moneyline
    type code change nothing. *)
Example unrouted_markets_sample :
  let dc := JDict [("name", JStr "FT Double Chance"); ("marketTypeId", JStr "ML0");
                   ("selections", JInt 5)] in
  let ht := Sample.mkt "HT 1X2" [Sample.sel "home" (JStr "2.10")] in
  routed Sample.platform0 dc = false /\ routed Sample.platform0 ht = false /\
  extract_markets_from_api Sample.platform0 "t"
    (Sample.fixture (JInt 1) [dc; Sample.ml_market; ht]) =
  extract_markets_from_api Sample.platform0 "t"
    (Sample.fixture (JInt 1) [Sample.ml_market]).
Proof. vm_compute. repeat split; reflexivity. Qed.

(* ===================================================================== *)
(** * The order of lines *)
(* ===================================================================== *)

Lemma lex3_gt_lt p q : lex3 p q = Gt -> lex3 q p = Lt.
Proof.
  unfold lex3.
  rewrite (Z.compare_antisym (fst (fst p)) (fst (fst q))),
          (Z.compare_antisym (snd (fst p)) (snd (fst q))),
          (Z.compare_antisym (snd p) (snd q)).
  destruct (fst (fst p) ?= fst (fst q)); cbn; try congruence.
  destruct (snd (fst p) ?= snd (fst q)); cbn; try congruence.
  destruct (snd p ?= snd q); cbn; congruence.
Qed.

(** Of two floats that are not NaN, one is less than the other or they are
    equal. *)
Lemma ltb_total (x y : float) :
  Float.is_nan x = false -> Float.is_nan y = false ->
  Float.ltb y x = false -> Float.eqb x y = false -> Float.ltb x y = true.
Proof.
  intros Hx Hy Hlt Heq.
  destruct (lex3 (float_rank x) (float_rank y)) eqn:E.
  - apply (eqb_rank x y Hx Hy) in E. congruence.
  - apply (ltb_rank x y Hx Hy). exact E.
  - apply lex3_gt_lt in E. apply (ltb_rank y x Hy Hx) in E. congruence.
Qed.

Lemma strictly_ascending_of {A : Type} (key : A -> float) (l : list A) :
  Forall (fun r => Float.is_nan (key r) = false) l ->
  ascending key l -> distinct_keys key l -> strictly_ascending key l.
Proof.
  unfold ascending, distinct_keys, strictly_ascending.
  induction l as [|x l IH]; intros Hn Ha Hd; [constructor|].
  apply Forall_cons_1 in Hn as [Hx Hn].
  apply StronglySorted_inv in Ha as [Ha Hax].
  inversion Hd as [|? ? Hdx Hd']; subst.
  constructor; [apply IH; assumption|].
  rewrite List.Forall_forall in *. intros y Hy.
  apply ltb_total; auto.
Qed.

(** X10. In every emitted Totals or Handicap block whose lines all have a
    numeric [hdp] (none is NaN), the lines stand in strictly ascending
    order of [hdp]: each is less than every later one, so no [hdp] occurs
    twice. *)
Theorem lines_strictly_ascending (P : platform) (now_iso : string) (ev : json)
    (out : list market) (b : market) :
  extract_markets_from_api P now_iso ev = Ok out -> In b out ->
  match m_odds b with
  | OddsML _ => True
  | OddsTotals l =>
      Forall (fun r => Float.is_nan (t_hdp r) = false) l -> strictly_ascending t_hdp l
  | OddsHandicap l =>
      Forall (fun r => Float.is_nan (h_hdp r) = false) l -> strictly_ascending h_hdp l
  end.
Proof.
  intros H Hb.
  pose proof (emitted_lines_ascending P now_iso ev out b H Hb) as Ha.
  pose proof (emitted_lines_distinct P now_iso ev out b H Hb) as Hd.
  destruct (m_odds b); [exact I | |]; intros Hn;
    apply strictly_ascending_of; auto.
Qed.

Lemma lines_strictly_ascending_witness :
  extract_markets_from_api Sample.platform0 "t"
    (Sample.fixture (JInt 1)
       [Sample.hc_market "1.5" "-1.5"; Sample.hc_market "-0,25" "0,25";
        Sample.hc_market "0.5" "-0.5"]) =
  Ok [ {| m_name := "Handicap"; m_updatedAt := "t";
          m_odds := OddsHandicap
            [ {| h_hdp := Sample.fl "-0.25"; h_home := "1.900"; h_away := "1.900" |};
              {| h_hdp := Sample.fl "0.5"; h_home := "1.900"; h_away := "1.900" |};
              {| h_hdp := Sample.fl "1.5"; h_home := "1.900"; h_away := "1.900" |} ] |} ] /\
  strictly_ascending h_hdp
    [ {| h_hdp := Sample.fl "-0.25"; h_home := "1.900"; h_away := "1.900" |};
      {| h_hdp := Sample.fl "0.5"; h_home := "1.900"; h_away := "1.900" |};
      {| h_hdp := Sample.fl "1.5"; h_home := "1.900"; h_away := "1.900" |} ].
Proof.
  split; [reflexivity|].
  refine (lines_strictly_ascending Sample.platform0 "t"
           (Sample.fixture (JInt 1)
              [Sample.hc_market "1.5" "-1.5"; Sample.hc_market "-0,25" "0,25";
               Sample.hc_market "0.5" "-0.5"])
           [ {| m_name := "Handicap"; m_updatedAt := "t";
                m_odds := OddsHandicap
                  [ {| h_hdp := Sample.fl "-0.25"; h_home := "1.900"; h_away := "1.900" |};
                    {| h_hdp := Sample.fl "0.5"; h_home := "1.900"; h_away := "1.900" |};
                    {| h_hdp := Sample.fl "1.5"; h_home := "1.900"; h_away := "1.900" |} ] |} ]
           _ eq_refl (or_introl eq_refl) _).
  repeat constructor.
Defined.

(* ===================================================================== *)
(** * Where the lines come from *)
(* ===================================================================== *)

Lemma upsert_Forall_key {V : Type} (Q : float * V -> Prop) k v0 (f : V -> V)
    (d : FDict.t V) :
  (forall k' v, Q (k', v) -> Float.eqb k' k = true -> Q (k', f v)) ->
  Q (k, f v0) ->
  Forall Q d -> Forall Q (FDict.upsert k v0 f d).
Proof.
  intros Hf H0. induction d as [|[k' v] d IH]; intros Hd; cbn.
  - constructor; [exact H0 | constructor].
  - apply Forall_cons_1 in Hd as [Hkv Hd].
    destruct (Float.eqb k' k) eqn:E; constructor; auto.
Qed.

(** Two points equal to one key are equal to each other. *)
Lemma same_point_via (k h x : float) :
  same_point k h -> Float.eqb k x = true -> same_point h x.
Proof.
  intros [Hkh | [Hk _]] Hkx.
  - left. apply eqb_trans with k; [rewrite eqb_sym|]; assumption.
  - apply eqb_not_nan in Hkx as [Hk' _]. congruence.
Qed.

Section Provenance.
Context (P : platform).

Lemma totals_selections_from ms m ss_all ss lines lines' :
  In m ms -> is_totals P m = true -> selections_of m = Ok ss_all ->
  (forall s, In s ss -> In s ss_all) ->
  totals_selections P ss lines = Ok lines' ->
  Forall (totals_entry_from P ms) lines -> Forall (totals_entry_from P ms) lines'.
Proof.
  intros Hm Ht Hss. revert lines.
  induction ss as [|s ss IH]; intros lines Hsub H Hl; cbn in H.
  - simplify_eq. exact Hl.
  - assert (Hsub' : forall s', In s' ss -> In s' ss_all)
      by (intros; apply Hsub; right; assumption).
    inv_bind H. inv_bind H. inv_bind H.
    destruct (totals_points x1) as [pts|] eqn:Hpts; [|eauto].
    inv_bind H. destruct (priced x2) eqn:Hpr; cbn [negb] in H; [|eauto].
    destruct (selection_price_priced _ _ Hx2 Hpr) as (q & -> & _).
    apply (IH _ Hsub') in H; [exact H|]. clear H IH.
    assert (Hleg : forall sd hdp,
               side_of (lower_str P (Py.or_ x x0)) = Some sd -> same_point hdp pts ->
               totals_leg P ms sd hdp q).
    { intros sd hdp Hsd Hsame.
      exists m, ss_all, s, (lower_str P (Py.or_ x x0)), pts.
      repeat split; auto.
      - apply Hsub. left. reflexivity.
      - unfold ou_of. rewrite Hx, Hx0. reflexivity.
      - unfold totals_points_of. rewrite Hx1. cbn [bind]. rewrite Hpts. reflexivity. }
    unfold side_of in Hleg.
    apply upsert_Forall_key; [| | exact Hl].
    + intros k' v (Hk & Ho & Hu) Hkk. cbn [fst snd] in *.
      pose proof (same_point_via _ _ _ Hk Hkk) as Hsame.
      destruct (Str.contains "over" _); [|destruct (Str.contains "under" _)];
        repeat split; cbn [fst snd set_over set_under t_hdp t_over t_under];
        auto; intros p Hp; simplify_eq; auto.
    + pose proof (same_point_refl pts) as Hsame.
      destruct (Str.contains "over" _); [|destruct (Str.contains "under" _)];
        repeat split; cbn [fst snd set_over set_under t_hdp t_over t_under];
        auto; intros p Hp; simplify_eq; auto.
Qed.

Lemma market_step_totals_from ms now a m a' :
  In m ms -> market_step P now a m = Ok a' ->
  Forall (totals_entry_from P ms) (totals_lines a) ->
  Forall (totals_entry_from P ms) (totals_lines a').
Proof.
  intros Hm H Hl. unfold market_step in H.
  inv_bind H. inv_bind H. inv_bind H.
  destruct (negb (ml_done a) && main_1x2 _ _).
  - inv_bind H. inv_bind H. repeat case_match; simplify_eq; exact Hl.
  - destruct (String.eqb (lower_str P x) "ft o/u" || String.eqb (lower_str P x0) "ou0")
      eqn:Ht.
    + inv_bind H. inv_bind H. simplify_eq. cbn [totals_lines].
      eapply (totals_selections_from ms m x2 x2); eauto.
      * unfold is_totals, market_name, market_type. rewrite Hx, Hx0. exact Ht.
      * unfold selections_of. rewrite Hx1. exact Hx2.
    + clear Ht. destruct (_ || _); [|simplify_eq; exact Hl].
      inv_bind H. inv_bind H. repeat case_match; simplify_eq; exact Hl.
Qed.

Lemma markets_loop_totals_from ms now rest a a' :
  (forall m, In m rest -> In m ms) ->
  markets_loop P now rest a = Ok a' ->
  Forall (totals_entry_from P ms) (totals_lines a) ->
  Forall (totals_entry_from P ms) (totals_lines a').
Proof.
  revert a. induction rest as [|m rest IH]; intros a Hsub H Hl; cbn in H.
  - simplify_eq. exact Hl.
  - inv_bind H. eapply IH; [| exact H |].
    + intros; apply Hsub; right; assumption.
    + eapply market_step_totals_from; eauto. apply Hsub. left. reflexivity.
Qed.

(** X6. Every line of an emitted Totals block is backed by the upstream
    data: its over price is the valid price of a selection of a totals
    market whose label contains "over", its under price that of a selection
    whose label contains "under" and not "over", and the points of both
    selections equal the line's [hdp]. *)
Theorem totals_lines_backed (now_iso : string) (ev : json) (out : list market)
    (b : market) (l : list totals_line) (r : totals_line) :
  extract_markets_from_api P now_iso ev = Ok out ->
  In b out -> m_odds b = OddsTotals l -> In r l ->
  exists ms po pu,
    markets_of ev = Ok ms /\
    t_over r = Some po /\ t_under r = Some pu /\
    totals_leg P ms Over (t_hdp r) po /\
    totals_leg P ms Under (t_hdp r) pu.
Proof.
  intros H Hb Ho Hr.
  destruct (extract_loop P _ _ _ H) as (ms & a & Hms & Hloop & -> & Hm).
  assert (Hinv : Forall (totals_entry_from P ms) (totals_lines a)).
  { eapply markets_loop_totals_from; [| exact Hloop | constructor]. auto. }
  destruct (In_emit _ _ _ _ Hm Hb) as [(e & _ & ->) | [[_ ->] | [_ ->]]];
    cbn [m_odds ml_block] in Ho; try discriminate.
  injection Ho as <-.
  apply (Permutation_in _ (sort_perm t_hdp _)) in Hr.
  unfold totals_out, FDict.values in Hr.
  apply List.filter_In in Hr as [Hin Hp].
  apply List.in_map_iff in Hin as (kv & <- & Hin).
  eapply List.Forall_forall in Hinv; [|exact Hin].
  destruct Hinv as (_ & Hov & Hun).
  destruct (t_over (snd kv)) as [po|]; [|discriminate].
  destruct (t_under (snd kv)) as [pu|];
    [|cbn in Hp; rewrite andb_false_r in Hp; discriminate].
  exists ms, po, pu. repeat split; auto.
Qed.

Lemma handicap_selections_from ss_all ss legs legs' :
  (forall s, In s ss -> In s ss_all) ->
  handicap_selections P ss legs = Ok legs' ->
  hc_legs_from P ss_all legs -> hc_legs_from P ss_all legs'.
Proof.
  revert legs. induction ss as [|s ss IH]; intros legs Hsub H Hl; cbn in H.
  - simplify_eq. exact Hl.
  - assert (Hsub' : forall s', In s' ss -> In s' ss_all)
      by (intros; apply Hsub; right; assumption).
    assert (Hs : In s ss_all) by (apply Hsub; left; reflexivity).
    inv_bind H. inv_bind H.
    destruct (handicap_points x0) as [pts|] eqn:Hpts; [|eauto].
    inv_bind H. destruct (priced x1) eqn:Hpr; cbn [negb] in H; [|eauto].
    destruct (selection_price_priced _ _ Hx1 Hpr) as (q & -> & _).
    assert (Hp : handicap_points_of s = Ok (Some pts)).
    { unfold handicap_points_of. rewrite Hx0. cbn [bind]. rewrite Hpts. reflexivity. }
    destruct Hl as [Hh Ha].
    destruct (String.eqb (lower_str P x) "home") eqn:Eh;
      [|destruct (String.eqb (lower_str P x) "away") eqn:Ea]; [| |eauto using conj];
      apply (IH _ Hsub') in H; try exact H; clear H IH;
      (split; [clear Ha | clear Hh]); cbn [home_pts home_price away_pts away_price];
      auto; intros ? [= <-]; exists s, q; repeat split; auto;
      unfold outcome_of; rewrite Hx; cbn [bind]; f_equal; apply String.eqb_eq; assumption.
Qed.

Lemma market_step_handicap_from ms now a m a' :
  In m ms -> market_step P now a m = Ok a' ->
  Forall (fun kv => handicap_line_from P ms (snd kv)) (handicap_lines a) ->
  Forall (fun kv => handicap_line_from P ms (snd kv)) (handicap_lines a').
Proof.
  intros Hm H Hl. unfold market_step in H.
  inv_bind H. inv_bind H. inv_bind H.
  destruct (negb (ml_done a) && main_1x2 _ _).
  - inv_bind H. inv_bind H. repeat case_match; simplify_eq; exact Hl.
  - destruct (String.eqb (lower_str P x) "ft o/u" || String.eqb (lower_str P x0) "ou0").
    + inv_bind H. inv_bind H. simplify_eq. exact Hl.
    + destruct (String.eqb (lower_str P x) "ft asian handicap"
                || String.eqb (lower_str P x0) "hc0") eqn:Ht;
        [|simplify_eq; exact Hl].
      inv_bind H. inv_bind H.
      assert (Hfrom : hc_legs_from P x2 x3).
      { eapply handicap_selections_from; [| exact Hx3 |]; [auto|].
        split; intros ? [=]. }
      destruct Hfrom as [Hh Ha].
      destruct (home_pts x3) as [hp|]; [|simplify_eq; exact Hl].
      destruct (away_pts x3) as [ap|]; [|simplify_eq; exact Hl].
      destruct (home_price x3) as [h|] eqn:Eh; [|simplify_eq; exact Hl].
      destruct (away_price x3) as [w|] eqn:Ew; [|simplify_eq; exact Hl].
      destruct (Str.nonempty h && Str.nonempty w); [|simplify_eq; exact Hl].
      simplify_eq. cbn [handicap_lines]. unfold FDict.set.
      assert (Hline : handicap_line_from P ms {| h_hdp := hp; h_home := h; h_away := w |}).
      { destruct (Hh hp eq_refl) as (sh & h' & Hsh & Hoh & Hph & [= <-] & Hprh).
        destruct (Ha ap eq_refl) as (sa & w' & Hsa & Hoa & Hpa & [= <-] & Hpra).
        exists m, x2, sh, sa, ap. cbn [h_hdp h_home h_away].
        repeat split; auto.
        * unfold is_handicap, market_name, market_type. rewrite Hx, Hx0. exact Ht.
        * unfold selections_of. rewrite Hx1. exact Hx2. }
      apply upsert_Forall; [intros; exact Hline | exact Hline | exact Hl].
Qed.

Lemma markets_loop_handicap_from ms now rest a a' :
  (forall m, In m rest -> In m ms) ->
  markets_loop P now rest a = Ok a' ->
  Forall (fun kv => handicap_line_from P ms (snd kv)) (handicap_lines a) ->
  Forall (fun kv => handicap_line_from P ms (snd kv)) (handicap_lines a').
Proof.
  revert a. induction rest as [|m rest IH]; intros a Hsub H Hl; cbn in H.
  - simplify_eq. exact Hl.
  - inv_bind H. eapply IH; [| exact H |].
    + intros; apply Hsub; right; assumption.
    + eapply market_step_handicap_from; eauto. apply Hsub. left. reflexivity.
Qed.

(** X8. Every line of an emitted Handicap block is backed by one handicap
    market of the fixture: its [hdp] is the points of that market's home
    selection, its home and away prices are the valid prices of that
    market's home and away selections, and the away selection's points only
    have to parse. *)
Theorem handicap_lines_backed (now_iso : string) (ev : json) (out : list market)
    (b : market) (l : list handicap_line) (r : handicap_line) :
  extract_markets_from_api P now_iso ev = Ok out ->
  In b out -> m_odds b = OddsHandicap l -> In r l ->
  exists ms, markets_of ev = Ok ms /\ handicap_line_from P ms r.
Proof.
  intros H Hb Ho Hr.
  destruct (extract_loop P _ _ _ H) as (ms & a & Hms & Hloop & -> & Hm).
  assert (Hinv : Forall (fun kv => handicap_line_from P ms (snd kv)) (handicap_lines a)).
  { eapply markets_loop_handicap_from; [| exact Hloop | constructor]. auto. }
  destruct (In_emit _ _ _ _ Hm Hb) as [(e & _ & ->) | [[_ ->] | [_ ->]]];
    cbn [m_odds ml_block] in Ho; try discriminate.
  injection Ho as <-.
  apply (Permutation_in _ (sort_perm h_hdp _)) in Hr.
  unfold FDict.values in Hr.
  apply List.in_map_iff in Hr as (kv & <- & Hin).
  eapply List.Forall_forall in Hinv; [|exact Hin].
  exists ms. auto.
Qed.

End Provenance.

Lemma totals_lines_backed_witness :
  extract_markets_from_api Sample.platform0 "t"
    (Sample.fixture (JInt 1) [Sample.totals_market]) =
  Ok [ {| m_name := "Totals"; m_updatedAt := "t";
          m_odds := OddsTotals [ {| t_hdp := Sample.fl "2.5"; t_over := Some "1.850";
                                    t_under := Some "1.950" |} ] |} ] /\
  exists ms po pu,
    markets_of (Sample.fixture (JInt 1) [Sample.totals_market]) = Ok ms /\
    Some "1.850" = Some po /\ Some "1.950" = Some pu /\
    totals_leg Sample.platform0 ms Over (Sample.fl "2.5") po /\
    totals_leg Sample.platform0 ms Under (Sample.fl "2.5") pu.
Proof.
  split; [reflexivity|].
  refine (totals_lines_backed Sample.platform0 "t"
            (Sample.fixture (JInt 1) [Sample.totals_market])
            [ {| m_name := "Totals"; m_updatedAt := "t";
                 m_odds := OddsTotals [ {| t_hdp := Sample.fl "2.5"; t_over := Some "1.850";
                                           t_under := Some "1.950" |} ] |} ]
            _ _ {| t_hdp := Sample.fl "2.5"; t_over := Some "1.850";
                   t_under := Some "1.950" |}
            eq_refl (or_introl eq_refl) eq_refl (or_introl eq_refl)).
Defined.

Lemma handicap_lines_backed_witness :
  extract_markets_from_api Sample.platform0 "t"
    (Sample.fixture (JInt 1) [Sample.hc_market "-0,5" "+0.5"]) =
  Ok [ {| m_name := "Handicap"; m_updatedAt := "t";
          m_odds := OddsHandicap [ {| h_hdp := Sample.fl "-0.5"; h_home := "1.900";
                                      h_away := "1.900" |} ] |} ] /\
  exists ms,
    markets_of (Sample.fixture (JInt 1) [Sample.hc_market "-0,5" "+0.5"]) = Ok ms /\
    handicap_line_from Sample.platform0 ms
      {| h_hdp := Sample.fl "-0.5"; h_home := "1.900"; h_away := "1.900" |}.
Proof.
  split; [reflexivity|].
  refine (handicap_lines_backed Sample.platform0 "t"
            (Sample.fixture (JInt 1) [Sample.hc_market "-0,5" "+0.5"])
            [ {| m_name := "Handicap"; m_updatedAt := "t";
                 m_odds := OddsHandicap [ {| h_hdp := Sample.fl "-0.5"; h_home := "1.900";
                                             h_away := "1.900" |} ] |} ]
            _ _ {| h_hdp := Sample.fl "-0.5"; h_home := "1.900"; h_away := "1.900" |}
            eq_refl (or_introl eq_refl) eq_refl (or_introl eq_refl)).
Defined.

(* ===================================================================== *)
(** * Which handicap market wins a line *)
(* ===================================================================== *)

(** After [d[hp] = v] the dict holds [v], under a key equal to [hp]. *)
Lemma set_In_new {V : Type} (hp : float) (v : V) (d : FDict.t V) :
  exists k, In (k, v) (FDict.set hp v d) /\ (Float.eqb k hp = true \/ k = hp).
Proof.
  unfold FDict.set. induction d as [|[k' v'] d IH]; cbn [FDict.upsert].
  - exists hp. split; [left; reflexivity | right; reflexivity].
  - destruct (Float.eqb k' hp) eqn:E.
    + exists k'. split; [left; reflexivity | left; exact E].
    + destruct IH as (k & Hin & Hk). exists k. split; [right; exact Hin | exact Hk].
Qed.

(** [d[hp] = v] leaves the entries under other keys as they are. *)
Lemma set_In_other {V : Type} (hp k : float) (v w : V) (d : FDict.t V) :
  In (k, w) d -> Float.eqb k hp = false -> In (k, w) (FDict.set hp v d).
Proof.
  unfold FDict.set. induction d as [|[k' v'] d IH]; cbn [FDict.upsert In]; [tauto|].
  intros [[= -> ->] | Hin] Hk.
  - rewrite Hk. left. reflexivity.
  - destruct (Float.eqb k' hp); right; auto.
Qed.

Section LastWins.
Context (P : platform).

(** What one iteration does to [handicap_lines]. *)
Lemma market_step_handicap now a m a' :
  market_step P now a m = Ok a' ->
  handicap_lines a' = handicap_lines a \/
  exists line, handicap_of_market P m = Ok (Some line) /\
               handicap_lines a' = FDict.set (h_hdp line) line (handicap_lines a).
Proof.
  intros H. unfold market_step in H.
  inv_bind H. inv_bind H. inv_bind H.
  destruct (negb (ml_done a) && main_1x2 _ _).
  - left. inv_bind H. inv_bind H. repeat case_match; simplify_eq; reflexivity.
  - unfold handicap_of_market, market_name, market_type, selections_of,
      totals_test, handicap_test, no_hc_legs.
    rewrite Hx, Hx0, Hx1. cbn [bind].
    destruct (String.eqb (lower_str P x) "ft o/u" || String.eqb (lower_str P x0) "ou0").
    + left. inv_bind H. inv_bind H. simplify_eq. reflexivity.
    + destruct (String.eqb (lower_str P x) "ft asian handicap"
                || String.eqb (lower_str P x0) "hc0");
        [|left; simplify_eq; reflexivity].
      cbn [negb andb]. inv_bind H. inv_bind H. rewrite Hx2. cbn [bind]. rewrite Hx3.
      cbn [bind].
      destruct (home_pts x3) as [hp|]; [|left; simplify_eq; reflexivity].
      destruct (away_pts x3) as [ap|]; [|left; simplify_eq; reflexivity].
      destruct (home_price x3) as [h|]; [|left; simplify_eq; reflexivity].
      destruct (away_price x3) as [w|]; [|left; simplify_eq; reflexivity].
      destruct (Str.nonempty h && Str.nonempty w); [|left; simplify_eq; reflexivity].
      right. simplify_eq. eexists. split; reflexivity.
Qed.

(** A market the moneyline branch cannot take, with a line of its own,
    stores that line. *)
Lemma market_step_handicap_line now a m a' line :
  confirmed_primary P m = false ->
  handicap_of_market P m = Ok (Some line) ->
  market_step P now a m = Ok a' ->
  handicap_lines a' = FDict.set (h_hdp line) line (handicap_lines a).
Proof.
  intros Hc Hl H. unfold market_step in H. unfold confirmed_primary in Hc.
  unfold handicap_of_market, market_name, market_type, selections_of,
    totals_test, handicap_test, no_hc_legs in Hl.
  inv_bind H. inv_bind H. inv_bind H.
  rewrite Hx, Hx0 in Hc. rewrite Hx, Hx0, Hx1 in Hl. cbn [bind] in Hl.
  rewrite Hc, andb_false_r in H.
  destruct (String.eqb (lower_str P x) "ft o/u" || String.eqb (lower_str P x0) "ou0");
    [discriminate Hl|].
  destruct (String.eqb (lower_str P x) "ft asian handicap"
            || String.eqb (lower_str P x0) "hc0"); [|discriminate Hl].
  cbn [negb andb] in Hl. inv_bind H. inv_bind H.
  rewrite Hx2 in Hl. cbn [bind] in Hl. rewrite Hx3 in Hl. cbn [bind] in Hl.
  repeat case_match; simplify_eq; reflexivity.
Qed.

Lemma markets_loop_keeps_line now post a a' k line :
  Forall (fun m' => forall line', handicap_of_market P m' = Ok (Some line') ->
                    Float.eqb (h_hdp line') (h_hdp line) = false) post ->
  markets_loop P now post a = Ok a' ->
  In (k, line) (handicap_lines a) ->
  Float.eqb k (h_hdp line) = true \/ k = h_hdp line ->
  In (k, line) (handicap_lines a').
Proof.
  intros Hpost. revert a. induction Hpost as [|m' post Hm' _ IH]; intros a H Hin Hk;
    cbn in H.
  - simplify_eq. exact Hin.
  - inv_bind H. apply (IH _ H); [|exact Hk]. clear IH H.
    destruct (market_step_handicap _ _ _ _ Hx) as [-> | (line' & Hl' & ->)];
      [exact Hin|].
    apply set_In_other; [exact Hin|].
    specialize (Hm' _ Hl').
    destruct (Float.eqb k (h_hdp line')) eqn:E; [|reflexivity].
    destruct Hk as [Hk | ->].
    + rewrite (eqb_trans (h_hdp line') k (h_hdp line)) in Hm';
        [discriminate | rewrite eqb_sym; exact E | exact Hk].
    + rewrite eqb_sym, E in Hm'. discriminate.
Qed.

Lemma markets_loop_app now ms1 ms2 a a' :
  markets_loop P now (ms1 ++ ms2) a = Ok a' ->
  exists a1, markets_loop P now ms1 a = Ok a1 /\ markets_loop P now ms2 a1 = Ok a'.
Proof.
  revert a. induction ms1 as [|m ms1 IH]; intros a H; cbn in H.
  - exists a. auto.
  - inv_bind H. destruct (IH _ H) as (a1 & H1 & H2). exists a1.
    cbn. rewrite Hx. auto.
Qed.

(** X9. Of the handicap markets of a fixture, the last one with given home
    points decides the line: the line a handicap market yields, when its
    [hdp] is a number (not a NaN), is in the emitted Handicap block, with
    that market's prices, unless a later handicap market yields a line
    with equal [hdp]. (For the moneyline it is the first complete market
    that is kept.) A NaN [hdp] is left out: [==] never finds such a key
    again, and a dict then goes by the identity of the float object. *)
Theorem handicap_last_market_wins (now_iso : string) (ev : json)
    (pre post : list json) (m : json) (line : handicap_line) (out : list market) :
  markets_of ev = Ok (pre ++ m :: post)%list ->
  confirmed_primary P m = false ->
  handicap_of_market P m = Ok (Some line) ->
  Float.is_nan (h_hdp line) = false ->
  Forall (fun m' => forall line', handicap_of_market P m' = Ok (Some line') ->
                    Float.eqb (h_hdp line') (h_hdp line) = false) post ->
  extract_markets_from_api P now_iso ev = Ok out ->
  exists b l, In b out /\ m_name b = "Handicap" /\ m_odds b = OddsHandicap l /\ In line l.
Proof.
  intros Hms Hc Hl _ Hpost H.
  rewrite (extract_via_loop P _ _ _ Hms) in H. inv_bind H. injection H as <-.
  apply markets_loop_app in Hx as (a1 & _ & H2). cbn [markets_loop] in H2.
  destruct (market_step P now_iso a1 m) as [a2|] eqn:Hstep; [|discriminate H2].
  cbn [bind] in H2.
  pose proof (market_step_handicap_line _ _ _ _ _ Hc Hl Hstep) as Hset.
  destruct (set_In_new (h_hdp line) line (handicap_lines a1)) as (k & Hin & Hk).
  rewrite <- Hset in Hin.
  pose proof (markets_loop_keeps_line _ _ _ _ _ _ Hpost H2 Hin Hk) as Hfin.
  exists {| m_name := "Handicap"; m_updatedAt := now_iso;
            m_odds := OddsHandicap (Sort.sort h_hdp (FDict.values (handicap_lines x))) |}.
  eexists. repeat split.
  - unfold emit. destruct (handicap_lines x) as [|kv hl] eqn:E; [contradiction|].
    apply in_or_app. right. left. reflexivity.
  - apply (Permutation_in _ (Permutation_sym (sort_perm h_hdp _))).
    unfold FDict.values. apply List.in_map_iff. exists (k, line). auto.
Qed.

End LastWins.

Lemma handicap_last_market_wins_witness :
  let first := Sample.mkt "FT Asian Handicap"
                 [Sample.selp "home" (JStr "0.5") (JStr "1.80");
                  Sample.selp "away" (JStr "-0.5") (JStr "2.00")] in
  let last := Sample.mkt "FT Asian Handicap"
                 [Sample.selp "home" (JStr "0,50") (JStr "1.70");
                  Sample.selp "away" (JStr "-0,50") (JStr "2.10")] in
  extract_markets_from_api Sample.platform0 "t" (Sample.fixture (JInt 1) [first; last]) =
  Ok [ {| m_name := "Handicap"; m_updatedAt := "t";
          m_odds := OddsHandicap [ {| h_hdp := Sample.fl "0.5"; h_home := "1.700";
                                      h_away := "2.100" |} ] |} ] /\
  exists b l,
    In b [ {| m_name := "Handicap"; m_updatedAt := "t";
              m_odds := OddsHandicap [ {| h_hdp := Sample.fl "0.5"; h_home := "1.700";
                                          h_away := "2.100" |} ] |} ] /\
    m_name b = "Handicap" /\ m_odds b = OddsHandicap l /\
    In {| h_hdp := Sample.fl "0.5"; h_home := "1.700"; h_away := "2.100" |} l.
Proof.
  split; [reflexivity|].
  refine (handicap_last_market_wins Sample.platform0 "t"
            (Sample.fixture (JInt 1)
               [Sample.mkt "FT Asian Handicap"
                  [Sample.selp "home" (JStr "0.5") (JStr "1.80");
                   Sample.selp "away" (JStr "-0.5") (JStr "2.00")];
                Sample.mkt "FT Asian Handicap"
                  [Sample.selp "home" (JStr "0,50") (JStr "1.70");
                   Sample.selp "away" (JStr "-0,50") (JStr "2.10")]])
            [Sample.mkt "FT Asian Handicap"
               [Sample.selp "home" (JStr "0.5") (JStr "1.80");
                Sample.selp "away" (JStr "-0.5") (JStr "2.00")]]
            []
            (Sample.mkt "FT Asian Handicap"
               [Sample.selp "home" (JStr "0,50") (JStr "1.70");
                Sample.selp "away" (JStr "-0,50") (JStr "2.10")])
            {| h_hdp := Sample.fl "0.5"; h_home := "1.700"; h_away := "2.100" |}
            _ eq_refl eq_refl eq_refl eq_refl (List.Forall_nil _) eq_refl).
Defined.

(* ===================================================================== *)
(** * A line quoted on both sides is emitted *)
(* ===================================================================== *)

Lemma upsert_In {V : Type} k0 v0 (f : V -> V) (d : FDict.t V) k r :
  In (k, r) d ->
  In (k, r) (FDict.upsert k0 v0 f d) \/ In (k, f r) (FDict.upsert k0 v0 f d).
Proof.
  induction d as [|[k' v] d IH]; cbn [FDict.upsert In]; [tauto|].
  intros [[= -> ->] | Hin].
  - destruct (Float.eqb k k0); [right | left]; left; reflexivity.
  - destruct (Float.eqb k' k0); [left; right; exact Hin|].
    destruct (IH Hin); [left | right]; right; assumption.
Qed.

Lemma upsert_hit {V : Type} k0 v0 (f : V -> V) (d : FDict.t V) :
  Float.eqb k0 k0 = true ->
  exists k v, In (k, f v) (FDict.upsert k0 v0 f d) /\ Float.eqb k k0 = true.
Proof.
  intros H0. induction d as [|[k' v] d IH]; cbn [FDict.upsert].
  - exists k0, v0. split; [left; reflexivity | exact H0].
  - destruct (Float.eqb k' k0) eqn:E.
    + exists k', v. split; [left; reflexivity | exact E].
    + destruct IH as (k & w & Hin & Hk). exists k, w. split; [right; exact Hin | exact Hk].
Qed.

Lemma same_entry {V : Type} (d : FDict.t V) k1 r1 k2 r2 :
  distinct_keys fst d -> In (k1, r1) d -> In (k2, r2) d ->
  Float.eqb k1 k2 = true -> r1 = r2.
Proof.
  unfold distinct_keys. induction 1 as [|e d He _ IH]; [contradiction|].
  rewrite List.Forall_forall in He.
  intros [-> | H1] [E2 | H2] Hk.
  - congruence.
  - specialize (He _ H2). cbn in He. congruence.
  - subst e. specialize (He _ H1). cbn in He. rewrite eqb_sym in He. congruence.
  - auto.
Qed.

(** A float that is not NaN equals itself. *)
Lemma eqb_refl_num (y : float) : Float.is_nan y = false -> Float.eqb y y = true.
Proof.
  intros Hn. apply (eqb_rank y y Hn Hn). unfold lex3.
  rewrite !Z.compare_refl. reflexivity.
Qed.

Section TotalsComplete.
Context (P : platform).

Lemma update_keeps ou price sd v :
  priced price = true -> priced (leg_of sd v) = true ->
  priced (leg_of sd ((if Str.contains "over" ou then set_over price
                      else if Str.contains "under" ou then set_under price
                      else fun r => r) v)) = true.
Proof.
  intros Hp Hv.
  destruct (Str.contains "over" ou); [|destruct (Str.contains "under" ou)];
    destruct sd; cbn; assumption.
Qed.

Lemma update_sets ou price sd v :
  side_of ou = Some sd -> priced price = true ->
  priced (leg_of sd ((if Str.contains "over" ou then set_over price
                      else if Str.contains "under" ou then set_under price
                      else fun r => r) v)) = true.
Proof.
  unfold side_of. intros Hs Hp.
  destruct (Str.contains "over" ou); [|destruct (Str.contains "under" ou)];
    simplify_eq; cbn; assumption.
Qed.

Lemma totals_selections_keeps ss lines lines' x sd :
  totals_selections P ss lines = Ok lines' ->
  line_has lines x sd -> line_has lines' x sd.
Proof.
  revert lines. induction ss as [|s ss IH]; intros lines H Hl; cbn in H.
  - simplify_eq. exact Hl.
  - inv_bind H. inv_bind H. inv_bind H.
    destruct (totals_points x2) as [pts|]; [|eauto].
    inv_bind H. destruct (priced x3) eqn:Hpr; cbn [negb] in H; [|eauto].
    apply (IH _ H). clear IH H. destruct Hl as (k & r & Hin & Hk & Hleg).
    destruct (upsert_In pts {| t_hdp := pts; t_over := None; t_under := None |}
                (if Str.contains "over" (lower_str P (Py.or_ x0 x1)) then set_over x3
                 else if Str.contains "under" (lower_str P (Py.or_ x0 x1))
                      then set_under x3 else fun r => r)
                lines k r Hin) as [Hin' | Hin'].
    + exists k, r. auto.
    + eexists k, _. split; [exact Hin'|]. split; [exact Hk|].
      apply update_keeps; assumption.
Qed.

Lemma totals_selections_sets ss lines lines' s ou sd y p :
  In s ss -> ou_of P s = Ok ou -> side_of ou = Some sd ->
  totals_points_of s = Ok (Some y) -> Float.eqb y y = true ->
  selection_price s = Ok (Some p) ->
  totals_selections P ss lines = Ok lines' ->
  line_has lines' y sd.
Proof.
  intros Hin Hou Hsd Hpts Hy Hp. revert lines.
  induction ss as [|s0 ss IH]; intros lines H; [contradiction|].
  destruct Hin as [-> | Hin].
  - clear IH. cbn in H. inv_bind H. inv_bind H. inv_bind H.
    unfold ou_of in Hou. rewrite Hx, Hx0 in Hou. cbn [bind] in Hou.
    injection Hou as <-.
    unfold totals_points_of in Hpts. rewrite Hx1 in Hpts. cbn [bind] in Hpts.
    injection Hpts as Hpts. rewrite Hpts in H.
    rewrite Hp in H. cbn [bind] in H.
    assert (Hpr : priced (Some p) = true).
    { cbn. apply is_price_nonempty. eapply selection_price_is_price. exact Hp. }
    rewrite Hpr in H. cbn [negb] in H.
    apply (totals_selections_keeps _ _ _ _ _ H).
    destruct (upsert_hit y {| t_hdp := y; t_over := None; t_under := None |}
                (if Str.contains "over" (lower_str P (Py.or_ x x0)) then set_over (Some p)
                 else if Str.contains "under" (lower_str P (Py.or_ x x0))
                      then set_under (Some p) else fun r => r)
                lines Hy) as (k & v & Hin & Hk).
    eexists k, _. split; [exact Hin|]. split; [exact Hk|].
    apply update_sets; assumption.
  - cbn in H. inv_bind H. inv_bind H. inv_bind H.
    destruct (totals_points x1) as [pts|]; [|eauto].
    inv_bind H. destruct (negb (priced x2)); eauto.
Qed.

Lemma market_step_totals_keeps now a m a' x sd :
  market_step P now a m = Ok a' ->
  line_has (totals_lines a) x sd -> line_has (totals_lines a') x sd.
Proof.
  intros H Hl. unfold market_step in H.
  inv_bind H. inv_bind H. inv_bind H.
  destruct (negb (ml_done a) && main_1x2 _ _).
  - inv_bind H. inv_bind H. repeat case_match; simplify_eq; exact Hl.
  - destruct (String.eqb (lower_str P x0) "ft o/u" || String.eqb (lower_str P x1) "ou0").
    + inv_bind H. inv_bind H. simplify_eq. cbn [totals_lines].
      eapply totals_selections_keeps; eauto.
    + destruct (_ || _); [|simplify_eq; exact Hl].
      inv_bind H. inv_bind H. repeat case_match; simplify_eq; exact Hl.
Qed.

Lemma market_step_totals_sets now a m a' x sd :
  confirmed_primary P m = false -> is_totals P m = true ->
  totals_quote P m sd x ->
  market_step P now a m = Ok a' ->
  line_has (totals_lines a') x sd.
Proof.
  intros Hc Ht (ss & s & ou & y & p & Hss & Hin & Hou & Hsd & Hpts & Hxy & Hp) H.
  unfold market_step in H. unfold confirmed_primary in Hc.
  unfold is_totals, market_name, market_type, totals_test in Ht.
  unfold selections_of in Hss.
  inv_bind H. inv_bind H. inv_bind H.
  rewrite Hx, Hx0 in Hc. rewrite Hx, Hx0 in Ht. cbn [bind] in Ht.
  rewrite Hx1 in Hss. cbn [bind] in Hss.
  rewrite Hc, andb_false_r, Ht, Hss in H. cbn [bind] in H.
  inv_bind H. simplify_eq. cbn [totals_lines].
  assert (Hy : Float.eqb y y = true).
  { apply eqb_not_nan in Hxy as [_ Hn]. apply eqb_refl_num, Hn. }
  destruct (totals_selections_sets _ _ _ _ _ _ _ _ Hin Hou Hsd Hpts Hy Hp Hx2)
    as (k & r & Hk1 & Hk2 & Hk3).
  exists k, r. split; [exact Hk1|]. split; [|exact Hk3].
  apply eqb_trans with y; [exact Hk2 | rewrite eqb_sym; exact Hxy].
Qed.

Lemma markets_loop_totals_keeps now ms a a' x sd :
  markets_loop P now ms a = Ok a' ->
  line_has (totals_lines a) x sd -> line_has (totals_lines a') x sd.
Proof.
  revert a. induction ms as [|m ms IH]; intros a H Hl; cbn in H.
  - simplify_eq. exact Hl.
  - inv_bind H. eauto using market_step_totals_keeps.
Qed.

Lemma markets_loop_totals_sets now ms a a' m x sd :
  In m ms -> confirmed_primary P m = false -> is_totals P m = true ->
  totals_quote P m sd x ->
  markets_loop P now ms a = Ok a' ->
  line_has (totals_lines a') x sd.
Proof.
  intros Hin Hc Ht Hq. revert a. induction ms as [|m0 ms IH]; intros a H; [contradiction|].
  cbn in H. inv_bind H. destruct Hin as [-> | Hin]; [|eauto].
  eapply markets_loop_totals_keeps; [exact H|].
  eapply market_step_totals_sets; eauto.
Qed.

(** X7. A totals line quoted on both sides is never lost. When totals
    markets of the fixture (markets the moneyline branch cannot take) hold a
    selection filed under over and one filed under under, both with a valid
    price and with points equal to the number [x], the output has a Totals
    block with a line whose [hdp] equals [x]. *)
Theorem totals_line_emitted (now_iso : string) (ev : json) (ms : list json)
    (mo mu : json) (x : float) (out : list market) :
  markets_of ev = Ok ms ->
  In mo ms -> confirmed_primary P mo = false -> is_totals P mo = true ->
  totals_quote P mo Over x ->
  In mu ms -> confirmed_primary P mu = false -> is_totals P mu = true ->
  totals_quote P mu Under x ->
  extract_markets_from_api P now_iso ev = Ok out ->
  exists b l r,
    In b out /\ m_name b = "Totals" /\ m_odds b = OddsTotals l /\
    In r l /\ Float.eqb (t_hdp r) x = true.
Proof.
  intros Hms Hio Hco Hto Hqo Hiu Hcu Htu Hqu H.
  rewrite (extract_via_loop P _ _ _ Hms) in H. inv_bind H. injection H as <-.
  destruct (markets_loop_totals_sets _ _ _ _ _ _ _ Hio Hco Hto Hqo Hx)
    as (k1 & r1 & Hin1 & Hk1 & Hl1).
  destruct (markets_loop_totals_sets _ _ _ _ _ _ _ Hiu Hcu Htu Hqu Hx)
    as (k2 & r2 & Hin2 & Hk2 & Hl2).
  destruct (markets_loop_keyed P _ _ _ _ Hx) as [[Hd Hs] _].
  { split; split; constructor. }
  assert (r1 = r2) as <-.
  { apply (same_entry _ k1 r1 k2 r2 Hd Hin1 Hin2).
    apply eqb_trans with x; [exact Hk1 | rewrite eqb_sym; exact Hk2]. }
  cbn [leg_of] in Hl1, Hl2.
  assert (Hout : In r1 (totals_out (totals_lines x0))).
  { unfold totals_out, FDict.values. apply List.filter_In. split.
    - apply List.in_map_iff. exists (k1, r1). auto.
    - rewrite Hl1, Hl2. reflexivity. }
  exists {| m_name := "Totals"; m_updatedAt := now_iso;
            m_odds := OddsTotals (Sort.sort t_hdp (totals_out (totals_lines x0))) |}.
  exists (Sort.sort t_hdp (totals_out (totals_lines x0))), r1.
  split; [|split; [reflexivity|split; [reflexivity|split]]].
  - unfold emit. destruct (totals_out (totals_lines x0)) as [|t tl] eqn:Eo; [contradiction|].
    destruct (handicap_lines x0); [|apply in_or_app; left];
      apply in_or_app; right; left; reflexivity.
  - apply (Permutation_in _ (Permutation_sym (sort_perm t_hdp _))). exact Hout.
  - pose proof (proj1 (List.Forall_forall _ _) Hs _ Hin1) as Hsp. cbn [fst snd] in Hsp.
    destruct (same_point_via _ _ _ Hsp Hk1) as [He | [_ Hn]]; [exact He|].
    apply eqb_not_nan in Hk1 as [_ Hn']. congruence.
Qed.

End TotalsComplete.

Lemma totals_line_emitted_witness :
  extract_markets_from_api Sample.platform0 "t"
    (Sample.fixture (JInt 1) [Sample.totals_market]) =
  Ok [ {| m_name := "Totals"; m_updatedAt := "t";
          m_odds := OddsTotals [ {| t_hdp := Sample.fl "2.5"; t_over := Some "1.850";
                                    t_under := Some "1.950" |} ] |} ] /\
  exists b l r,
    In b [ {| m_name := "Totals"; m_updatedAt := "t";
              m_odds := OddsTotals [ {| t_hdp := Sample.fl "2.5"; t_over := Some "1.850";
                                        t_under := Some "1.950" |} ] |} ] /\
    m_name b = "Totals" /\ m_odds b = OddsTotals l /\
    In r l /\ Float.eqb (t_hdp r) (Sample.fl "2.5") = true.
Proof.
  split; [reflexivity|].
  refine (totals_line_emitted Sample.platform0 "t"
            (Sample.fixture (JInt 1) [Sample.totals_market]) [Sample.totals_market]
            Sample.totals_market Sample.totals_market (Sample.fl "2.5") _
            eq_refl (or_introl eq_refl) eq_refl eq_refl _
            (or_introl eq_refl) eq_refl eq_refl _ eq_refl).
  - exists [Sample.selp "Over" (JStr "2.5") (Sample.num "1.85");
            Sample.selp "Under" (Sample.num "2.5") (Sample.num "1.95")],
           (Sample.selp "Over" (JStr "2.5") (Sample.num "1.85")),
           "over", (Sample.fl "2.5"), "1.850".
    repeat split; try reflexivity. left. reflexivity.
  - exists [Sample.selp "Over" (JStr "2.5") (Sample.num "1.85");
            Sample.selp "Under" (Sample.num "2.5") (Sample.num "1.95")],
           (Sample.selp "Under" (Sample.num "2.5") (Sample.num "1.95")),
           "under", (Sample.fl "2.5"), "1.950".
    repeat split; try reflexivity. right. left. reflexivity.
Defined.

(* ===================================================================== *)
(** * The sequence of requests *)
(* ===================================================================== *)

Section Requests.
Context (P : platform) (U : upstream) (a : args).

Lemma follows_next_window c c1 :
  start_ms c1 = start_ms c -> end_ms c1 = end_ms c ->
  follows a (payload a c) (payload a (next_window a c1)).
Proof.
  intros Hs He. split; [reflexivity|]. right. cbn. rewrite He. repeat split; lia.
Qed.

Lemma page_step_follows c c' :
  page_step P U a c = Ok (NextRequest c') -> follows a (payload a c) (payload a c').
Proof.
  unfold page_step. intros H. inv_bind H. inv_bind H. inv_bind H.
  destruct (negb (Py.truthy _)).
  - apply close_window_ok in H. destruct (got_any_in_window (sent c)); [|discriminate].
    simplify_eq. apply follows_next_window; reflexivity.
  - inv_bind H. inv_bind H. inv_bind H. inv_bind H. inv_bind H. inv_bind H.
    destruct (collect_frame P U _ _ _ Hx3) as (Hs & He & Hp & _).
    cbn [sent start_ms end_ms page] in Hs, He, Hp.
    destruct (_ >=? _).
    + apply close_window_ok in H. destruct (got_any_in_window x3); [|discriminate].
      simplify_eq. apply follows_next_window; assumption.
    + simplify_eq. split; [reflexivity|]. left. cbn. auto with lia.
Qed.

Lemma run_chained fuel c :
  chained a (snd (run P U a fuel c)) /\
  (length (snd (run P U a fuel c)) <= fuel)%nat /\
  match snd (run P U a fuel c) with
  | r :: _ => r = payload a c
  | [] => fuel = O
  end.
Proof.
  revert c. induction fuel as [|fuel IH]; intros c; [cbn; auto|].
  rewrite run_S. destruct (page_step P U a c) as [[c'|r]|e] eqn:Hstep;
    [| cbn; repeat split; lia ..].
  destruct (IH c') as (Hc & Hl & Hh). destruct (run P U a fuel c') as [o log].
  cbn [snd] in *. split; [|split; [cbn; lia | reflexivity]].
  cbn [chained]. destruct log as [|r2 log]; [exact I|].
  split; [|exact Hc]. subst r2. apply page_step_follows, Hstep.
Qed.

(** X11. The requests of a run form one chain. The first asks for the start
    page of the window that opens at the clock reading taken on entry;
    each later one asks either for the next page of the same window or for
    the start page of the window that opens one millisecond after the
    previous window closes, so the windows tile the time line without gap
    or overlap; the page size never changes. A run sends no request at
    all only when the date text of a bound of its first window cannot be
    produced: it then ends with that exception before the first request. *)
Theorem requests_chained (fuel : nat) :
  chained a (snd (scrape_api_only P U fuel a)) /\
  (length (snd (scrape_api_only P U fuel a)) <= fuel)%nat /\
  match snd (scrape_api_only P U fuel a) with
  | r :: _ => r = first_request U a
  | [] =>
      fuel = O \/
      exists e, fst (scrape_api_only P U fuel a) = Raised e /\
                (window_label P (now_ms U) = Raise e \/
                 window_label P (now_ms U + window_ms a) = Raise e)
  end.
Proof.
  destruct (scrape_running P U a fuel) as [(e & He & ->) | [_ ->]].
  - cbn. split; [exact I|]. split; [lia|]. right. exists e. split; [reflexivity|].
    apply open_window_raise in He. exact He.
  - destruct (run_chained fuel (cursor0 U a)) as (Hc & Hl & Hh).
    split; [exact Hc|]. split; [exact Hl|].
    destruct (snd (run P U a fuel (cursor0 U a))); [left|]; exact Hh.
Qed.

End Requests.

(** Two pages of the first window, then the one page of the second, whose
    only fixture is already known: the run ends there. *)
Example requests_sample :
  snd (scrape_api_only Sample.platform0 Sample.upstream_dup 10 Sample.args0) =
  [ {| startTime := 1704000000000; endTime := 1704172800000; pageSize := 50; pageNum := 1 |};
    {| startTime := 1704000000000; endTime := 1704172800000; pageSize := 50; pageNum := 2 |};
    {| startTime := 1704172800001; endTime := 1704345600001; pageSize := 50; pageNum := 1 |} ].
Proof. vm_compute. reflexivity. Qed.

(* ===================================================================== *)
(** * What a page adds to the results *)
(* ===================================================================== *)

Section Results.
Context (P : platform) (U : upstream) (a : args).

Lemma collect_grows items c c' :
  collect P U items c = Ok c' ->
  (exists tl, results c' = (results c ++ tl)%list) /\
  seen_event_ids c ⊆ seen_event_ids c'.
Proof.
  revert c. induction items as [|ev items IH]; intros c H; cbn in H.
  - simplify_eq. split; [exists []; symmetry; apply app_nil_r | reflexivity].
  - inv_bind H. destruct (_ && _); [apply IH; exact H|].
    inv_bind H. inv_bind H. destruct (IH _ H) as [[tl Hr] Hs].
    cbn [results seen_event_ids] in Hr, Hs. split.
    + eexists. rewrite Hr, <- app_assoc. reflexivity.
    + destruct (Str.nonempty x); [|exact Hs].
      etrans; [apply (union_subseteq_r {[x]})|exact Hs].
Qed.

Lemma page_step_grows c s :
  page_step P U a c = Ok s ->
  match s with
  | NextRequest c' =>
      (exists tl, results c' = (results c ++ tl)%list) /\
      seen_event_ids c ⊆ seen_event_ids c'
  | Return r => exists tl, r = (results c ++ tl)%list
  end.
Proof.
  assert (Hend : forall c1,
    (exists tl, results c1 = (results c ++ tl)%list) ->
    seen_event_ids c ⊆ seen_event_ids c1 ->
    close_window P a c1 = Ok s ->
    match s with
    | NextRequest c' =>
        (exists tl, results c' = (results c ++ tl)%list) /\
        seen_event_ids c ⊆ seen_event_ids c'
    | Return r => exists tl, r = (results c ++ tl)%list
    end).
  { intros c1 Hr Hs Hc. apply close_window_ok in Hc as ->.
    destruct (got_any_in_window c1); cbn; auto. }
  unfold page_step. intros H. inv_bind H. inv_bind H. inv_bind H.
  destruct (negb (Py.truthy _)).
  - apply (Hend (sent c)); [exists []; symmetry; apply app_nil_r | reflexivity | exact H].
  - inv_bind H. inv_bind H. inv_bind H. inv_bind H. inv_bind H. inv_bind H.
    apply collect_grows in Hx3 as [Hr Hs]. cbn [sent results seen_event_ids] in Hr, Hs.
    destruct (_ >=? _); [apply (Hend x3); assumption|].
    simplify_eq. cbn. auto.
Qed.

Lemma run_grows fuel c :
  match fst (run P U a fuel c) with
  | Returned r => exists tl, r = (results c ++ tl)%list
  | Running c' =>
      (exists tl, results c' = (results c ++ tl)%list) /\
      seen_event_ids c ⊆ seen_event_ids c'
  | Raised _ => True
  end.
Proof.
  revert c. induction fuel as [|fuel IH]; intros c.
  - cbn. split; [exists []; symmetry; apply app_nil_r | reflexivity].
  - rewrite run_S. destruct (page_step P U a c) as [[c'|r]|e] eqn:Hstep;
      [| apply (page_step_grows _ _ Hstep) | exact I].
    destruct (page_step_grows _ _ Hstep) as [[tl Hr] Hs].
    specialize (IH c'). destruct (run P U a fuel c') as [o log]. cbn [fst] in *.
    destruct o as [r|e|c'']; [| exact I |].
    + destruct IH as [tl' ->]. rewrite Hr, <- app_assoc. eauto.
    + destruct IH as [[tl' ->] Hs']. rewrite Hr, <- app_assoc.
      split; [eauto | set_solver].
Qed.

(** X12. The results only grow. Whatever a run holds after some requests
    stays as it is, in place and unchanged, for the rest of the run: later
    pages append records after it and add ids to the set of known event
    ids, and the requests already sent stay the head of the log. *)
Theorem results_append_only (k : nat) (c : cursor) (log : list request) :
  scrape_api_only P U k a = (Running c, log) ->
  forall j : nat,
    (exists more, snd (scrape_api_only P U (k + j) a) = (log ++ more)%list) /\
    match fst (scrape_api_only P U (k + j) a) with
    | Returned r => exists tl, r = (results c ++ tl)%list
    | Running c' =>
        (exists tl, results c' = (results c ++ tl)%list) /\
        seen_event_ids c ⊆ seen_event_ids c'
    | Raised _ => True
    end.
Proof.
  intros H j.
  destruct (scrape_running P U a k) as [(e & _ & He) | [_ Hk]];
    [rewrite He in H; discriminate H|].
  destruct (scrape_running P U a (k + j)) as [(e & Ho & _) | [_ Hkj]].
  - destruct (scrape_running P U a k) as [(e' & _ & He') | [Ho' _]]; congruence.
  - rewrite Hkj, run_app. rewrite Hk in H. rewrite H. cbn [fst snd].
    split; [eauto | apply run_grows].
Qed.

End Results.

Lemma results_append_only_witness :
  exists c log,
    scrape_api_only Sample.platform0 Sample.upstream_dup 1 Sample.args0 = (Running c, log) /\
    (exists more,
       snd (scrape_api_only Sample.platform0 Sample.upstream_dup (1 + 5) Sample.args0)
       = (log ++ more)%list) /\
    match fst (scrape_api_only Sample.platform0 Sample.upstream_dup (1 + 5) Sample.args0) with
    | Returned r => exists tl, r = (results c ++ tl)%list
    | Running c' =>
        (exists tl, results c' = (results c ++ tl)%list) /\
        seen_event_ids c ⊆ seen_event_ids c'
    | Raised _ => True
    end.
Proof.
  destruct (scrape_api_only Sample.platform0 Sample.upstream_dup 1 Sample.args0)
    as [o log] eqn:E.
  destruct o as [r|e|c]; [exfalso; vm_compute in E; discriminate E ..|].
  exists c, log. split; [reflexivity|].
  exact (results_append_only Sample.platform0 Sample.upstream_dup Sample.args0 1 c log E 5).
Defined.

(* ===================================================================== *)
(** * Fixtures without an id, and fixtures already known *)
(* ===================================================================== *)

Section Dedup.
Context (P : platform) (U : upstream) (a : args).

Lemma collect_without_id evs c c' :
  Forall (fun ev => event_id P ev = Ok "") evs ->
  collect P U evs c = Ok c' ->
  seen_event_ids c' = seen_event_ids c /\
  exists tl, results c' = (results c ++ tl)%list /\ Forall2 (built_from P U) tl evs.
Proof.
  intros Hev. revert c. induction Hev as [|ev evs Hid _ IH]; intros c H; cbn in H.
  - simplify_eq. split; [reflexivity|]. exists []. split; [symmetry; apply app_nil_r|].
    constructor.
  - rewrite Hid in H. cbn [bind Str.nonempty andb] in H.
    inv_bind H. inv_bind H. destruct (IH _ H) as [Hs (tl & Hr & Hb)].
    cbn [results seen_event_ids] in Hs, Hr. split; [exact Hs|].
    eexists. split; [rewrite Hr, <- app_assoc; reflexivity|].
    constructor; [|exact Hb]. exists (n_extracts c), x, x0. auto.
Qed.

(** X13. Fixtures that carry no event id are never taken for duplicates:
    a page made of such fixtures appends one record per fixture, in page
    order and built from it, however often the same fixture has been seen
    before, and leaves the set of known ids as it was. *)
Theorem fixtures_without_id_all_kept (evs : list json) (c c' : cursor) :
  Forall (fun ev => event_id P ev = Ok "") evs ->
  collect P U evs c = Ok c' ->
  seen_event_ids c' = seen_event_ids c /\
  length (results c') = (length (results c) + length evs)%nat /\
  exists tl, results c' = (results c ++ tl)%list /\ Forall2 (built_from P U) tl evs.
Proof.
  intros Hev H. destruct (collect_without_id evs c c' Hev H) as (Hs & tl & Hr & Hb).
  split; [exact Hs|]. split; [|eauto].
  rewrite Hr, length_app. f_equal. eapply Forall2_length; eauto.
Qed.

Lemma collect_known evs c :
  Forall (known_event P c) evs -> collect P U evs c = Ok c.
Proof.
  induction 1 as [|ev evs (s & Hid & Hne & Hin) _ IH]; [reflexivity|].
  cbn [collect]. rewrite Hid. cbn [bind]. rewrite Hne.
  rewrite bool_decide_eq_true_2 by exact Hin. exact IH.
Qed.

(** X15. Fixtures already known do not count as progress. When the last
    page of a window holds nothing but fixtures whose ids are already
    recorded, and no earlier page of that window brought a new one, the run
    returns at once with the results it has: no later window is asked for,
    whatever the upstream still holds. *)
Theorem window_of_known_fixtures_ends_run (c : cursor) (data items : json)
    (evs : list json) (tp pn : Z) :
  accept P (post U (n_posts c) (payload a c)) = Ok data ->
  items_of data = Ok items -> Py.truthy items = true -> Py.iter items = Ok evs ->
  Forall (known_event P c) evs ->
  total_pages_of data = Ok tp -> page_now_of data (page c) = Ok pn -> pn >= tp ->
  got_any_in_window c = false ->
  forall fuel, run P U a (S fuel) c = (Returned (results c), [payload a c]).
Proof.
  intros Hacc Hitems Htr Hiter Hknown Htp Hpn Hge Hgot fuel.
  assert (Hcol : collect P U evs (sent c) = Ok (sent c))
    by (apply collect_known; exact Hknown).
  rewrite run_S, (page_step_items P U a c data items evs (sent c) tp pn) by assumption.
  replace (pn >=? tp) with true by (symmetry; apply Z.geb_le; lia).
  rewrite close_window_def. cbn [sent got_any_in_window results]. rewrite Hgot.
  reflexivity.
Qed.

(** X16. The page counters are read outside any handler. When [totalPages],
    or else [page], holds a value [int()] rejects, the exception leaves the
    run at that page, after its fixtures were normalized: nothing is
    returned, not even the results of the earlier pages. *)
Theorem bad_page_counter_aborts (c c1 : cursor) (data items : json)
    (evs : list json) (e : exn) :
  accept P (post U (n_posts c) (payload a c)) = Ok data ->
  items_of data = Ok items -> Py.truthy items = true -> Py.iter items = Ok evs ->
  collect P U evs (sent c) = Ok c1 ->
  total_pages_of data = Raise e \/
  ((exists tp, total_pages_of data = Ok tp) /\ page_now_of data (page c) = Raise e) ->
  forall fuel, run P U a (S fuel) c = (Raised e, [payload a c]).
Proof.
  intros Hacc Hitems Htr Hiter Hcol Hbad fuel.
  assert (Hstep : page_step P U a c = Raise e).
  { unfold page_step. rewrite Hacc. cbn [bind].
    unfold items_of in Hitems. inv_bind Hitems. inv_bind Hitems.
    injection Hitems as <-. rewrite Hx. cbn [bind]. rewrite Hx0. cbn [bind].
    rewrite Htr. cbn [negb]. rewrite Hiter. cbn [bind]. rewrite Hcol. cbn [bind].
    destruct (collect_frame P U _ _ _ Hcol) as (_ & _ & Hp & _).
    cbn [sent page] in Hp. rewrite Hp.
    unfold total_pages_of, page_now_of in Hbad. rewrite Hx in Hbad. cbn [bind] in Hbad.
    destruct (Py.get (Py.or_ x (JDict [])) "totalPages") as [tpv|e1]; cbn [bind] in *.
    - destruct (Py.int (Py.or_ tpv (JInt 1))) as [tp|e1]; cbn [bind] in *.
      + destruct Hbad as [Hbad | [_ Hbad]]; [discriminate|].
        destruct (Py.get (Py.or_ x (JDict [])) "page") as [pg|e2]; cbn [bind] in *;
          [|congruence].
        rewrite Hbad. reflexivity.
      + destruct Hbad as [Hbad | [[tp Htp] _]]; [congruence | discriminate].
    - destruct Hbad as [Hbad | [[tp Htp] _]]; [congruence | discriminate]. }
  rewrite run_S, Hstep. reflexivity.
Qed.

End Dedup.

Lemma fixtures_without_id_all_kept_witness :
  match collect Sample.platform0 Sample.upstream_empty [Cases.anonymous; Cases.anonymous]
          (cursor0 Sample.upstream_empty Sample.args0) with
  | Ok c' =>
      seen_event_ids c' = seen_event_ids (cursor0 Sample.upstream_empty Sample.args0) /\
      length (results c') = 2%nat /\
      exists tl,
        results c' = (results (cursor0 Sample.upstream_empty Sample.args0) ++ tl)%list /\
        Forall2 (built_from Sample.platform0 Sample.upstream_empty) tl
                [Cases.anonymous; Cases.anonymous]
  | Raise _ => False
  end.
Proof.
  destruct (collect Sample.platform0 Sample.upstream_empty
              [Cases.anonymous; Cases.anonymous]
              (cursor0 Sample.upstream_empty Sample.args0)) as [c'|e] eqn:E.
  - refine (fixtures_without_id_all_kept Sample.platform0 Sample.upstream_empty
              [Cases.anonymous; Cases.anonymous]
              (cursor0 Sample.upstream_empty Sample.args0) c' _ E).
    repeat constructor.
  - vm_compute in E. discriminate E.
Defined.

Lemma window_of_known_fixtures_ends_run_witness :
  run Sample.platform0 Cases.upstream_same Sample.args0 1 Cases.cursor_known =
  (Returned [], [payload Sample.args0 Cases.cursor_known]).
Proof.
  apply (window_of_known_fixtures_ends_run Sample.platform0 Cases.upstream_same
           Sample.args0 Cases.cursor_known
           (Sample.envelope [Sample.fixture (JInt 2) []] 1 1)
           (JList [Sample.fixture (JInt 2) []]) [Sample.fixture (JInt 2) []] 1 1);
    try reflexivity; [|lia].
  constructor; [|constructor].
  exists "2". split; [reflexivity|]. split; [reflexivity|].
  unfold Cases.cursor_known. cbn [seen_event_ids].
  apply elem_of_singleton. reflexivity.
Defined.

Lemma bad_page_counter_aborts_witness :
  run Sample.platform0 Cases.upstream_bad_total Sample.args0 1
      (cursor0 Cases.upstream_bad_total Sample.args0) =
  (Raised ValueError, [payload Sample.args0 (cursor0 Cases.upstream_bad_total Sample.args0)]).
Proof.
  destruct (collect Sample.platform0 Cases.upstream_bad_total
              [Sample.fixture (JInt 1) [Sample.ml_market]]
              (sent (cursor0 Cases.upstream_bad_total Sample.args0))) as [c1|e] eqn:E.
  - apply (bad_page_counter_aborts Sample.platform0 Cases.upstream_bad_total Sample.args0
             (cursor0 Cases.upstream_bad_total Sample.args0) c1 Cases.envelope_bad_total
             (JList [Sample.fixture (JInt 1) [Sample.ml_market]])
             [Sample.fixture (JInt 1) [Sample.ml_market]] ValueError);
      [reflexivity | reflexivity | reflexivity | reflexivity | exact E | left; reflexivity].
  - vm_compute in E. discriminate E.
Defined.

(* ===================================================================== *)
(** * Runs that do not end *)
(* ===================================================================== *)

Section Endless.
Context (P : platform) (U : upstream) (a : args).





End Endless.


(** Past the last year of the calendar the run ends with the exception of
    the window label, before any request of that window. *)
Example window_past_calendar :
  scrape_api_only Cases.platform_9999 Cases.upstream_anonymous 5 Cases.args_far
  = (Raised ValueError, []) /\
  scrape_api_only Cases.platform_9999 Cases.upstream_anonymous 5
    (with_hours Sample.args0 36000000)
  = (Raised ValueError,
     [ {| startTime := 1704000000000; endTime := 131304000000000;
          pageSize := 50; pageNum := 1 |} ]).
Proof. split; vm_compute; reflexivity. Qed.

(* ===================================================================== *)
(** * Request headers *)
(* ===================================================================== *)

Lemma get_set_same (k v : string) (d : SDict.t) :
  SDict.get k (SDict.set k v d) = Some v.
Proof.
  induction d as [|[k' v'] d IH]; cbn.
  - rewrite String.eqb_refl. reflexivity.
  - destruct (String.eqb k' k) eqn:E; cbn; rewrite E; [reflexivity | exact IH].
Qed.

Lemma get_set_other (k k0 v : string) (d : SDict.t) :
  k <> k0 -> SDict.get k (SDict.set k0 v d) = SDict.get k d.
Proof.
  intros Hk. induction d as [|[k' v'] d IH]; cbn.
  - destruct (String.eqb_spec k0 k); [congruence | reflexivity].
  - destruct (String.eqb_spec k' k0) as [->|Hne]; cbn.
    + destruct (String.eqb_spec k0 k); [congruence | reflexivity].
    + rewrite IH. reflexivity.
Qed.

Lemma set_Forall (Q : string * string -> Prop) (k v : string) (d : SDict.t) :
  (forall k', Q (k', v)) -> Forall Q d -> Forall Q (SDict.set k v d).
Proof.
  intros Hv. induction 1 as [|[k' v'] d Hkv Hd IH]; cbn.
  - constructor; [apply Hv | constructor].
  - destruct (String.eqb k' k); constructor; auto.
Qed.

Lemma or_hardcoded_provided (arg hardcoded : string) :
  (if Str.nonempty (or_hardcoded arg hardcoded)
   then Some (or_hardcoded arg hardcoded) else None) = provided arg hardcoded.
Proof.
  unfold or_hardcoded, provided.
  destruct (Str.nonempty arg) eqn:Ea; cbn [negb andb]; [rewrite Ea; reflexivity|].
  destruct (Str.nonempty hardcoded) eqn:Eh; [rewrite Eh | rewrite Ea]; reflexivity.
Qed.

Section HeaderFacts.
Context (E : environ) (cookies x_sign x_ts : string).

(** X17. A credential header is sent exactly when a value is at hand, and
    the argument wins over the environment: [Cookie], [X-Request-Sign] and
    [X-Request-Timestamp] each carry the argument when it is not empty,
    else the value of the environment variable when that is not empty, and
    are absent otherwise; one of them being set or absent never affects
    another. *)
Theorem credential_headers :
  SDict.get "Cookie" (build_headers E cookies x_sign x_ts)
    = provided cookies (HARDCODE_COOKIES E) /\
  SDict.get "X-Request-Sign" (build_headers E cookies x_sign x_ts)
    = provided x_sign (HARDCODE_SIGN E) /\
  SDict.get "X-Request-Timestamp" (build_headers E cookies x_sign x_ts)
    = provided x_ts (HARDCODE_TS E).
Proof.
  unfold build_headers.
  rewrite <- (or_hardcoded_provided cookies), <- (or_hardcoded_provided x_sign),
          <- (or_hardcoded_provided x_ts).
  destruct (Str.nonempty (or_hardcoded cookies _));
    destruct (Str.nonempty (or_hardcoded x_sign _));
    destruct (Str.nonempty (or_hardcoded x_ts _));
    repeat split;
    repeat first [ rewrite get_set_same | rewrite get_set_other by discriminate ];
    reflexivity.
Qed.

(** X18. Whatever the arguments and the environment hold, the nineteen
    browser headers are sent with their fixed values: every header other
    than the three credential headers reads as in the literal. No header
    is ever sent with an empty value. *)
Theorem browser_headers_fixed :
  (forall k, sensitive k = false ->
     SDict.get k (build_headers E cookies x_sign x_ts) = SDict.get k browser_headers) /\
  length browser_headers = 19%nat /\
  Forall (fun kv => Str.nonempty (snd kv) = true) (build_headers E cookies x_sign x_ts).
Proof.
  split; [|split; [reflexivity|]].
  - intros k Hk. unfold sensitive in Hk.
    apply orb_false_iff in Hk as [Hk Ht]. apply orb_false_iff in Hk as [Hc Hs].
    apply String.eqb_neq in Hc, Hs, Ht. unfold build_headers.
    destruct (Str.nonempty (or_hardcoded cookies _));
      destruct (Str.nonempty (or_hardcoded x_sign _));
      destruct (Str.nonempty (or_hardcoded x_ts _));
      repeat rewrite get_set_other by assumption; reflexivity.
  - unfold build_headers.
    assert (H0 : Forall (fun kv : string * string => Str.nonempty (snd kv) = true)
                        browser_headers) by (repeat constructor).
    destruct (Str.nonempty (or_hardcoded cookies _)) eqn:Ec;
      destruct (Str.nonempty (or_hardcoded x_sign _)) eqn:Es;
      destruct (Str.nonempty (or_hardcoded x_ts _)) eqn:Et;
      repeat (apply set_Forall; [intros; assumption|]); exact H0.
Qed.

End HeaderFacts.

(** An argument wins over the environment; an empty argument falls back to
    it; with neither, the header is absent. *)
Example credential_headers_sample :
  let E := {| HARDCODE_COOKIES := "sid=env"; HARDCODE_SIGN := "";
              HARDCODE_TS := "1700000000" |} in
  let h := build_headers E "sid=arg" "" "" in
  SDict.get "Cookie" h = Some "sid=arg" /\
  SDict.get "X-Request-Sign" h = None /\
  SDict.get "X-Request-Timestamp" h = Some "1700000000" /\
  SDict.get "Content-Type" h = Some "application/json" /\
  length h = 21%nat.
Proof. vm_compute. repeat split; reflexivity. Qed.

(* ===================================================================== *)
(** * The output file *)
(* ===================================================================== *)

(** X19. The results go to the path given with [--out] only when that path
    is absolute. A relative path is not resolved against anything: it is
    dropped, and the results go to the default file, the same file as when
    no path is given at all. *)
Theorem relative_out_ignored (F : filesystem) (out : option string) :
  written_path F (main_output_path F out) =
  match out with
  | Some p => if isabs F p then p else default_output_file F
  | None => default_output_file F
  end.
Proof.
  unfold written_path, main_output_path. destruct out as [p|].
  - destruct (isabs F p); reflexivity.
  - destruct (isabs F (default_output_file F)); reflexivity.
Qed.

(** The usage line of the module, [--out out.json], writes the default
    file. *)
Example relative_out_sample :
  written_path Cases.posix (main_output_path Cases.posix (Some "out.json"))
    = "/srv/data/2up_output_data.json" /\
  written_path Cases.posix (main_output_path Cases.posix (Some "/tmp/out.json"))
    = "/tmp/out.json" /\
  written_path Cases.posix (main_output_path Cases.posix None)
    = "/srv/data/2up_output_data.json".
Proof. repeat split; reflexivity. Qed.

(* ===================================================================== *)
(** * The loop of [main] *)
(* ===================================================================== *)

Section MainLoop.
Context (W : console).

Lemma failures_S (n : nat) :
  failures W (S n) =
  failures W n + (if is_failed (attempt_end W (S n)) then 1 else 0).
Proof.
  unfold failures. rewrite seq_S, List.filter_app, length_app. cbn [List.filter].
  change (1 + n)%nat with (S n).
  destruct (is_failed (attempt_end W (S n))); cbn [length]; lia.
Qed.

(** The seconds slept match the iterations done. *)
Lemma main_iteration_spec (st : main_state) :
  slept st = 60 * Z.of_nat (loop_count st) + 30 * failures W (loop_count st) ->
  match main_iteration W st with
  | Looping st' =>
      loop_count st' = S (loop_count st) /\
      slept st' = 60 * Z.of_nat (loop_count st') + 30 * failures W (loop_count st')
  | SystemExit code => code = 0 /\ attempt_end W (S (loop_count st)) = Interrupted
  | UncaughtKeyboardInterrupt => exists n, sleep_interrupted W n = true
  | UncaughtOSError => False
  end.
Proof.
  intros Hs. unfold main_iteration, wait_next, sleep. cbn [loop_count n_sleeps slept].
  pose proof (failures_S (loop_count st)) as Hf.
  destruct (attempt_end W (S (loop_count st))) as [|e|] eqn:Ea; cbn [is_failed] in Hf.
  - destruct (sleep_interrupted W (n_sleeps st)) eqn:Ei; [eauto|].
    cbn [loop_count slept]. split; [reflexivity | lia].
  - destruct (sleep_interrupted W (n_sleeps st)) eqn:Ei; [eauto|].
    cbn [n_sleeps loop_count slept].
    destruct (sleep_interrupted W (S (n_sleeps st))) eqn:Ej; [eauto|].
    cbn [loop_count slept]. split; [reflexivity | lia].
  - split; reflexivity.
Qed.

Lemma main_loop_spec (fuel : nat) (st : main_state) :
  slept st = 60 * Z.of_nat (loop_count st) + 30 * failures W (loop_count st) ->
  match main_loop W fuel st with
  | Looping st' =>
      loop_count st' = (loop_count st + fuel)%nat /\
      slept st' = 60 * Z.of_nat (loop_count st') + 30 * failures W (loop_count st')
  | SystemExit code =>
      code = 0 /\
      exists n, (loop_count st < n <= loop_count st + fuel)%nat /\
                attempt_end W n = Interrupted
  | UncaughtKeyboardInterrupt => exists n, sleep_interrupted W n = true
  | UncaughtOSError => False
  end.
Proof.
  revert st. induction fuel as [|fuel IH]; intros st Hs; cbn [main_loop].
  - split; [lia | exact Hs].
  - pose proof (main_iteration_spec st Hs) as Hi.
    destruct (main_iteration W st) as [code| | |st'].
    + destruct Hi as [-> Ha]. split; [reflexivity|].
      exists (S (loop_count st)). split; [lia | exact Ha].
    + exact Hi.
    + exact Hi.
    + destruct Hi as [Hl Hs']. specialize (IH st' Hs').
      destruct (main_loop W fuel st') as [code| | |st''].
      * destruct IH as [-> (n & Hn & Ha)]. split; [reflexivity|].
        exists n. split; [lia | exact Ha].
      * exact IH.
      * exact IH.
      * destruct IH as [Hl' Hs'']. split; [lia | exact Hs''].
Qed.

(** X20. [main] never returns. It ends before its loop in two ways: with
    the exit status of argparse (2 for a command line it rejects, 0 after
    [--help]), or, when no [--out] is given, with the uncaught [OSError]
    of a default directory that cannot be made. Once in the loop, after
    any number of iterations it is still looping, having called
    [scrape_api_only] once per iteration and slept 60 seconds per
    iteration plus 30 for each call that raised: an exception of a run
    only delays the next one. The loop ends in two ways only: with exit
    status 0, when a [KeyboardInterrupt] arrives during a run, or with
    that interrupt uncaught, when it arrives during a sleep. *)
Theorem main_runs_until_interrupted (fuel : nat) :
  match main W fuel with
  | Looping st =>
      (exists out, argv W = Parsed out /\ (out = None -> mkdir_fails W = false)) /\
      loop_count st = fuel /\
      slept st = 60 * Z.of_nat fuel + 30 * failures W fuel
  | SystemExit code =>
      argv W = Usage code \/
      ((exists out, argv W = Parsed out /\ (out = None -> mkdir_fails W = false)) /\
       code = 0 /\ exists n, (1 <= n <= fuel)%nat /\ attempt_end W n = Interrupted)
  | UncaughtKeyboardInterrupt =>
      (exists out, argv W = Parsed out /\ (out = None -> mkdir_fails W = false)) /\
      exists n, sleep_interrupted W n = true
  | UncaughtOSError => argv W = Parsed None /\ mkdir_fails W = true
  end.
Proof.
  unfold main. destruct (argv W) as [out|code]; [|left; reflexivity].
  destruct (bool_decide (out = None) && mkdir_fails W) eqn:Em.
  { apply andb_true_iff in Em as [Ho Hm]. apply bool_decide_eq_true_1 in Ho.
    subst out. auto. }
  assert (Hstart : exists out', Parsed out = Parsed out' /\
                                (out' = None -> mkdir_fails W = false)).
  { exists out. split; [reflexivity|]. intros ->. exact Em. }
  pose proof (main_loop_spec fuel {| loop_count := O; n_sleeps := O; slept := 0 |}
                eq_refl) as H.
  destruct (main_loop W fuel _) as [code| | |st]; cbn [loop_count] in H.
  - destruct H as [Hc (n & Hn & Ha)]. right. split; [exact Hstart|].
    split; [exact Hc|]. exists n. split; [lia | exact Ha].
  - auto.
  - contradiction.
  - destruct H as [Hl Hs]. rewrite Hl in Hs. cbn in Hl. auto.
Qed.

End MainLoop.

(** Two failed runs and three good ones: five iterations, 360 seconds of
    sleep. With Ctrl+C during the fourth run, exit status 0. A rejected
    command line and a default directory that cannot be made end [main]
    before the first run. *)
Example main_sample :
  main Cases.console_quiet 5 =
    Looping {| loop_count := 5; n_sleeps := 7; slept := 360 |} /\
  main Cases.console_stop 5 = SystemExit 0 /\
  main Cases.console_usage 5 = SystemExit 2 /\
  main Cases.console_no_dir 5 = UncaughtOSError.
Proof. repeat split; reflexivity. Qed.

(* ===================================================================== *)
(** * Prices: what is dropped and what is kept *)
(* ===================================================================== *)

Lemma format_parsed (v : json) :
  format_decimal_str v = option_map Float.format_3f (parsed v).
Proof.
  unfold format_decimal_str, parsed, repaired.
  destruct v; try reflexivity;
    match goal with
    | |- context [Py.float_of ?w] => destruct (Py.float_of w); reflexivity
    end.
Qed.

Lemma selection_price_field (s : json) :
  selection_price s = (dec <- price_field s ;; Ok (format_decimal_str dec)).
Proof.
  unfold selection_price, price_field.
  destruct (Py.get s "trueOdds") as [t|]; cbn [bind]; [|reflexivity].
  destruct (Py.truthy t); cbn [bind]; [reflexivity|].
  destruct (Py.get s "displayOdds") as [d|]; cbn [bind]; [|reflexivity].
  destruct (Py.get _ "Decimal"); reflexivity.
Qed.

Lemma selection_price_parsed (s : json) (p : string) :
  selection_price s = Ok (Some p) ->
  exists dec x, price_field s = Ok dec /\ parsed dec = Some x /\ p = Float.format_3f x.
Proof.
  rewrite selection_price_field. intros H. inv_bind H. injection H as H.
  rewrite format_parsed in H. destruct (parsed x) as [y|] eqn:E; [|discriminate].
  injection H as <-. eauto.
Qed.

Lemma price_unparsed (s dec : json) :
  price_field s = Ok dec -> parsed dec = None -> selection_price s = Ok None.
Proof.
  intros Hf Hp. rewrite selection_price_field, Hf. cbn [bind].
  rewrite format_parsed, Hp. reflexivity.
Qed.

Lemma price_parsed (s dec : json) (x : float) :
  price_field s = Ok dec -> parsed dec = Some x ->
  selection_price s = Ok (Some (Float.format_3f x)).
Proof.
  intros Hf Hp. rewrite selection_price_field, Hf. cbn [bind].
  rewrite format_parsed, Hp. reflexivity.
Qed.

Section Backed.
Context (P : platform).

Lemma leg_from_parsed ss o p : leg_from P ss o p -> parsed_leg P ss o p.
Proof.
  intros (s & Hin & Ho & Hp).
  destruct (selection_price_parsed _ _ Hp) as (dec & x & Hf & Hx & ->).
  exists s, dec, x. auto.
Qed.

Lemma parsed_leg_among ms m ss o p :
  In m ms -> selections_of m = Ok ss -> parsed_leg P ss o p -> price_among ms p.
Proof.
  intros Hm Hss (s & dec & x & Hin & _ & Hf & Hx & ->).
  exists m, ss, s, dec, x. auto 10.
Qed.

Lemma totals_leg_among ms sd hdp p : totals_leg P ms sd hdp p -> price_among ms p.
Proof.
  intros (m & ss & s & ou & y & Hm & _ & Hss & Hin & _ & _ & _ & _ & Hp).
  destruct (selection_price_parsed _ _ Hp) as (dec & x & Hf & Hx & ->).
  exists m, ss, s, dec, x. auto 10.
Qed.

Lemma handicap_line_among ms r :
  handicap_line_from P ms r ->
  price_among ms (h_home r) /\ price_among ms (h_away r).
Proof.
  intros (m & ss & sh & sa & xa & Hm & _ & Hss & Hsh & Hsa & _ & _ & _ & _ & Hph & Hpa).
  destruct (selection_price_parsed _ _ Hph) as (dh & xh & Hfh & Hxh & Hh).
  destruct (selection_price_parsed _ _ Hpa) as (da & xw & Hfa & Hxa & Ha).
  split; [exists m, ss, sh, dh, xh | exists m, ss, sa, da, xw]; auto 10.
Qed.

(** Every leg of every block of the output renders the parsed price value
    of a selection of the fixture. *)
Lemma extract_backed now ev out :
  extract_markets_from_api P now ev = Ok out ->
  exists ms, markets_of ev = Ok ms /\
             Forall (fun b => odds_backed ms (m_odds b)) out.
Proof.
  intros H.
  destruct (extract_loop P _ _ _ H) as (ms & a & Hms & Hloop & -> & Hm).
  exists ms. split; [exact Hms|].
  assert (Ht : Forall (totals_entry_from P ms) (totals_lines a)).
  { eapply markets_loop_totals_from; [| exact Hloop | constructor]. auto. }
  assert (Hh : Forall (fun kv => handicap_line_from P ms (snd kv)) (handicap_lines a)).
  { eapply markets_loop_handicap_from; [| exact Hloop | constructor]. auto. }
  apply List.Forall_forall. intros b Hb.
  destruct (In_emit _ _ _ _ Hm Hb) as [(e & He & ->) | [[_ ->] | [_ ->]]];
    cbn [m_odds ml_block odds_backed].
  - destruct (first_ml_In P _ _ He) as (m & Hin & Hml).
    destruct (ml_of_market_legs P _ _ Hml) as (_ & ss & Hss & Lh & Ld & La).
    constructor; [|constructor]. cbn [ml_home ml_draw ml_away].
    repeat split.
    + eapply parsed_leg_among; eauto using leg_from_parsed.
    + destruct Ld as [Ld | Ld]; eapply parsed_leg_among; eauto using leg_from_parsed.
    + eapply parsed_leg_among; eauto using leg_from_parsed.
  - apply List.Forall_forall. intros r Hr.
    apply (Permutation_in _ (sort_perm t_hdp _)) in Hr.
    unfold totals_out, FDict.values in Hr.
    apply List.filter_In in Hr as [Hin Hp].
    apply List.in_map_iff in Hin as (kv & <- & Hin).
    eapply List.Forall_forall in Ht; [|exact Hin].
    destruct Ht as (_ & Hov & Hun).
    destruct (t_over (snd kv)) as [po|]; [|discriminate].
    destruct (t_under (snd kv)) as [pu|];
      [|cbn in Hp; rewrite andb_false_r in Hp; discriminate].
    exists po, pu. repeat split; eauto using totals_leg_among.
  - apply List.Forall_forall. intros r Hr.
    apply (Permutation_in _ (sort_perm h_hdp _)) in Hr.
    unfold FDict.values in Hr.
    apply List.in_map_iff in Hr as (kv & <- & Hin).
    eapply List.Forall_forall in Hh; [|exact Hin].
    apply handicap_line_among, Hh.
Qed.

End Backed.

(** C1, as amended. The price value of a selection is [trueOdds] when
    that is truthy and [displayOdds.Decimal] otherwise, and the price is
    its 3-decimal rendering exactly when [float()] takes the value (commas
    turned into dots first). A price value that does not parse is treated
    as absent: in each of the three selection loops the selection changes
    nothing. Every leg of every emitted block renders the number that the
    price value of a selection of the fixture parsed to, and an emitted
    Totals or Handicap line has both of its legs. The sign of the number
    is not looked at: whatever a price value parses to is rendered and
    taken as a price by the moneyline, the totals and the handicap
    loop. *)
Theorem C1_unparseable_price_absent (P : platform) :
  (forall v, format_decimal_str v = option_map Float.format_3f (parsed v)) /\
  (forall s dec rest,
     price_field s = Ok dec -> parsed dec = None ->
     (forall legs, ml_selections P (s :: rest) legs = ml_selections P rest legs) /\
     (forall lines,
        totals_selections P (s :: rest) lines = totals_selections P rest lines) /\
     (forall legs,
        handicap_selections P (s :: rest) legs = handicap_selections P rest legs)) /\
  (forall now_iso ev out,
     extract_markets_from_api P now_iso ev = Ok out ->
     exists ms, markets_of ev = Ok ms /\
                Forall (fun b => odds_backed ms (m_odds b)) out) /\
  (forall s dec x rest legs,
     price_field s = Ok dec -> parsed dec = Some x ->
     outcome_of P s = Ok "home" ->
     ml_selections P (s :: rest) legs =
     ml_selections P rest
       {| home_p := Some (Float.format_3f x); draw_p := draw_p legs;
          away_p := away_p legs |}) /\
  (forall s dec x pts ou rest lines,
     price_field s = Ok dec -> parsed dec = Some x ->
     totals_points_of s = Ok (Some pts) -> ou_of P s = Ok ou ->
     totals_selections P (s :: rest) lines =
     totals_selections P rest
       (FDict.upsert pts {| t_hdp := pts; t_over := None; t_under := None |}
          (if Str.contains "over" ou then set_over (Some (Float.format_3f x))
           else if Str.contains "under" ou then set_under (Some (Float.format_3f x))
           else fun r => r)
          lines)) /\
  (forall s dec x pts rest legs,
     price_field s = Ok dec -> parsed dec = Some x ->
     handicap_points_of s = Ok (Some pts) -> outcome_of P s = Ok "away" ->
     handicap_selections P (s :: rest) legs =
     handicap_selections P rest
       {| home_pts := home_pts legs; home_price := home_price legs;
          away_pts := Some pts; away_price := Some (Float.format_3f x) |}).
Proof.
  split; [exact format_parsed|]. split; [|split; [|split; [|split]]].
  - intros s dec rest Hf Hp. pose proof (price_unparsed s dec Hf Hp) as H.
    repeat split; intros.
    + apply selection_skipped_ml, H.
    + apply selection_skipped_totals, H.
    + apply selection_skipped_handicap, H.
  - intros now_iso ev out H. exact (extract_backed P now_iso ev out H).
  - intros s dec x rest legs Hf Hp Ho.
    pose proof (price_parsed s dec x Hf Hp) as H.
    unfold outcome_of in Ho. cbn [ml_selections].
    destruct (Py.get s "outcomeType") as [o|]; [|discriminate Ho].
    cbn [bind] in *. injection Ho as Ho. rewrite H. cbn [bind priced].
    rewrite format_3f_nonempty, Ho. reflexivity.
  - intros s dec x pts ou rest lines Hf Hp Hpts Hou.
    pose proof (price_parsed s dec x Hf Hp) as H.
    unfold totals_points_of in Hpts. unfold ou_of in Hou. cbn [totals_selections].
    destruct (Py.get s "outcomeType") as [o|]; [|discriminate Hou].
    destruct (Py.get s "name") as [n|]; [|discriminate Hou].
    destruct (Py.get s "points") as [v|]; [|discriminate Hpts].
    cbn [bind] in *. injection Hou as Hou. injection Hpts as Hpts.
    rewrite Hpts, H. cbn [bind priced]. rewrite format_3f_nonempty, Hou. reflexivity.
  - intros s dec x pts rest legs Hf Hp Hpts Ho.
    pose proof (price_parsed s dec x Hf Hp) as H.
    unfold handicap_points_of in Hpts. unfold outcome_of in Ho. cbn [handicap_selections].
    destruct (Py.get s "outcomeType") as [o|]; [|discriminate Ho].
    destruct (Py.get s "points") as [v|]; [|discriminate Hpts].
    cbn [bind] in *. injection Ho as Ho. injection Hpts as Hpts.
    rewrite Hpts, H. cbn [bind priced]. rewrite format_3f_nonempty, Ho. reflexivity.
Qed.

Lemma C1_unparseable_price_absent_witness :
  price_field Sample.sel_unparseable = Ok (JStr "n/a") /\
  parsed (JStr "n/a") = None /\
  ml_selections Sample.platform0
    [Sample.sel_unparseable; Sample.sel "home" (JStr "1.90")] no_legs =
  ml_selections Sample.platform0 [Sample.sel "home" (JStr "1.90")] no_legs.
Proof.
  split; [reflexivity|]. split; [reflexivity|].
  exact (proj1 (proj1 (proj2 (C1_unparseable_price_absent Sample.platform0))
                  Sample.sel_unparseable (JStr "n/a")
                  [Sample.sel "home" (JStr "1.90")] eq_refl eq_refl) no_legs).
Defined.

(** C1, as stated, fails: a price value that parses to a negative number
    or to zero is not dropped, in a moneyline and in a totals line alike.
    Only a numeric 0 under [trueOdds] goes, because it is falsy: the price
    value is then read from [displayOdds]. *)
Lemma C1_nonpositive_price_kept :
  format_decimal_str (JStr "-1.5") = Some "-1.500" /\
  format_decimal_str (JStr "0") = Some "0.000" /\
  extract_markets_from_api Sample.platform0 "t"
    (Sample.fixture (JInt 1)
       [Sample.ml_market_nonpositive; Sample.totals_market_nonpositive]) =
  Ok [ ml_block "t" "-1.500" "0.000" "-2.000";
       {| m_name := "Totals"; m_updatedAt := "t";
          m_odds := OddsTotals [ {| t_hdp := Sample.fl "2.5";
                                    t_over := Some "-1.850";
                                    t_under := Some "0.000" |} ] |} ] /\
  price_field (Sample.sel "home" (JInt 0)) = Ok JNull /\
  price_field (JDict [("outcomeType", JStr "home"); ("trueOdds", JInt 0);
                      ("displayOdds", JDict [("Decimal", JStr "2,10")])])
    = Ok (JStr "2,10").
Proof. repeat split; vm_compute; reflexivity. Qed.

(* ===================================================================== *)
(** * Moneyline *)
(* ===================================================================== *)

(** C7, as amended. An ML block is emitted only for a confirmed-primary
    market whose home, tie/draw and away selections each carry a price
    value that [float()] parses: every ML block of the output holds
    exactly one odds entry, whose three legs render the numbers parsed
    from a home, a tie or draw, and an away selection of one such market
    of the fixture. When no confirmed-primary market has a tie or draw
    selection with a price value that parses, the output has no ML
    block. *)
Theorem C7_moneyline_complete (P : platform) :
  (forall now_iso ev out b,
     extract_markets_from_api P now_iso ev = Ok out ->
     In b out -> m_name b = "ML" ->
     exists h d w m ms ss,
       b = ml_block now_iso h d w /\
       markets_of ev = Ok ms /\ In m ms /\ confirmed_primary P m = true /\
       selections_of m = Ok ss /\
       parsed_leg P ss "home" h /\
       (parsed_leg P ss "tie" d \/ parsed_leg P ss "draw" d) /\
       parsed_leg P ss "away" w) /\
  (forall now_iso ev out ms,
     extract_markets_from_api P now_iso ev = Ok out ->
     markets_of ev = Ok ms ->
     (forall m ss d,
        In m ms -> confirmed_primary P m = true -> selections_of m = Ok ss ->
        ~ parsed_leg P ss "tie" d /\ ~ parsed_leg P ss "draw" d) ->
     List.filter is_ML out = []).
Proof.
  split.
  - intros now_iso ev out b Hout Hin Hname.
    destruct (extract_ML P _ _ _ Hout) as (ms & Hms & Hf).
    pose proof (In_filter_ML b out Hin Hname) as Hb. rewrite Hf in Hb.
    destruct (first_ml P ms) as [o|] eqn:E; [|destruct Hb].
    destruct Hb as [<-|[]].
    destruct (first_ml_In P _ _ E) as (m & Hm & Hml).
    destruct (ml_of_market_legs P _ _ Hml) as (Hc & ss & Hss & Hh & Hd & Ha).
    exists (ml_home o), (ml_draw o), (ml_away o), m, ms, ss.
    repeat split; auto using leg_from_parsed.
    destruct Hd; [left | right]; auto using leg_from_parsed.
  - intros now_iso ev out ms Hout Hms Hno.
    destruct (extract_ML P _ _ _ Hout) as (ms' & Hms' & ->).
    rewrite Hms in Hms'. injection Hms' as <-.
    destruct (first_ml P ms) as [o|] eqn:E; [|reflexivity].
    destruct (first_ml_In P _ _ E) as (m & Hm & Hml).
    destruct (ml_of_market_legs P _ _ Hml) as (Hc & ss & Hss & _ & Hd & _).
    destruct (Hno m ss (ml_draw o) Hm Hc Hss) as [Ht Hdr].
    destruct Hd as [Hd | Hd]; apply leg_from_parsed in Hd; contradiction.
Qed.

Lemma C7_moneyline_complete_witness :
  extract_markets_from_api Sample.platform0 "t"
    (Sample.fixture (JInt 1) [Sample.ml_market]) = Ok [ml_block "t" "1.900" "3.400" "4.100"] /\
  exists h d w m ms ss,
    ml_block "t" "1.900" "3.400" "4.100" = ml_block "t" h d w /\
    markets_of (Sample.fixture (JInt 1) [Sample.ml_market]) = Ok ms /\ In m ms /\
    confirmed_primary Sample.platform0 m = true /\
    selections_of m = Ok ss /\
    parsed_leg Sample.platform0 ss "home" h /\
    (parsed_leg Sample.platform0 ss "tie" d \/ parsed_leg Sample.platform0 ss "draw" d) /\
    parsed_leg Sample.platform0 ss "away" w.
Proof.
  split; [reflexivity|].
  apply (proj1 (C7_moneyline_complete Sample.platform0) "t"
           (Sample.fixture (JInt 1) [Sample.ml_market])
           [ml_block "t" "1.900" "3.400" "4.100"]);
    [reflexivity | left; reflexivity | reflexivity].
Defined.

(** C7, as stated, fails where a valid price is a positive decimal: legs
    that parse to a negative number, to zero, to NaN or to an infinity
    make an ML block like any other. *)
Lemma C7_invalid_legs_emitted :
  extract_markets_from_api Sample.platform0 "t"
    (Sample.fixture (JInt 1) [Sample.ml_market_nonpositive])
  = Ok [ml_block "t" "-1.500" "0.000" "-2.000"] /\
  extract_markets_from_api Sample.platform0 "t"
    (Sample.fixture (JInt 1)
       [Sample.mkt "FT 1X2" [Sample.sel "home" (JStr "nan"); Sample.sel "tie" (JStr "inf");
                             Sample.sel "away" (JStr "-Infinity")]])
  = Ok [ml_block "t" "nan" "inf" "-inf"].
Proof. repeat split; vm_compute; reflexivity. Qed.

(** The confirmed primary that prices home and away only gives no block,
    and neither does one whose draw does not parse. *)
Example moneyline_without_draw :
  extract_markets_from_api Sample.platform0 "t"
    (Sample.fixture (JInt 1) [Sample.ml_market_no_draw]) = Ok [] /\
  extract_markets_from_api Sample.platform0 "t"
    (Sample.fixture (JInt 1)
       [Sample.mkt "FT 1X2" [Sample.sel "home" (JStr "1.90"); Sample.sel_unparseable;
                             Sample.sel "away" (JStr "4.10")]]) = Ok [].
Proof. split; vm_compute; reflexivity. Qed.


(** In general: a market that is not a confirmed primary never yields a
    block, and once a block exists no later market changes it. The branch
    that would replace a block cannot be reached. *)
Lemma moneyline_slot_closed (P : platform) (now_iso : string) (a a' : acc) (m : json) :
  market_step P now_iso a m = Ok a' ->
  (ml_done a = true -> markets_out a' = markets_out a) /\
  (confirmed_primary P m = false -> markets_out a' = markets_out a).
Proof.
  intros H. split.
  - intros Hd. apply (market_step_done P _ _ _ _ Hd H).
  - intros Hc. unfold market_step in H. unfold confirmed_primary in Hc.
    inv_bind H. inv_bind H. inv_bind H. rewrite Hx, Hx0 in Hc.
    rewrite Hc, andb_false_r in H.
    repeat case_match; simplify_eq; try (inv_bind H); try (inv_bind H);
      repeat case_match; simplify_eq; auto.
Qed.

(* ===================================================================== *)
(** * One page of fixtures *)
(* ===================================================================== *)

Section Pages.
Context (P : platform) (U : upstream) (a : args).

Lemma event_id_recorded (ev : json) :
  is_dict ev = true ->
  event_id P ev = Ok (Py.str P (Py.or_ (field ev "eventId") (JStr ""))).
Proof. intros Hd. unfold event_id. rewrite (get_dict _ _ Hd). reflexivity. Qed.

Lemma recorded_ids_cons (ev : json) (evs : list json) :
  recorded_ids P (ev :: evs) =
  match recorded_id P ev with
  | Some s => s :: recorded_ids P evs
  | None => recorded_ids P evs
  end.
Proof. reflexivity. Qed.

(** What the loop over a page does, in terms of the page alone: the
    fixtures that get a record are those without an id and, of each id
    not recorded before, the first; the flag is raised exactly when there
    is one. *)
Lemma collect_page (evs : list json) (c : cursor) :
  Forall (normalizes P) evs ->
  exists c1,
    collect P U evs c = Ok c1 /\
    got_any_in_window c1 =
      got_any_in_window c || negb (forallb (known P (seen_event_ids c)) evs) /\
    (forallb (known P (seen_event_ids c)) evs = true -> c1 = c) /\
    (exists recs,
       results c1 = (results c ++ recs)%list /\
       Forall2 (built_from P U) recs (fresh_fixtures P (seen_event_ids c) evs)) /\
    (forall s, s ∈ seen_event_ids c1 <->
               s ∈ seen_event_ids c \/ In s (recorded_ids P evs)).
Proof.
  intros Hn. revert c. induction Hn as [|ev evs (Hd & [it Hit] & Hex) _ IH]; intros c.
  - exists c. cbn. rewrite orb_false_r. repeat split; auto.
    + exists []. split; [symmetry; apply app_nil_r | constructor].
    + intros [?|[]]. assumption.
  - destruct (Hex (now_iso U (n_extracts c))) as [ms Hms].
    cbn [collect forallb fresh_fixtures]. rewrite recorded_ids_cons.
    rewrite (event_id_recorded ev Hd). cbn [bind].
    unfold known at 1 3. unfold recorded_id.
    set (s0 := Py.str P (Py.or_ (field ev "eventId") (JStr ""))).
    destruct (Str.nonempty s0) eqn:Hne; cbn [andb].
    + destruct (bool_decide (s0 ∈ seen_event_ids c)) eqn:Hin.
      * destruct (IH c) as (c1 & Hc & Hg & Hsame & Hrec & Hseen).
        apply bool_decide_eq_true_1 in Hin.
        exists c1. split; [exact Hc|]. split; [exact Hg|]. split; [exact Hsame|].
        split; [exact Hrec|].
        intros s. rewrite Hseen. cbn [In]. split; [tauto|].
        intros [Hs | [<- | Hs]]; auto.
      * rewrite Hit. cbn [bind]. rewrite Hms. cbn [bind].
        match goal with |- context [collect P U evs ?c'] => destruct (IH c') as
          (c1 & Hc & Hg & _ & (recs & Hr & Hb) & Hseen) end.
        cbn [got_any_in_window results seen_event_ids orb] in *.
        exists c1. split; [exact Hc|]. split; [rewrite Hg; rewrite orb_true_r; reflexivity|].
        split; [discriminate|]. split.
        -- eexists. split; [rewrite Hr, <- app_assoc; reflexivity|].
           constructor; [|exact Hb]. exists (n_extracts c), it, ms. auto.
        -- intros s. rewrite Hseen. cbn [In]. rewrite elem_of_union, elem_of_singleton.
           split; [intros [[-> | ?] | ?]; auto | intros [? | [<- | ?]]; auto].
    + rewrite Hit. cbn [bind]. rewrite Hms. cbn [bind].
      match goal with |- context [collect P U evs ?c'] => destruct (IH c') as
        (c1 & Hc & Hg & _ & (recs & Hr & Hb) & Hseen) end.
      cbn [got_any_in_window results seen_event_ids orb] in *.
      exists c1. split; [exact Hc|]. split; [rewrite Hg; rewrite orb_true_r; reflexivity|].
      split; [discriminate|]. split.
      * eexists. split; [rewrite Hr, <- app_assoc; reflexivity|].
        constructor; [|exact Hb]. exists (n_extracts c), it, ms. auto.
      * exact Hseen.
Qed.

End Pages.

(* ===================================================================== *)
(** * One window of pages *)
(* ===================================================================== *)

Section OneWindow.
Context (P : platform) (U : upstream) (a : args).

Lemma view_page_empty r pg :
  view_page P r pg = Some EmptyPage ->
  exists data items,
    accept P r = Ok data /\ items_of data = Ok items /\ Py.truthy items = false.
Proof.
  unfold view_page. intros H.
  destruct (accept P r) as [data|]; [|discriminate].
  destruct (items_of data) as [items|] eqn:Hi; [|discriminate].
  destruct (Py.truthy items) eqn:Ht; cbn [negb] in H;
    [|exists data, items; auto].
  repeat case_match; discriminate.
Qed.

Lemma view_page_items r pg evs (last : bool) :
  view_page P r pg = Some (if last then LastPage evs else MorePages evs) ->
  exists data items tp pn,
    accept P r = Ok data /\ items_of data = Ok items /\ Py.truthy items = true /\
    Py.iter items = Ok evs /\ total_pages_of data = Ok tp /\
    page_now_of data pg = Ok pn /\ (pn >=? tp) = last.
Proof.
  unfold view_page. intros H.
  destruct (accept P r) as [data|]; [|discriminate].
  destruct (items_of data) as [items|] eqn:Hi; [|discriminate].
  destruct (Py.truthy items) eqn:Ht; cbn [negb] in H; [|destruct last; discriminate].
  destruct (Py.iter items) as [evs'|] eqn:He; [|discriminate].
  destruct (total_pages_of data) as [tp|] eqn:Htp; [|discriminate].
  destruct (page_now_of data pg) as [pn|] eqn:Hpn; [|discriminate].
  exists data, items, tp, pn.
  destruct (pn >=? tp), last; simplify_eq; auto 10.
Qed.

Lemma fresh_nonempty (seen : gset string) (evs : list json) :
  forallb (known P seen) evs = false -> fresh_fixtures P seen evs <> [].
Proof.
  induction evs as [|ev evs IH]; cbn [forallb fresh_fixtures]; [discriminate|].
  unfold known at 1. destruct (recorded_id P ev) as [s|]; [|discriminate].
  destruct (bool_decide (s ∈ seen)); [exact IH | discriminate].
Qed.

(** What a page adds, by the numbers. *)
Lemma collect_counts (evs : list json) (c : cursor) :
  Forall (normalizes P) evs ->
  exists c1,
    collect P U evs c = Ok c1 /\
    got_any_in_window c1 =
      got_any_in_window c || negb (forallb (known P (seen_event_ids c)) evs) /\
    (forallb (known P (seen_event_ids c)) evs = true -> c1 = c) /\
    (length (results c) <= length (results c1))%nat /\
    (forallb (known P (seen_event_ids c)) evs = false ->
       (length (results c) < length (results c1))%nat).
Proof.
  intros Hn.
  destruct (collect_page P U evs c Hn) as (c1 & Hc & Hg & Hsame & (recs & Hr & Hb) & _).
  exists c1. split; [exact Hc|]. split; [exact Hg|]. split; [exact Hsame|].
  rewrite Hr, length_app. split; [lia|].
  intros Hk. apply fresh_nonempty in Hk. apply Forall2_length in Hb.
  destruct (fresh_fixtures P (seen_event_ids c) evs); [contradiction|].
  cbn [length] in Hb. lia.
Qed.

Lemma window_request_0 (c : cursor) : window_request a c 0 = payload a c.
Proof. unfold window_request, payload. f_equal. cbn. lia. Qed.

Lemma window_requests_S (c c' : cursor) (n : nat) :
  start_ms c' = start_ms c -> end_ms c' = end_ms c -> page c' = page c + 1 ->
  window_requests a c (S n) = payload a c :: window_requests a c' n.
Proof.
  intros Hs He Hp. unfold window_requests. cbn [seq map].
  rewrite window_request_0. f_equal. rewrite <- seq_shift, List.map_map.
  apply List.map_ext. intros j. unfold window_request. rewrite Hs, He, Hp.
  f_equal. lia.
Qed.

Lemma window_answers_tail (c c' : cursor) evs rest final :
  window_answers P U a c (evs :: rest) final ->
  start_ms c' = start_ms c -> end_ms c' = end_ms c -> page c' = page c + 1 ->
  n_posts c' = S (n_posts c) ->
  window_answers P U a c' rest final.
Proof.
  intros [Hp Hf] Hs He Hpg Hn.
  assert (Hreq : forall j, window_request a c' j = window_request a c (S j)).
  { intros j. unfold window_request. rewrite Hs, He, Hpg. f_equal. lia. }
  split.
  - intros j e Hj. specialize (Hp (S j) e Hj).
    rewrite Hreq, Hn, Hpg.
    replace (S (n_posts c) + j)%nat with (n_posts c + S j)%nat by lia.
    replace (page c + 1 + Z.of_nat j) with (page c + Z.of_nat (S j)) by lia.
    exact Hp.
  - cbn [length] in Hf. rewrite Hreq, Hn, Hpg.
    replace (S (n_posts c) + length rest)%nat with (n_posts c + S (length rest))%nat by lia.
    replace (page c + 1 + Z.of_nat (length rest))
      with (page c + Z.of_nat (S (length rest))) by lia.
    exact Hf.
Qed.

(** The first page of a window that answers as described. *)
Lemma window_first_page (c : cursor) pages final :
  window_answers P U a c pages final ->
  view_page P (post U (n_posts c) (payload a c)) (page c) =
  Some match pages with
       | evs :: _ => MorePages evs
       | [] => closing final
       end.
Proof.
  intros [Hp Hf]. destruct pages as [|evs rest].
  - cbn [length] in Hf. rewrite Nat.add_0_r, window_request_0 in Hf.
    cbn in Hf. rewrite Z.add_0_r in Hf. exact Hf.
  - specialize (Hp O evs eq_refl).
    rewrite Nat.add_0_r, window_request_0 in Hp.
    cbn in Hp. rewrite Z.add_0_r in Hp. exact Hp.
Qed.

(** The pages of one window, from its first request to the end of the
    window. *)
Lemma window_run (pages : list (list json)) (final : option (list json)) (c : cursor) :
  window_answers P U a c pages final ->
  Forall (normalizes P) (concat pages ++ closing_fixtures final) ->
  exists c1,
    start_ms c1 = start_ms c /\ end_ms c1 = end_ms c /\
    n_posts c1 = (n_posts c + S (length pages))%nat /\
    got_any_in_window c1 =
      got_any_in_window c
      || negb (forallb (known P (seen_event_ids c))
                 (concat pages ++ closing_fixtures final)) /\
    (forallb (known P (seen_event_ids c)) (concat pages ++ closing_fixtures final) = true ->
       results c1 = results c) /\
    (length (results c) <= length (results c1))%nat /\
    (forallb (known P (seen_event_ids c)) (concat pages ++ closing_fixtures final) = false ->
       (length (results c) < length (results c1))%nat) /\
    forall fuel,
      run P U a (S (length pages) + fuel) c =
      match close_window P a c1 with
      | Ok (Return r) => (Returned r, window_requests a c (S (length pages)))
      | Ok (NextRequest c') =>
          (fst (run P U a fuel c'),
           (window_requests a c (S (length pages)) ++ snd (run P U a fuel c'))%list)
      | Raise e => (Raised e, window_requests a c (S (length pages)))
      end.
Proof.
  revert c. induction pages as [|evs rest IH]; intros c Hw Hn.
  - pose proof (window_first_page c _ _ Hw) as Hv. cbn [concat app length] in *.
    destruct final as [evs|]; cbn [closing closing_fixtures] in *.
    + destruct (view_page_items _ _ evs true Hv)
        as (data & items & tp & pn & Ha & Hi & Ht & He & Htp & Hpn & Hlast).
      destruct (collect_counts evs (sent c) Hn) as (c1 & Hc & Hg & Hsame & Hle & Hlt).
      destruct (collect_frame P U _ _ _ Hc) as (Hs & Hen & _ & Hnp & _).
      cbn [sent start_ms end_ms n_posts got_any_in_window results seen_event_ids] in *.
      exists c1. split; [exact Hs|]. split; [exact Hen|]. split; [lia|].
      split; [exact Hg|]. split; [intros Hk; rewrite (Hsame Hk); reflexivity|].
      split; [exact Hle|]. split; [exact Hlt|].
      intros fuel. cbn [Nat.add]. rewrite run_S.
      rewrite (page_step_items P U a c data items evs c1 tp pn) by assumption.
      rewrite Hlast. unfold window_requests. cbn [seq map]. rewrite window_request_0.
      destruct (close_window P a c1) as [[c'|r]|e]; try reflexivity.
      destruct (run P U a fuel c'); reflexivity.
    + destruct (view_page_empty _ _ Hv) as (data & items & Ha & Hi & Ht).
      exists (sent c). cbn [sent start_ms end_ms n_posts got_any_in_window results forallb].
      rewrite orb_false_r.
      split; [reflexivity|]. split; [reflexivity|]. split; [lia|].
      split; [reflexivity|]. split; [reflexivity|]. split; [lia|].
      split; [discriminate|].
      intros fuel. cbn [Nat.add]. rewrite run_S.
      rewrite (page_step_empty P U a c data items) by assumption.
      unfold window_requests. cbn [seq map]. rewrite window_request_0.
      destruct (close_window P a (sent c)) as [[c'|r]|e]; try reflexivity.
      destruct (run P U a fuel c'); reflexivity.
  - pose proof (window_first_page c _ _ Hw) as Hv.
    cbn [concat] in Hn. rewrite <- app_assoc in Hn. apply Forall_app in Hn as [Hn1 Hn2].
    destruct (view_page_items _ _ evs false Hv)
      as (data & items & tp & pn & Ha & Hi & Ht & He & Htp & Hpn & Hlast).
    destruct (collect_counts evs (sent c) Hn1) as (c0 & Hc & Hg & Hsame & Hle & Hlt).
    destruct (collect_frame P U _ _ _ Hc) as (Hs & Hen & Hpg & Hnp & _).
    cbn [sent start_ms end_ms page n_posts got_any_in_window results seen_event_ids] in *.
    assert (Hw' : window_answers P U a (next_page c0) rest final).
    { apply (window_answers_tail c _ evs); cbn [next_page start_ms end_ms page n_posts];
        auto. rewrite Hpg. reflexivity. }
    destruct (IH (next_page c0) Hw' Hn2)
      as (c1 & Hs1 & He1 & Hn1' & Hg1 & Hsame1 & Hle1 & Hlt1 & Hrun).
    cbn [next_page start_ms end_ms n_posts got_any_in_window results seen_event_ids] in *.
    cbn [concat]. rewrite <- app_assoc, forallb_app.
    exists c1. split; [congruence|]. split; [congruence|].
    split; [cbn [length]; lia|].
    destruct (forallb (known P (seen_event_ids c)) evs) eqn:Hk; cbn [andb negb].
    + specialize (Hsame eq_refl). subst c0.
      cbn [sent got_any_in_window results seen_event_ids] in *.
      split; [exact Hg1|]. split; [exact Hsame1|]. split; [exact Hle1|].
      split; [exact Hlt1|].
      intros fuel. cbn [Nat.add length]. rewrite run_S.
      rewrite (page_step_items P U a c data items evs (sent c) tp pn) by assumption.
      rewrite Hlast.
      change (S (length rest) + fuel)%nat with (S (length rest + fuel)) in Hrun.
      specialize (Hrun fuel). cbn [Nat.add] in Hrun. rewrite Hrun.
      rewrite (window_requests_S c (next_page (sent c))) by reflexivity.
      destruct (close_window P a c1) as [[c'|r]|e]; try reflexivity.
    + specialize (Hlt eq_refl). rewrite orb_true_r in *.
      rewrite Hg, orb_true_l in Hg1.
      split; [exact Hg1|]. split; [discriminate|]. split; [lia|].
      split; [intros _; lia|].
      intros fuel. cbn [Nat.add length]. rewrite run_S.
      rewrite (page_step_items P U a c data items evs c0 tp pn) by assumption.
      rewrite Hlast.
      specialize (Hrun fuel). cbn [Nat.add] in Hrun. rewrite Hrun.
      rewrite (window_requests_S c (next_page c0))
        by (cbn [next_page start_ms end_ms page]; congruence).
      destruct (close_window P a c1) as [[c'|r]|e]; try reflexivity.
Qed.

End OneWindow.

(* ===================================================================== *)
(** * The fetch cursor *)
(* ===================================================================== *)

(** One window, from its head to the request after it. Take a cursor at
    the head of a window, the first of the run or a later one, and let
    the upstream answer the window with some pages of fixtures, none the
    last, and then with a closing page: a page without items, or the last
    page. The run requests exactly these pages, the closing page last:
    after a page without items no further page of the window is asked
    for. When every fixture of the window has an id that was recorded
    before, the run returns at once with the results it had, and sends
    nothing more. When some fixture is new (it has no id, or an id not
    recorded before), records were added and the window that opens at
    [window_end + 1], of the same width, is entered at the start page:
    its first page is the next request, provided the date text of its two
    bounds can be produced; if not, the run ends with that exception,
    without a request of the new window. *)
Lemma window_termination (P : platform) (U : upstream) (a : args)
    (c : cursor) (pages : list (list json)) (final : option (list json)) :
  window_head U a c ->
  window_answers P U a c pages final ->
  Forall (normalizes P) (concat pages ++ closing_fixtures final) ->
  (forallb (known P (seen_event_ids c)) (concat pages ++ closing_fixtures final) = true ->
   forall fuel,
     run P U a (S (length pages) + fuel) c =
     (Returned (results c), window_requests a c (S (length pages)))) /\
  (forallb (known P (seen_event_ids c)) (concat pages ++ closing_fixtures final) = false ->
   exists c1,
     payload a (next_window a c1) = next_window_request a c /\
     n_posts (next_window a c1) = (n_posts c + S (length pages))%nat /\
     (length (results c) < length (results c1))%nat /\
     forall fuel,
       run P U a (S (length pages) + fuel) c =
       match open_window P (next_window a c1) with
       | Ok _ =>
           (fst (run P U a fuel (next_window a c1)),
            (window_requests a c (S (length pages))
             ++ snd (run P U a fuel (next_window a c1)))%list)
       | Raise e => (Raised e, window_requests a c (S (length pages)))
       end /\
       match snd (run P U a (S fuel) (next_window a c1)) with
       | r :: _ => r = next_window_request a c
       | [] => False
       end).
Proof.
  intros Hhead Hw Hn.
  assert (Hgot : got_any_in_window c = false)
    by (destruct Hhead as [-> | [c0 ->]]; reflexivity).
  destruct (window_run P U a pages final c Hw Hn)
    as (c1 & Hs & He & Hnp & Hg & Hsame & _ & Hlt & Hrun).
  rewrite Hgot in Hg. cbn [orb] in Hg. split; intros Hk; rewrite Hk in Hg; cbn [negb] in Hg.
  - intros fuel. rewrite Hrun, close_window_def, Hg, (Hsame Hk). reflexivity.
  - exists c1.
    assert (Hreq : payload a (next_window a c1) = next_window_request a c).
    { unfold payload, next_window_request. cbn [next_window start_ms end_ms page].
      rewrite He. reflexivity. }
    split; [exact Hreq|]. split; [exact Hnp|]. split; [exact (Hlt Hk)|].
    intros fuel. split.
    + rewrite Hrun, close_window_def, Hg.
      destruct (open_window P (next_window a c1)) as [c2|e] eqn:Ho; cbn [bind];
        [|reflexivity].
      apply open_window_ok in Ho as ->. reflexivity.
    + rewrite run_S, <- Hreq.
      destruct (page_step P U a (next_window a c1)) as [[c'|r]|e]; try reflexivity.
      destruct (run P U a fuel c'); reflexivity.
Qed.

Lemma sample_normalizes (event_id : json) (markets : list json) (it : item)
    (blocks : string -> list market) :
  build_item_skeleton_from_api Sample.platform0 (Sample.fixture event_id markets) = Ok it ->
  (forall now, extract_markets_from_api Sample.platform0 now
                 (Sample.fixture event_id markets) = Ok (blocks now)) ->
  normalizes Sample.platform0 (Sample.fixture event_id markets).
Proof. intros Hb He. split; [reflexivity|]. split; eauto. Qed.

(** The first window of an upstream that repeats itself: two pages, three
    fixtures, two of them new. The run goes on with the next window. *)
Lemma window_termination_sample :
  exists c1,
    payload Sample.args0 (next_window Sample.args0 c1) =
      {| startTime := 1704172800001; endTime := 1704345600001;
         pageSize := 50; pageNum := 1 |} /\
    n_posts (next_window Sample.args0 c1) = 2%nat /\
    (0 < length (results c1))%nat /\
    forall fuel,
      run Sample.platform0 Sample.upstream_dup Sample.args0 (2 + fuel)
          (cursor0 Sample.upstream_dup Sample.args0) =
      match open_window Sample.platform0 (next_window Sample.args0 c1) with
      | Ok _ =>
          (fst (run Sample.platform0 Sample.upstream_dup Sample.args0 fuel
                  (next_window Sample.args0 c1)),
           ([ {| startTime := 1704000000000; endTime := 1704172800000;
                 pageSize := 50; pageNum := 1 |};
              {| startTime := 1704000000000; endTime := 1704172800000;
                 pageSize := 50; pageNum := 2 |} ]
            ++ snd (run Sample.platform0 Sample.upstream_dup Sample.args0 fuel
                      (next_window Sample.args0 c1)))%list)
      | Raise e =>
          (Raised e,
           [ {| startTime := 1704000000000; endTime := 1704172800000;
                pageSize := 50; pageNum := 1 |};
             {| startTime := 1704000000000; endTime := 1704172800000;
                pageSize := 50; pageNum := 2 |} ])
      end /\
      match snd (run Sample.platform0 Sample.upstream_dup Sample.args0 (S fuel)
                   (next_window Sample.args0 c1)) with
      | r :: _ => r = {| startTime := 1704172800001; endTime := 1704345600001;
                         pageSize := 50; pageNum := 1 |}
      | [] => False
      end.
Proof.
  refine (proj2 (window_termination Sample.platform0 Sample.upstream_dup Sample.args0
                   (cursor0 Sample.upstream_dup Sample.args0)
                   [[Sample.fixture (JInt 1) [Sample.ml_market];
                     Sample.fixture (JInt 1) [Sample.ml_market]]]
                   (Some [Sample.fixture (JInt 2) []]) (or_introl eq_refl) _ _) eq_refl).
  - split; [|reflexivity].
    intros [|[|j]] evs Hj; cbn in Hj; simplify_eq. reflexivity.
  - cbn [concat app closing_fixtures].
    apply List.Forall_cons;
      [|apply List.Forall_cons; [|apply List.Forall_cons; [|apply List.Forall_nil]]].
    + eapply (sample_normalizes _ _ _ (fun now => [ml_block now "1.900" "3.400" "4.100"]));
        [vm_compute; reflexivity | intros now; vm_compute; reflexivity].
    + eapply (sample_normalizes _ _ _ (fun now => [ml_block now "1.900" "3.400" "4.100"]));
        [vm_compute; reflexivity | intros now; vm_compute; reflexivity].
    + eapply (sample_normalizes _ _ _ (fun _ => []));
        [vm_compute; reflexivity | intros now; vm_compute; reflexivity].
Qed.

(** An upstream whose first window is empty: one request, and the run
    returns. *)
Example empty_window_halts (fuel : nat) :
  scrape_api_only Sample.platform0 Sample.upstream_empty (S fuel) Sample.args0 =
  (Returned [],
   [ {| startTime := 1704000000000; endTime := 1704172800000;
        pageSize := 50; pageNum := 1 |} ]).
Proof. reflexivity. Qed.

(** C4, at the input where it fails. With [hours_ahead = 36000000] the
    first window ends in the year 6130 and the second past the year 9999.
    The first window brings two new fixtures on two pages, so the next
    window is due; the date text of its end cannot be produced, and the
    run ends with that exception after the two page requests: the next
    window is never requested and nothing is returned. With the usual 48
    hours the same upstream is followed into its second window. *)
Theorem C4_next_window_not_requested :
  forallb (known Cases.platform_9999 ∅)
    [Sample.fixture (JInt 1) [Sample.ml_market];
     Sample.fixture (JInt 1) [Sample.ml_market];
     Sample.fixture (JInt 2) []] = false /\
  window_label Cases.platform_9999 (131304000000000 + 1 + 129600000000000)
    = Raise ValueError /\
  scrape_api_only Cases.platform_9999 Sample.upstream_dup 10
    (with_hours Sample.args0 36000000)
  = (Raised ValueError,
     [ {| startTime := 1704000000000; endTime := 131304000000000;
          pageSize := 50; pageNum := 1 |};
       {| startTime := 1704000000000; endTime := 131304000000000;
          pageSize := 50; pageNum := 2 |} ]) /\
  snd (scrape_api_only Cases.platform_9999 Sample.upstream_dup 10 Sample.args0)
  = [ {| startTime := 1704000000000; endTime := 1704172800000; pageSize := 50; pageNum := 1 |};
      {| startTime := 1704000000000; endTime := 1704172800000; pageSize := 50; pageNum := 2 |};
      {| startTime := 1704172800001; endTime := 1704345600001; pageSize := 50; pageNum := 1 |} ].
Proof. repeat split; vm_compute; reflexivity. Qed.

(* ===================================================================== *)
(** * Deduplication *)
(* ===================================================================== *)

(** C5, at the input where it fails. The event id 0 is an event id like
    any other for the upstream, and falsy for the loop: a page that holds
    the fixture of id 0 twice gives two records, both with the same id,
    and the run returns both. The fixture of id 7 sent twice gives one. *)
Theorem C5_event_id_zero_recorded_twice :
  field Cases.fixture_zero "eventId" = JInt 0 /\
  recorded_id Sample.platform0 Cases.fixture_zero = None /\
  (exists it,
     build_item_skeleton_from_api Sample.platform0 Cases.fixture_zero = Ok it /\
     item_id it = 569661530922 /\
     scrape_api_only Sample.platform0 Cases.upstream_zero 5 Sample.args0 =
     (Returned [it; it],
      [ {| startTime := 1704000000000; endTime := 1704172800000;
           pageSize := 50; pageNum := 1 |};
        {| startTime := 1704172800001; endTime := 1704345600001;
           pageSize := 50; pageNum := 1 |} ])) /\
  match collect Sample.platform0 Cases.upstream_zero
          [Sample.fixture (JInt 7) []; Sample.fixture (JInt 7) []]
          (cursor0 Cases.upstream_zero Sample.args0) with
  | Ok c => map item_id (results c) = [sha_id "7"]
  | Raise _ => False
  end.
Proof.
  split; [reflexivity|]. split; [reflexivity|]. split.
  - eexists. split; [vm_compute; reflexivity|]. split; vm_compute; reflexivity.
  - vm_compute. reflexivity.
Qed.

(** The same event id on one page, then on a later page and in the next
    window: one record each. *)
Example dedup_across_pages_and_windows :
  let (o, log) := scrape_api_only Sample.platform0 Sample.upstream_dup 10 Sample.args0 in
  match o with
  | Returned r => map item_id r
  | _ => []
  end = [sha_id "1"; sha_id "2"] /\ length log = 3%nat.
Proof. vm_compute. split; reflexivity. Qed.

(** Where fixtures do have an id the loop recognises, a page adds exactly
    one record for the first fixture of each id not recorded before, and
    one for each fixture without an id; the ids recorded afterwards are
    those recorded before and those of the page. *)
Lemma page_records (P : platform) (U : upstream) (evs : list json) (c : cursor) :
  Forall (normalizes P) evs ->
  exists c1 recs,
    collect P U evs c = Ok c1 /\
    results c1 = (results c ++ recs)%list /\
    Forall2 (built_from P U) recs (fresh_fixtures P (seen_event_ids c) evs) /\
    (forall s, s ∈ seen_event_ids c1 <->
               s ∈ seen_event_ids c \/ In s (recorded_ids P evs)).
Proof.
  intros Hn.
  destruct (collect_page P U evs c Hn) as (c1 & Hc & _ & _ & (recs & Hr & Hb) & Hs).
  exists c1, recs. auto.
Qed.

(** Over a whole run, the records come one for one from raw fixtures no
    two of which share an id that the loop recognises. *)
Lemma recorded_ids_distinct (P : platform) (U : upstream) (fuel : nat) (a : args) :
  match fst (scrape_api_only P U fuel a) with
  | Returned r => distinct_events P U r
  | Running c => distinct_events P U (results c)
  | Raised _ => True
  end.
Proof.
  destruct (scrape_running P U a fuel) as [(e & _ & ->) | [_ ->]]; [exact I|].
  apply run_inv, cursor0_inv.
Qed.

(* ===================================================================== *)
(** * Identity *)
(* ===================================================================== *)

(** The key the id is derived from: the recorded id when there is one,
    else home, away and date joined by two underscores. *)
Lemma item_id_key (P : platform) (ev : json) (it : item) :
  build_item_skeleton_from_api P ev = Ok it ->
  item_id it =
  int_of_hex (Str.take 10 (SHA256.hexdigest
    match recorded_id P ev with
    | Some s => s
    | None => item_home it ++ "__" ++ item_away it ++ "__" ++ item_date it
    end)).
Proof.
  intros H. destruct (build_item_id P ev it H) as (s & Hs & ->).
  unfold event_id in Hs. inv_bind Hs. injection Hs as <-.
  unfold recorded_id. rewrite (get_dict _ _ (get_ok_dict _ _ _ Hx)) in Hx.
  injection Hx as <-. destruct (Str.nonempty _); reflexivity.
Qed.

(** C8, at the input where it fails. The fixture carries the event id 0,
    and its record id is not derived from it: it is the id of the key
    home__away__date, the same as for the fixture without any event id.
    (An event id the code does take, like 12345 or "abc", gives the first
    ten hexadecimal digits of its SHA-256 digest, read as an integer.) *)
Theorem C8_event_id_zero_falls_back :
  field Cases.fixture_zero "eventId" = JInt 0 /\
  (exists it,
     build_item_skeleton_from_api Sample.platform0 Cases.fixture_zero = Ok it /\
     item_id it = 569661530922 /\
     item_id it = sha_id "Porto__Braga__2024-01-01T00:00:00Z") /\
  sha_id "0" = 411996743423 /\
  (exists it,
     build_item_skeleton_from_api Sample.platform0 Cases.anonymous = Ok it /\
     item_id it = 569661530922) /\
  (exists it,
     build_item_skeleton_from_api Sample.platform0 (Sample.fixture (JInt 12345) []) = Ok it /\
     item_id it = 384739777211 /\ sha_id "12345" = 384739777211) /\
  (exists it,
     build_item_skeleton_from_api Sample.platform0 (Sample.fixture (JStr "abc") []) = Ok it /\
     item_id it = 800878673807 /\
     Str.take 10 (SHA256.hexdigest "abc") = "ba7816bf8f").
Proof.
  split; [reflexivity|].
  split; [eexists; split; [vm_compute; reflexivity|]; split; vm_compute; reflexivity|].
  split; [vm_compute; reflexivity|].
  split; [eexists; split; vm_compute; reflexivity|].
  split; eexists; (split; [vm_compute; reflexivity|]); split; vm_compute; reflexivity.
Qed.

(* ===================================================================== *)
(** * Fatal and absorbed failures *)
(* ===================================================================== *)

(** C9, at the input where it fails. A page request that fails in the
    transport, or whose status is not 200, or whose body does not decode,
    or whose envelope is not a dict with a [code] that prints as 200,
    raises at that request: the run ends with the exception, the request
    is not sent again and none follows it. But a field failure ends the
    run as well: a selection that quotes its odds as text under
    [displayOdds], with no [trueOdds], makes the price lookup raise
    [AttributeError], which leaves the normalizer, the page loop and the
    run, and with it the record of the sound fixture read before. Where
    [displayOdds] is a dict whose [Decimal] does not parse, the failure is
    absorbed as the claim says: the leg is absent, the run returns both
    fixtures. *)
Theorem C9_display_odds_text_aborts (P : platform) (U : upstream) (a : args) :
  (forall c,
     good_response P (post U (n_posts c) (payload a c)) = false ->
     exists e, forall fuel, run P U a (S fuel) c = (Raised e, [payload a c])) /\
  (forall k c log,
     scrape_api_only P U k a = (Running c, log) ->
     good_response P (post U (n_posts c) (payload a c)) = false ->
     exists e, forall fuel,
       scrape_api_only P U (k + S fuel) a = (Raised e, (log ++ [payload a c])%list)) /\
  price_field Cases.sel_text_odds = Raise AttributeError /\
  extract_markets_from_api Sample.platform0 "t" (Cases.fixture_with 6 Cases.sel_text_odds)
    = Raise AttributeError /\
  scrape_api_only Sample.platform0 Cases.upstream_text_odds 5 Sample.args0
    = (Raised AttributeError,
       [ {| startTime := 1704000000000; endTime := 1704172800000;
            pageSize := 50; pageNum := 1 |} ]) /\
  price_field Cases.sel_bad_decimal = Ok (JStr "n/a") /\
  extract_markets_from_api Sample.platform0 "t" (Cases.fixture_with 6 Cases.sel_bad_decimal)
    = Ok [] /\
  (exists r log,
     scrape_api_only Sample.platform0 Cases.upstream_bad_decimal 5 Sample.args0
       = (Returned r, log) /\
     map item_id r = [sha_id "5"; sha_id "6"]).
Proof.
  assert (Hone : forall c,
            good_response P (post U (n_posts c) (payload a c)) = false ->
            exists e, forall fuel, run P U a (S fuel) c = (Raised e, [payload a c])).
  { intros c Hbad. destruct (accept_bad P _ Hbad) as [e He].
    exists e. intros fuel. rewrite run_S. unfold page_step. rewrite He. reflexivity. }
  split; [exact Hone|]. split.
  - intros k c log Hk Hbad. destruct (Hone c Hbad) as [e He].
    exists e. intros fuel.
    destruct (scrape_running P U a k) as [(e' & _ & He') | [Ho Hrun]];
      [rewrite He' in Hk; discriminate Hk|].
    unfold scrape_api_only in *. rewrite Ho in *.
    rewrite run_app, Hk, He. reflexivity.
  - repeat split; try (vm_compute; reflexivity).
    eexists. eexists. split; vm_compute; reflexivity.
Qed.

(** What is absorbed: under the container shapes the code relies on,
    whatever [trueOdds], [Decimal], [points] and [eventTime] hold, the
    skeleton and the markets are built and the page is collected. *)
Lemma field_values_absorbed (P : platform) (U : upstream) :
  (forall now_iso ev,
     event_shaped ev = true ->
     exists it out,
       build_item_skeleton_from_api P ev = Ok it /\
       extract_markets_from_api P now_iso ev = Ok out) /\
  (forall evs c,
     forallb event_shaped evs = true -> exists c', collect P U evs c = Ok c').
Proof.
  split.
  - intros now_iso ev Hev.
    destruct (build_ok P ev (event_shaped_dict _ Hev)) as [it Hit].
    destruct (extract_ok P now_iso ev Hev) as [out Hout]. eauto.
  - intros evs c H. apply collect_ok, H.
Qed.

(** And absorbed means absent: a selection whose points do not parse
    changes nothing in the totals and in the handicap loop (for a price
    that does not parse see C1, for a timestamp X3). *)
Lemma unparsed_points_skipped (P : platform) (s : json) (rest : list json) :
  (totals_points_of s = Ok None ->
   forall lines, totals_selections P (s :: rest) lines = totals_selections P rest lines) /\
  (handicap_points_of s = Ok None ->
   forall legs, handicap_selections P (s :: rest) legs = handicap_selections P rest legs).
Proof.
  split; intros H acc0.
  - unfold totals_points_of in H. inv_bind H. injection H as H.
    pose proof (get_ok_dict _ _ _ Hx) as Hd. cbn [totals_selections].
    rewrite !(get_dict _ _ Hd). cbn [bind].
    rewrite (get_dict _ _ Hd) in Hx. injection Hx as ->. rewrite H. reflexivity.
  - unfold handicap_points_of in H. inv_bind H. injection H as H.
    pose proof (get_ok_dict _ _ _ Hx) as Hd. cbn [handicap_selections].
    rewrite !(get_dict _ _ Hd). cbn [bind].
    rewrite (get_dict _ _ Hd) in Hx. injection Hx as ->. rewrite H. reflexivity.
Qed.
